(** * The terminal progress writer (progress/tty.go) and the ACI context
      helper (azure/context.go)

    A shallow embedding of the two Go files and the properties of their
    specification.  Go values are modelled as follows:
    - [int] is a 64-bit two's complement integer: a [Z] with [wrap] applied
      where the code computes on it;
    - [string] is a sequence of bytes: a Rocq [string], [len] its length
      in bytes;
    - [map[string]Event] is a [gmap string Event], a slice is a [list];
    - a pointer is an [option] of a location in an explicit store; a nil or
      dangling dereference, like every other run-time panic, makes the
      embedded function return [None]. *)

From Stdlib Require Import ZArith Lia String Ascii List.
From stdpp Require Import base option list strings gmap fin_maps.

Local Open Scope string_scope.
Local Open Scope list_scope.
Local Open Scope Z_scope.

(** ** Go integers and strings *)

Module Go.

Definition int_min : Z := - 2 ^ 63.
Definition int_max : Z := 2 ^ 63 - 1.

(** Two's complement wrap-around of [int] arithmetic. *)
Definition wrap (z : Z) : Z := (z + 2 ^ 63) mod 2 ^ 64 - 2 ^ 63.

Definition is_int (z : Z) : Prop := int_min <= z <= int_max.

(** The builtin [len] on a string: its number of bytes. *)
Definition len (s : string) : Z := Z.of_nat (String.length s).

(** The line feed, [\n] in a Go literal. *)
Definition nl : string := String (ascii_of_nat 10) "".

(** [n] copies of [s], for a count that is known not to be negative. *)
Fixpoint replicate_string (n : nat) (s : string) : string :=
  match n with
  | O => ""
  | S n' => s +:+ replicate_string n' s
  end.

(** [strings.Repeat(s, count)]: panics on a negative count and when the
    length of the result overflows [int]. *)
Definition Repeat (s : string) (count : Z) : option string :=
  if count =? 0 then Some ""
  else if count <? 0 then None
  else if int_max <? len s * count then None
  else Some (replicate_string (Z.to_nat count) s).

(** The bytes of a string as numbers. *)
Fixpoint bytes (s : string) : list N :=
  match s with
  | EmptyString => []
  | String c s' => N_of_ascii c :: bytes s'
  end.

(** [%d] of [fmt]: the decimal digits, with a minus sign when negative. *)
Definition digit (n : nat) : string :=
  String (ascii_of_nat (48 + n)) "".

Fixpoint digits_fuel (fuel : nat) (n : N) (acc : string) : string :=
  match fuel with
  | O => acc
  | S fuel' =>
      let acc' := digit (N.to_nat (n mod 10)) +:+ acc in
      if (n <? 10)%N then acc' else digits_fuel fuel' (n / 10)%N acc'
  end.

Definition itoa (z : Z) : string :=
  let n := Z.to_N (Z.abs z) in
  let d := digits_fuel (S (N.to_nat (N.log2 n))) n "" in
  if z <? 0 then "-" +:+ d else d.

End Go.

(** ** unicode/utf8: counting code points

    [fmt] measures a width in code points, not bytes.  This is
    [utf8.RuneCountInString]: an invalid or short encoding counts as one
    code point of one byte. *)

Module utf8.

Definition RuneSelf : N := 128.
Definition locb : N := 128.
Definition hicb : N := 191.

(** The entry of the table [first] for a leading byte: [None] for an invalid
    leading byte, otherwise the size of the encoding and the range accepted
    for its second byte. *)
Definition first (c : N) : option (nat * (N * N)) :=
  if (c <? 194)%N then None
  else if (c <? 224)%N then Some (2%nat, (locb, hicb))
  else if (c =? 224)%N then Some (3%nat, (160%N, hicb))
  else if (c <? 237)%N then Some (3%nat, (locb, hicb))
  else if (c =? 237)%N then Some (3%nat, (locb, 159%N))
  else if (c <? 240)%N then Some (3%nat, (locb, hicb))
  else if (c =? 240)%N then Some (4%nat, (144%N, hicb))
  else if (c <? 244)%N then Some (4%nat, (locb, hicb))
  else if (c =? 244)%N then Some (4%nat, (locb, 143%N))
  else None.

Definition in_range (lo hi c : N) : bool := ((lo <=? c) && (c <=? hi))%N.

(** The number of bytes the loop of [RuneCountInString] advances by at the
    head of [s]. *)
Definition advance (s : list N) : nat :=
  match s with
  | [] => 1%nat
  | c :: rest =>
      if (c <? RuneSelf)%N then 1%nat
      else
        match first c with
        | None => 1%nat
        | Some (size, (lo, hi)) =>
            if (List.length s <? size)%nat then 1%nat
            else
              match rest with
              | c1 :: rest1 =>
                  if negb (in_range lo hi c1) then 1%nat
                  else if (size =? 2)%nat then 2%nat
                  else
                    match rest1 with
                    | c2 :: rest2 =>
                        if negb (in_range locb hicb c2) then 1%nat
                        else if (size =? 3)%nat then 3%nat
                        else
                          match rest2 with
                          | c3 :: _ =>
                              if negb (in_range locb hicb c3) then 1%nat
                              else 4%nat
                          | [] => 1%nat
                          end
                    | [] => 1%nat
                    end
              | [] => 1%nat
              end
        end
  end.

Fixpoint count_fuel (fuel : nat) (s : list N) : nat :=
  match fuel, s with
  | _, [] => O
  | O, _ => O
  | S fuel', _ :: _ => S (count_fuel fuel' (drop (advance s) s))
  end.

Definition RuneCountInString (s : string) : Z :=
  Z.of_nat (count_fuel (String.length s) (Go.bytes s)).

End utf8.

(** ** fmt: the two verbs the writer uses *)

Module fmt.

(** [Sprintf("%s %s", a, b)]. *)
Definition Sprintf_s_s (a b : string) : string := a +:+ " " +:+ b.

(** A width read from an operand by [*] is refused beyond a million. *)
Definition tooLarge (x : Z) : bool := (1000000 <? x) || (x <? -1000000).

Definition badWidthString : string := "%!(BADWIDTH)".

(** [writePadding n]: [n] spaces, nothing when [n <= 0]. *)
Definition writePadding (n : Z) : string :=
  Go.replicate_string (Z.to_nat n) " ".

(** [padString] with the minus flag: the string, then the padding up to
    [wid] code points; no padding at all for a width of zero. *)
Definition padString_minus (wid : Z) (s : string) : string :=
  if wid =? 0 then s
  else s +:+ writePadding (wid - utf8.RuneCountInString s).

(** The verb [%-*s] at width operand [wid] and string operand [s].  A
    refused width prints [badWidthString] and formats [s] without a width; a
    negative width is replaced by its absolute value, the minus flag (already
    set here) being turned on. *)
Definition Sprintf_minus_star_s (wid : Z) (s : string) : string :=
  if tooLarge wid then badWidthString +:+ s
  else padString_minus (if wid <? 0 then - wid else wid) s.

End fmt.

(** ** aec: the ANSI escape sequences written to the terminal *)

Module aec.

Definition esc : string := String (ascii_of_nat 27) "[".

Definition EmptyBuilder : string := "".

Definition Up (n : Z) (b : string) : string :=
  if n =? 0 then b else b +:+ esc +:+ Go.itoa n +:+ "A".
Definition Down (n : Z) (b : string) : string :=
  if n =? 0 then b else b +:+ esc +:+ Go.itoa n +:+ "B".
Definition Column (col : Z) (b : string) : string :=
  b +:+ esc +:+ Go.itoa col +:+ "G".

Definition Hide : string := esc +:+ "?25l".
Definition Show : string := esc +:+ "?25h".

Definition RedF : string := esc +:+ "31m".
Definition BlueF : string := esc +:+ "34m".
Definition WhiteF : string := esc +:+ "37m".
Definition Reset : string := esc +:+ "0m".

(** [aec.Apply(s, color)]. *)
Definition Apply (s color : string) : string := color +:+ s +:+ Reset.

End aec.

(** ** time: instants and durations in nanoseconds

    An instant is the number of nanoseconds since the zero [time.Time], so
    the zero value of a time field is [0]. *)

Module time.

Abbreviation Time := Z (only parsing).
Abbreviation Duration := Z (only parsing).

Definition zero : Time := 0.

(** [t.Sub(u)]: the difference, saturated to the range of a [Duration]. *)
Definition Sub (t u : Time) : Duration :=
  Z.max Go.int_min (Z.min Go.int_max (t - u)).

End time.

(** ** The data model *)

(** What the rendering needs from outside the two files: the glyphs of the
    spinner and the rendering of a duration's [Seconds()] by [%.1f], a
    floating-point formatting that is left abstract. *)
Class Presentation := {
  frame_at : nat -> string;
  cycle : nat;
  format_f1 : time.Duration -> string
}.

(** Modelled from the spec: the status enumeration of an event,
    [Working | Done | Error], declared next to [Event] outside tty.go. *)
Inductive EventStatus : Type := Working | Done | Error.

#[global] Instance EventStatus_eq_dec : EqDecision EventStatus.
Proof. solve_decision. Defined.

(** A location of the store of spinner objects. *)
Abbreviation loc := nat (only parsing).

(** The spinner and the [Event] struct are declared outside tty.go; they
    are taken from the specification (sections 3 and 4.5), with the fields
    and methods tty.go uses. *)

Module spinner.

(** Modelled from the spec: the spinner, a per-event animation cursor over a
    small fixed set of frames, with the position in the animation and
    whether it was stopped. *)
Record t : Type := mk { index : nat; stopped : bool }.

(** Modelled from the spec: [newSpinner()], a fresh spinner at the first
    frame. *)
Definition newSpinner : t := {| index := 0; stopped := false |}.

(** Modelled from the spec: [String()], which advances to the next frame
    and returns it, and does not advance once stopped (the spinner stays at
    its last frame).  The result is the glyph and the spinner after the
    call. *)
Definition String `{Presentation} (s : t) : string * t :=
  if stopped s then (frame_at (index s), s)
  else
    let s' := {| index := (S (index s)) mod cycle; stopped := false |} in
    (frame_at (index s'), s').

(** Modelled from the spec: [Stop()], which stops the advancement. *)
Definition Stop (s : t) : t := {| index := index s; stopped := true |}.

End spinner.

(** The spinner objects allocated so far; an [Event] refers to its spinner
    by location, as the Go struct does by pointer. *)
Abbreviation store := (list spinner.t) (only parsing).

Module Event.

(** Modelled from the spec: the [Event] struct, of which a producer fills
    [ID], [Text], [Status] and [StatusText], and the writer the rest. *)
Record t : Type := mk {
  ID : string;
  Text : string;
  Status : EventStatus;
  StatusText : string;
  startTime : time.Time;
  endTime : time.Time;
  spinner : option loc
}.

(** The zero value, which a Go map yields for a missing key. *)
Definition zero : t :=
  {| ID := ""; Text := ""; Status := Working; StatusText := "";
     startTime := time.zero; endTime := time.zero; spinner := None |}.

(** Modelled from the spec: the method [stop] of [Event], which freezes
    [endTime] at the current instant and stops the advancement of the
    spinner; dereferencing a nil spinner panics. *)
Definition stop (now : time.Time) (e : t) (h : store) : option (t * store) :=
  let e' := {| ID := ID e; Text := Text e; Status := Status e;
               StatusText := StatusText e; startTime := startTime e;
               endTime := now; spinner := spinner e |} in
  p ← spinner e;
  s ← h !! p;
  Some (e', <[p := spinner.Stop s]> h).

End Event.

(** ** progress/tty.go *)

(** [w.events[v]]: the stored event, or the zero value for a missing key. *)
Definition index_events (events : gmap string Event.t) (v : string) : Event.t :=
  default Event.zero (events !! v).

Fixpoint contains (ar : list string) (needle : string) : bool :=
  match ar with
  | [] => false
  | v :: ar' => if String.eqb needle v then true else contains ar' needle
  end.

Definition align (l r : string) (w : Z) : string :=
  fmt.Sprintf_minus_star_s (Go.wrap (w - Go.len r - 1)) l +:+ " " +:+ r.

Definition numDone (events : gmap string Event.t) : Z :=
  map_fold (fun _ e i => if bool_decide (Event.Status e = Done) then i + 1 else i)
           0 events.

(** [event.spinner.String()]: the call dereferences the pointer. *)
Definition spinner_String `{Presentation} (p : option loc) (h : store)
  : option (string * store) :=
  l ← p;
  s ← h !! l;
  let '(glyph, s') := spinner.String s in
  Some (glyph, <[l := s']> h).

(** The left part of a line, before the timer: [text] in [lineText]. *)
Definition lineText_text (glyph : string) (event : Event.t) (pad : string)
  : string :=
  " " +:+ glyph +:+ " " +:+ Event.ID event +:+ " " +:+ Event.Text event
      +:+ pad +:+ " " +:+ Event.StatusText event.

Definition lineText `{Presentation} (now : time.Time) (event : Event.t)
    (terminalWidth statusPadding : Z) (h : store) : option (string * store) :=
  let endTime :=
    if bool_decide (Event.Status event <> Working)
    then Event.endTime event else now in
  let elapsed := time.Sub endTime (Event.startTime event) in
  let textLen := Go.len (fmt.Sprintf_s_s (Event.ID event) (Event.Text event)) in
  let padding := Go.wrap (statusPadding - textLen) in
  let padding := if padding <? 0 then 0 else padding in
  '(glyph, h') ← spinner_String (Event.spinner event) h;
  pad ← Go.Repeat " " padding;
  let text := lineText_text glyph event pad in
  let timer := format_f1 elapsed +:+ "s" +:+ Go.nl in
  let o := align text timer terminalWidth in
  let color := aec.WhiteF in
  let color := if bool_decide (Event.Status event = Done) then aec.BlueF else color in
  let color := if bool_decide (Event.Status event = Error) then aec.RedF else color in
  Some (aec.Apply o color, h').

Module ttyWriter.

(** The writer.  [out] is the list of the strings written to the sink, one
    per call of [Fprint] or [Fprintln], in order.  The mutex is not a field
    of the model: [Event] and [print] hold it from entry to exit, so each is
    one atomic step on the state.  The channel [done] appears as the
    stimulus [w_done] of [Start]. *)
Record t : Type := mk {
  out : list string;
  events : gmap string Event.t;
  eventIDs : list string;
  repeated : bool;
  numLines : Z
}.

Definition Event (now : time.Time) (e : Event.t) (h : store) (w : t)
  : option (store * t) :=
  let ids :=
    if negb (contains (eventIDs w) (Event.ID e))
    then eventIDs w ++ [Event.ID e] else eventIDs w in
  match events w !! Event.ID e with
  | Some event =>
      '(event, h') ←
        (if bool_decide (Event.Status event <> Done) &&
            bool_decide (Event.Status e = Done)
         then Event.stop now event h else Some (event, h));
      let event :=
        {| Event.ID := Event.ID event;
           Event.Text := Event.Text e;
           Event.Status := Event.Status e;
           Event.StatusText := Event.StatusText e;
           Event.startTime := Event.startTime event;
           Event.endTime := Event.endTime event;
           Event.spinner := Event.spinner event |} in
      Some (h', {| out := out w;
                   events := <[Event.ID e := event]> (events w);
                   eventIDs := ids;
                   repeated := repeated w;
                   numLines := numLines w |})
  | None =>
      let e :=
        {| Event.ID := Event.ID e;
           Event.Text := Event.Text e;
           Event.Status := Event.Status e;
           Event.StatusText := Event.StatusText e;
           Event.startTime := now;
           Event.endTime := Event.endTime e;
           Event.spinner := Some (length h) |} in
      Some (h ++ [spinner.newSpinner],
            {| out := out w;
               events := <[Event.ID e := e]> (events w);
               eventIDs := ids;
               repeated := repeated w;
               numLines := numLines w |})
  end.

(** The first loop of [print]: the widest [ID + " " + Text].  One turn of
    the loop, then the loop. *)
Definition statusPadding_step (events : gmap string Event.t)
    (statusPadding : Z) (v : string) : Z :=
  let l := Go.len (fmt.Sprintf_s_s (Event.ID (index_events events v))
                                   (Event.Text (index_events events v))) in
  if statusPadding <? l then l else statusPadding.

Definition statusPadding_of (events : gmap string Event.t) (ids : list string)
  : Z :=
  fold_left (statusPadding_step events) ids 0.

(** The second loop of [print]: one line per identifier, in order. *)
Fixpoint print_lines `{Presentation} (now : time.Time)
    (events : gmap string Event.t) (terminalWidth statusPadding : Z)
    (ids : list string) (h : store) : option (list string * store) :=
  match ids with
  | [] => Some ([], h)
  | v :: ids' =>
      '(line, h1) ← lineText now (index_events events v)
                             terminalWidth statusPadding h;
      '(rest, h2) ← print_lines now events terminalWidth statusPadding ids' h1;
      Some (line :: rest, h2)
  end.

(** One repaint, at instant [now] and with [goterm.Width()] returning
    [terminalWidth]. *)
Definition print `{Presentation} (now : time.Time) (terminalWidth : Z)
    (h : store) (w : t) : option (store * t) :=
  if Z.of_nat (length (eventIDs w)) =? 0 then Some (h, w)
  else
    let b := Nat.iter (Z.to_nat (numLines w + 1)) (aec.Up 1) aec.EmptyBuilder in
    let b := if negb (repeated w) then aec.Down 1 b else b in
    let firstLine :=
      "[+] Running " +:+ Go.itoa (numDone (events w)) +:+ "/"
                     +:+ Go.itoa (numLines w) in
    let firstLine :=
      if negb (numLines w =? 0) && (numDone (events w) =? numLines w)
      then aec.Apply firstLine aec.BlueF else firstLine in
    let statusPadding := statusPadding_of (events w) (eventIDs w) in
    '(lines, h') ←
      print_lines now (events w) terminalWidth statusPadding (eventIDs w) h;
    Some (h',
          {| out := out w ++ [aec.Column 0 b; aec.Hide;
                              firstLine +:+ Go.nl]
                          ++ lines ++ [aec.Show];
             events := events w;
             eventIDs := eventIDs w;
             repeated := true;
             numLines := Z.of_nat (length lines) |}).

(** What [Start] can wake up on in its [select]. *)
Inductive stimulus : Type := ctx_Done | w_done | ticker_C.

(** [ctx.Err()] once the context is done. *)
Inductive error : Type := Canceled | DeadlineExceeded.

(** One step of the system while [Start] runs: a producer gets the lock and
    records an event, or the [select] of [Start] receives from one of its
    three channels.  Each step carries the clock reading, a wake-up also the
    terminal width, that the step observes. *)
Inductive step : Type :=
  | Produce (now : time.Time) (e : Event.t)
  | Wake (s : stimulus) (now : time.Time) (terminalWidth : Z).

Inductive outcome : Type :=
  | Blocked (h : store) (w : t)
  | Returned (err : option error) (h : store) (w : t)
  | Panicked.

(** [Start(ctx)] along a schedule; [Blocked] is the loop waiting in its
    [select] with the schedule used up.  [Stop()] sends on [done]: the
    stimulus [w_done] is the loop receiving what it sent. *)
Fixpoint Start `{Presentation} (ctxErr : error) (schedule : list step)
    (h : store) (w : t) : outcome :=
  match schedule with
  | [] => Blocked h w
  | Produce now e :: rest =>
      match Event now e h w with
      | Some (h', w') => Start ctxErr rest h' w'
      | None => Panicked
      end
  | Wake ctx_Done now width :: _ =>
      match print now width h w with
      | Some (h', w') => Returned (Some ctxErr) h' w'
      | None => Panicked
      end
  | Wake w_done now width :: _ =>
      match print now width h w with
      | Some (h', w') => Returned None h' w'
      | None => Panicked
      end
  | Wake ticker_C now width :: rest =>
      match print now width h w with
      | Some (h', w') => Start ctxErr rest h' w'
      | None => Panicked
      end
  end.

(** Modelled from the spec: the writer at its creation (section 3), its
    constructor being outside tty.go: no event is known, no repaint has
    occurred, nothing is written. *)
Definition empty : t :=
  {| out := []; events := ∅; eventIDs := []; repeated := false; numLines := 0 |}.

End ttyWriter.

(** A presentation to run the model on: the braille frames of a spinner, and
    durations rendered in tenths of a second, rounded down. *)
Definition braille : Presentation :=
  {| frame_at := fun i => nth i ["⠋"; "⠙"; "⠹"; "⠸"; "⠼"; "⠴"; "⠦"; "⠧"; "⠇"; "⠏"] "⠿";
     cycle := 10;
     format_f1 := fun d =>
       let tenths := d / 100000000 in
       Go.itoa (tenths / 10) +:+ "." +:+ Go.itoa (tenths mod 10) |}.

(** An incoming event, as a producer builds it. *)
Definition incoming (id text : string) (st : EventStatus) (statusText : string)
  : Event.t :=
  {| Event.ID := id; Event.Text := text; Event.Status := st;
     Event.StatusText := statusText; Event.startTime := time.zero;
     Event.endTime := time.zero; Event.spinner := None |}.

(** A trace of calls on the writer, each with the readings it observes. *)
Inductive call : Type :=
  | Call_Event (now : time.Time) (e : Event.t)
  | Call_print (now : time.Time) (terminalWidth : Z).

Definition do_call `{Presentation} (c : call) (h : store) (w : ttyWriter.t)
  : option (store * ttyWriter.t) :=
  match c with
  | Call_Event now e => ttyWriter.Event now e h w
  | Call_print now width => ttyWriter.print now width h w
  end.

Fixpoint run `{Presentation} (cs : list call) (h : store) (w : ttyWriter.t)
  : option (store * ttyWriter.t) :=
  match cs with
  | [] => Some (h, w)
  | c :: cs' => '(h', w') ← do_call c h w; run cs' h' w'
  end.

(** ** azure/context.go: choosing a subscription *)

Module azure.

(** An [error] value; [terminal.InterruptErr] is the one the code tests
    for. *)
Inductive error : Type := InterruptErr | Err (msg : string).

#[global] Instance error_eq_dec : EqDecision error.
Proof. solve_decision. Defined.

(** The fields of [subscription.Model] that are read: both are pointers to
    strings, [None] being nil. *)
Module Model.
Record t : Type := mk {
  DisplayName : option string;
  SubscriptionID : option string
}.
End Model.

(** What a call does to the outside world, in order. *)
Inductive io : Type :=
  | Printed (line : string)
  | Prompted (message : string) (options : list string).

(** How a call ends: it returns, the process exits, or it panics. *)
Inductive result (A : Type) : Type :=
  | Returns (a : A)
  | Exits (code : Z)
  | Panics.
Arguments Returns {A} a.
Arguments Exits {A} code.
Arguments Panics {A}.

(** A computation: the trace of its effects and how it ends. *)
Definition M (A : Type) : Type := list io * result A.

Definition ret {A} (a : A) : M A := ([], Returns a).

Definition bind {A B} (m : M A) (f : A -> M B) : M B :=
  match m with
  | (tr, Returns a) => let '(tr', r) := f a in (tr ++ tr', r)
  | (tr, Exits code) => (tr, Exits code)
  | (tr, Panics) => (tr, Panics)
  end.

Notation "x <- m ;; k" := (bind m (fun x => k))
  (at level 62, m at next level, right associativity).

Definition Println (line : string) : M unit := ([Printed line], Returns tt).
Definition os_Exit {A} (code : Z) : M A := ([], Exits code).
Definition panic {A} : M A := ([], Panics).

(** [*p] for a pointer [p]. *)
Definition deref {A} (p : option A) : M A :=
  match p with Some a => ret a | None => panic end.

(** [subs[i]] on a slice. *)
Definition index {A} (l : list A) (i : Z) : M A :=
  if i <? 0 then panic else deref (l !! Z.to_nat i).

(** The interface [userSelector]. *)
Class userSelector := {
  userSelect : string -> list string -> Z * option error
}.

(** [helper.selector.userSelect(message, options)], recorded in the trace. *)
Definition selector_userSelect `{userSelector} (message : string)
    (options : list string) : M (Z * option error) :=
  ([Prompted message options], Returns (userSelect message options)).

(** The loop of [chooseSub] that builds the options. *)
Fixpoint chooseSub_options (subs : list Model.t) (options : list string)
  : M (list string) :=
  match subs with
  | [] => ret options
  | sub :: subs' =>
      name <- deref (Model.DisplayName sub) ;;
      id <- deref (Model.SubscriptionID sub) ;;
      chooseSub_options subs' (options ++ [name +:+ "(" +:+ id +:+ ")"])
  end.

Definition chooseSub `{userSelector} (subs : list Model.t)
  : M (string * option error) :=
  if Z.of_nat (length subs) =? 1 then
    sub <- index subs 0 ;;
    name <- deref (Model.DisplayName sub) ;;
    id <- deref (Model.SubscriptionID sub) ;;
    _ <- Println ("Using only available subscription : " +:+ name
                    +:+ "(" +:+ id +:+ ")") ;;
    id' <- deref (Model.SubscriptionID sub) ;;
    ret (id', None)
  else
    options <- chooseSub_options subs [] ;;
    answer <- selector_userSelect "Select a subscription ID" options ;;
    (let '(selected, err) := answer in
     match err with
     | Some e =>
         if bool_decide (e = InterruptErr) then os_Exit 0
         else ret ("", Some e)
     | None =>
         sub <- index subs selected ;;
         id <- deref (Model.SubscriptionID sub) ;;
         ret (id, None)
     end).

(** Whether the selector was consulted. *)
Definition is_prompt (e : io) : bool :=
  match e with Prompted _ _ => true | Printed _ => false end.

Definition prompts {A} (m : M A) : list io := List.filter is_prompt (fst m).

End azure.

(** ** azure/context.go: creating the context data

    The rest of the helper: [createContextData], [chooseGroup] and
    [createGroup].  Besides printing and prompting, these call the Azure
    resource group API through the interface [ACIResourceGroupHelper]; the
    calls are recorded in the trace next to the effects of [azure.io]. *)

Module resources.

(** The fields of [resources.Group] that are read or written: two pointers
    to strings. *)
Record Group : Type := mkGroup {
  Name : option string;
  Location : option string
}.

(** [resources.Group{}]. *)
Definition zero : Group := {| Name := None; Location := None |}.

End resources.

Module AciContext.

(** [store.AciContext]. *)
Record t : Type := mk {
  SubscriptionID : string;
  Location : string;
  ResourceGroup : string
}.

End AciContext.

Module contextCreateACIHelper.

(** An [error] that may have been wrapped by [errors.Wrapf]. *)
Inductive error : Type :=
  | Plain (e : azure.error)
  | WithMessage (msg : string) (cause : error).

(** A call of the resource group API. *)
Inductive api : Type :=
  | Called_GetSubscriptionIDs
  | Called_GetGroup (subscriptionID groupName : string)
  | Called_ListGroups (subscriptionID : string)
  | Called_CreateOrUpdate (subscriptionID gid : string) (g : resources.Group).

Inductive effect : Type :=
  | Io (e : azure.io)
  | Api (c : api).

(** A computation: the trace of its effects and how it ends. *)
Definition M (A : Type) : Type := list effect * azure.result A.

Definition ret {A} (a : A) : M A := ([], azure.Returns a).

Definition bind {A B} (m : M A) (f : A -> M B) : M B :=
  match m with
  | (tr, azure.Returns a) => let '(tr', r) := f a in (tr ++ tr', r)
  | (tr, azure.Exits code) => (tr, azure.Exits code)
  | (tr, azure.Panics) => (tr, azure.Panics)
  end.

Notation "x <- m ;; k" := (bind m (fun x => k))
  (at level 62, m at next level, right associativity).

(** A computation of [azure.M], which only prints and prompts. *)
Definition lift {A} (m : azure.M A) : M A := (map Io (fst m), snd m).

Definition panic {A} : M A := ([], azure.Panics).
Definition os_Exit {A} (code : Z) : M A := ([], azure.Exits code).

(** [*p] for a pointer [p]. *)
Definition deref {A} (p : option A) : M A :=
  match p with Some a => ret a | None => panic end.

(** [l[i]] on a slice. *)
Definition index {A} (l : list A) (i : Z) : M A :=
  if i <? 0 then panic else deref (l !! Z.to_nat i).

(** [opts[key]]: the empty string for a missing key. *)
Definition opt (opts : gmap string string) (key : string) : string :=
  default "" (opts !! key).

(** The interface [ACIResourceGroupHelper]; the context argument is not
    modelled. *)
Class ACIResourceGroupHelper := {
  GetSubscriptionIDs : list azure.Model.t * option azure.error;
  GetGroup : string -> string -> resources.Group * option azure.error;
  ListGroups : string -> list resources.Group * option azure.error;
  CreateOrUpdate :
    string -> string -> resources.Group -> resources.Group * option azure.error
}.

(** What the helper takes from libraries: the identifier [uuid.New()]
    draws, as a string, and the quoting of a string by the verb [%q]. *)
Class Library := {
  uuid_New_String : string;
  quote : string -> string
}.

Section methods.
Context `{azure.userSelector} `{ACIResourceGroupHelper} `{Library}.

Definition call_GetSubscriptionIDs
  : M (list azure.Model.t * option azure.error) :=
  ([Api Called_GetSubscriptionIDs], azure.Returns GetSubscriptionIDs).

Definition call_GetGroup (subscriptionID groupName : string)
  : M (resources.Group * option azure.error) :=
  ([Api (Called_GetGroup subscriptionID groupName)],
   azure.Returns (GetGroup subscriptionID groupName)).

Definition call_ListGroups (subscriptionID : string)
  : M (list resources.Group * option azure.error) :=
  ([Api (Called_ListGroups subscriptionID)],
   azure.Returns (ListGroups subscriptionID)).

Definition call_CreateOrUpdate (subscriptionID gid : string)
    (g : resources.Group) : M (resources.Group * option azure.error) :=
  ([Api (Called_CreateOrUpdate subscriptionID gid g)],
   azure.Returns (CreateOrUpdate subscriptionID gid g)).

(** [fmt.Printf] of a line that ends with a line feed: the line, recorded
    as [Println] records it. *)
Definition Printf_line (line : string) : M unit :=
  ([Io (azure.Printed line)], azure.Returns tt).

Definition createGroup (subscriptionID location : string)
  : M (resources.Group * option error) :=
  let location := if String.eqb location "" then "eastus" else location in
  let gid := uuid_New_String in
  r <- call_CreateOrUpdate subscriptionID gid
         {| resources.Name := None; resources.Location := Some location |} ;;
  (let '(g, err) := r in
   match err with
   | Some e => ret (resources.zero, Some (Plain e))
   | None =>
       name <- deref (resources.Name g) ;;
       loc <- deref (resources.Location g) ;;
       _ <- Printf_line ("Resource group " +:+ quote name +:+ " (" +:+ loc
                           +:+ ") created") ;;
       ret (g, None)
   end).

(** The loop of [chooseGroup] that builds the names. *)
Fixpoint chooseGroup_names (groups : list resources.Group)
    (groupNames : list string) : M (list string) :=
  match groups with
  | [] => ret groupNames
  | g :: groups' =>
      name <- deref (resources.Name g) ;;
      loc <- deref (resources.Location g) ;;
      chooseGroup_names groups'
        (groupNames ++ [name +:+ " (" +:+ loc +:+ ")"])
  end.

Definition chooseGroup (subscriptionID : string) (opts : gmap string string)
    (groups : list resources.Group) : M (resources.Group * option error) :=
  groupNames <- chooseGroup_names groups ["create a new resource group"] ;;
  answer <- lift (azure.selector_userSelect "Select a resource group"
                                            groupNames) ;;
  (let '(group, err) := answer in
   match err with
   | Some e =>
       if bool_decide (e = azure.InterruptErr) then os_Exit 0
       else ret (resources.zero, Some (Plain e))
   | None =>
       if group =? 0 then createGroup subscriptionID (opt opts "aciLocation")
       else
         g <- index groups (Go.wrap (group - 1)) ;;
         ret (g, None)
   end).

(** The end of [createContextData], once the subscription and the group
    are known. *)
Definition createContextData_finish (opts : gmap string string)
    (subscriptionID : string) (group : resources.Group)
  : M (option AciContext.t * string * option error) :=
  let location := opt opts "aciLocation" in
  location <- (if String.eqb location "" then deref (resources.Location group)
               else ret location) ;;
  name <- deref (resources.Name group) ;;
  (let description := name +:+ "@" +:+ location in
   let description :=
     if negb (String.eqb (opt opts "description") "")
     then opt opts "description" +:+ " (" +:+ description +:+ ")"
     else description in
   name' <- deref (resources.Name group) ;;
   ret (Some {| AciContext.SubscriptionID := subscriptionID;
                AciContext.Location := location;
                AciContext.ResourceGroup := name' |},
        description, None)).

(** The middle of [createContextData]: the resource group, once the
    subscription is known. *)
Definition createContextData_group (opts : gmap string string)
    (subscriptionID : string)
  : M (option AciContext.t * string * option error) :=
  if negb (String.eqb (opt opts "aciResourceGroup") "") then
    r <- call_GetGroup subscriptionID (opt opts "aciResourceGroup") ;;
    (let '(group, err) := r in
     match err with
     | Some e =>
         ret (None, "",
              Some (WithMessage ("Could not find resource group "
                                   +:+ quote (opt opts "aciResourceGroup"))
                                (Plain e)))
     | None => createContextData_finish opts subscriptionID group
     end)
  else
    r <- call_ListGroups subscriptionID ;;
    (let '(groups, err) := r in
     match err with
     | Some e => ret (None, "", Some (Plain e))
     | None =>
         r' <- chooseGroup subscriptionID opts groups ;;
         (let '(group, err') := r' in
          match err' with
          | Some e' => ret (None, "", Some e')
          | None => createContextData_finish opts subscriptionID group
          end)
     end).

Definition createContextData (opts : gmap string string)
  : M (option AciContext.t * string * option error) :=
  if negb (String.eqb (opt opts "aciSubscriptionID") "") then
    createContextData_group opts (opt opts "aciSubscriptionID")
  else
    r <- call_GetSubscriptionIDs ;;
    (let '(subs, err) := r in
     match err with
     | Some e => ret (None, "", Some (Plain e))
     | None =>
         r' <- lift (azure.chooseSub subs) ;;
         (let '(subscriptionID, err') := r' in
          match err' with
          | Some e' => ret (None, "", Some (Plain e'))
          | None => createContextData_group opts subscriptionID
          end)
     end).

End methods.

(** The prompts and the API calls of a trace. *)
Definition is_prompt (e : effect) : bool :=
  match e with Io (azure.Prompted _ _) => true | _ => false end.

Definition is_api (e : effect) : bool :=
  match e with Api _ => true | Io _ => false end.

Definition prompts (tr : list effect) : list effect := List.filter is_prompt tr.
Definition api_calls (tr : list effect) : list effect := List.filter is_api tr.

End contextCreateACIHelper.

(** * Definitions of the specification

    What the statements below are written with: the parts of the state,
    of a line and of a frame as the specification names them, the
    invariant of the writer, and traces of calls. *)

(** Whether an update freezes the stored event: the guard of [Event]. *)
Definition freezes (stored e : Event.t) : bool :=
  bool_decide (Event.Status stored <> Done) && bool_decide (Event.Status e = Done).

(** The stored event after an update by [e] at instant [now], written after
    the specification: [Status], [Text] and [StatusText] come from [e], the
    rest stays, but for [endTime] when the update freezes the event. *)
Definition updated (now : time.Time) (stored e : Event.t) : Event.t :=
  {| Event.ID := Event.ID stored;
     Event.Text := Event.Text e;
     Event.Status := Event.Status e;
     Event.StatusText := Event.StatusText e;
     Event.startTime := Event.startTime stored;
     Event.endTime := if freezes stored e then now else Event.endTime stored;
     Event.spinner := Event.spinner stored |}.

(** The stored event after the first observation of [e]. *)
Definition observed (now : time.Time) (p : loc) (e : Event.t) : Event.t :=
  {| Event.ID := Event.ID e;
     Event.Text := Event.Text e;
     Event.Status := Event.Status e;
     Event.StatusText := Event.StatusText e;
     Event.startTime := now;
     Event.endTime := Event.endTime e;
     Event.spinner := Some p |}.

(** The list of identifiers after [id] was recorded. *)
Definition seen (ids : list string) (id : string) : list string :=
  if contains ids id then ids else ids ++ [id].

#[global] Arguments freezes : simpl never.
#[global] Arguments updated : simpl never.
#[global] Arguments observed : simpl never.
#[global] Arguments seen : simpl never.

(** What holds of the store and the writer in every state reached from the
    empty writer: the list of identifiers has no duplicate and lists the keys
    of the map; an event is stored under its own identifier, with a spinner
    of its own that is allocated; nothing was painted while nothing was
    known. *)
Record wf (h : store) (w : ttyWriter.t) : Prop := Wf {
  wf_nodup : NoDup (ttyWriter.eventIDs w);
  wf_dom : forall id,
    id ∈ ttyWriter.eventIDs w <-> is_Some (ttyWriter.events w !! id);
  wf_key : forall id e,
    ttyWriter.events w !! id = Some e -> Event.ID e = id;
  wf_spinner : forall id e,
    ttyWriter.events w !! id = Some e ->
    exists l, Event.spinner e = Some l /\ (l < length h)%nat;
  wf_inj : forall id1 id2 e1 e2,
    ttyWriter.events w !! id1 = Some e1 ->
    ttyWriter.events w !! id2 = Some e2 ->
    Event.spinner e1 = Event.spinner e2 -> id1 = id2;
  wf_lines : ttyWriter.eventIDs w = [] -> ttyWriter.numLines w = 0
}.

(** The width of an event in the left column: [len(ID) + 1 + len(Text)]. *)
Definition width (e : Event.t) : Z :=
  Go.len (Event.ID e) + 1 + Go.len (Event.Text e).

(** The number of spaces that bring [ID + " " + Text] to the shared padding
    width. *)
Definition padding_of (statusPadding : Z) (e : Event.t) : nat :=
  Z.to_nat (Z.max 0 (Go.wrap (statusPadding - width e))).

(** The elapsed time of a line: up to [now] while the event is working, up
    to its [endTime] otherwise. *)
Definition timer_of `{Presentation} (now : time.Time) (e : Event.t) : string :=
  format_f1 (time.Sub (match Event.Status e with
                       | Working => now
                       | _ => Event.endTime e
                       end) (Event.startTime e)) +:+ "s" +:+ Go.nl.

Definition color_of (st : EventStatus) : string :=
  match st with
  | Working => aec.WhiteF
  | Done => aec.BlueF
  | Error => aec.RedF
  end.

(** The line of [e] when its spinner shows [glyph]. *)
Definition line_of `{Presentation} (now : time.Time) (e : Event.t)
    (terminalWidth statusPadding : Z) (glyph : string) : string :=
  aec.Apply
    (align (lineText_text glyph e
              (Go.replicate_string (padding_of statusPadding e) " "))
           (timer_of now e) terminalWidth)
    (color_of (Event.Status e)).

(** The strings one repaint writes: the cursor movement, the hiding of the
    cursor, the header line, the event lines and, deferred to the exit, the
    showing of the cursor. *)
Definition frame_of (cursor header : string) (lines : list string)
  : list string :=
  [cursor; aec.Hide; header +:+ Go.nl] ++ lines ++ [aec.Show].

Definition cursor_of (w : ttyWriter.t) : string :=
  let b := Nat.iter (Z.to_nat (ttyWriter.numLines w + 1)) (aec.Up 1)
                    aec.EmptyBuilder in
  aec.Column 0 (if negb (ttyWriter.repeated w) then aec.Down 1 b else b).

(** The header as the specification words it (section 4.3, step 4). *)
Definition header_text (doneCount totalCount : Z) : string :=
  "[+] Running " +:+ Go.itoa doneCount +:+ "/" +:+ Go.itoa totalCount.

Definition header_of (doneCount totalCount : Z) : string :=
  if (doneCount =? totalCount) && negb (totalCount =? 0)
  then aec.Apply (header_text doneCount totalCount) aec.BlueF
  else header_text doneCount totalCount.

(** [line] is the line of the event stored under [id], rendered at the
    store [h]. *)
Definition renders `{Presentation} (now : time.Time) (W P : Z) (h : store)
    (events : gmap string Event.t) (id line : string) : Prop :=
  exists e l s,
    events !! id = Some e /\ Event.spinner e = Some l /\ h !! l = Some s /\
    line = line_of now e W P (spinner.String s).1.

(** The identifiers a trace records, in the order of the calls. *)
Definition recorded (cs : list call) : list string :=
  omap (fun c => match c with
                 | Call_Event _ e => Some (Event.ID e)
                 | Call_print _ _ => None
                 end) cs.

(** The first-seen order of a sequence of identifiers, as the specification
    words it: each identifier once, at the place of its first occurrence. *)
Fixpoint first_seen (ids : list string) : list string :=
  match ids with
  | [] => []
  | id :: ids' => id :: filter (fun x => x <> id) (first_seen ids')
  end.

(** The stored events whose status is [Done]. *)
Definition done_events (events : gmap string Event.t) : gmap string Event.t :=
  filter (fun kv => Event.Status kv.2 = Done) events.

(** A trace of record calls only. *)
Definition records (es : list (time.Time * Event.t)) : list call :=
  map (fun p => Call_Event p.1 p.2) es.

(** A record call whose [ID + " " + Text] is a Go string: its length is an
    [int]. *)
Definition fits (c : call) : Prop :=
  match c with
  | Call_Event _ e => width e <= Go.int_max
  | Call_print _ _ => True
  end.

Definition bounded (w : ttyWriter.t) : Prop :=
  forall id e, ttyWriter.events w !! id = Some e -> width e <= Go.int_max.

(** The schedule in which every call of a trace happens while [Start] runs:
    a repaint is a tick of the ticker. *)
Definition schedule_of (cs : list call) : list ttyWriter.step :=
  map (fun c => match c with
                | Call_Event now e => ttyWriter.Produce now e
                | Call_print now W => ttyWriter.Wake ttyWriter.ticker_C now W
                end) cs.

(** The option shown for a subscription. *)
Definition option_of (name id : string) : string := name +:+ "(" +:+ id +:+ ")".

(** A subscription whose two fields are set. *)
Definition named (sub : azure.Model.t) : Prop :=
  is_Some (azure.Model.DisplayName sub) /\
  is_Some (azure.Model.SubscriptionID sub).

(** The state a trace leads to from the empty writer, with the braille
    presentation. *)
Definition after (cs : list call) : store * ttyWriter.t :=
  default ([], ttyWriter.empty) (@run braille cs [] ttyWriter.empty).

(** A selector that always answers with the first option. *)
Definition first_option : azure.userSelector :=
  {| azure.userSelect := fun _ _ => (0, None) |}.

(** The traces of the scenario of the specification (section 8): an event
    is recorded as working and a tick passes; it is then recorded as done and
    two ticks pass. *)
Definition second : Z := 1000000000.

Definition scenario_start : list call :=
  [Call_Event (5 * second) (incoming "svc1" "starting" Working "");
   Call_print (6 * second) 40].

Definition scenario_done : list call :=
  scenario_start
  ++ [Call_Event (7 * second) (incoming "svc1" "starting" Done "done");
      Call_print (8 * second) 40;
      Call_print (9 * second) 40].

(** Closed comparisons of numbers, by evaluation. *)
Ltac by_evaluation :=
  vm_compute; repeat split; first [reflexivity | discriminate].

(** ** Definitions for the ACI context helper *)

(** The option [chooseSub] shows for a subscription. *)
Definition sub_label (sub : azure.Model.t) : string :=
  default "" (azure.Model.DisplayName sub) +:+ "("
    +:+ default "" (azure.Model.SubscriptionID sub) +:+ ")".

(** A resource group whose name and location are set. *)
Definition named_group (g : resources.Group) : Prop :=
  is_Some (resources.Name g) /\ is_Some (resources.Location g).

(** The option [chooseGroup] shows for a resource group. *)
Definition group_label (g : resources.Group) : string :=
  default "" (resources.Name g) +:+ " ("
    +:+ default "" (resources.Location g) +:+ ")".

(** The options of the prompt of [chooseGroup]. *)
Definition group_options (groups : list resources.Group) : list string :=
  "create a new resource group" :: map group_label groups.

(** The description of a context, as [createContextData] builds it. *)
Definition description_of (opts : gmap string string) (name location : string)
  : string :=
  if String.eqb (contextCreateACIHelper.opt opts "description") ""
  then name +:+ "@" +:+ location
  else contextCreateACIHelper.opt opts "description"
         +:+ " (" +:+ (name +:+ "@" +:+ location) +:+ ")".

(** How [createContextData] comes to its subscription, and with what
    effects: it takes the one of the options, with no effect; or, the
    options giving none, it lists the subscriptions of the account and
    [chooseSub] returns one of them. *)
Inductive subscription_known `{azure.userSelector}
    `{contextCreateACIHelper.ACIResourceGroupHelper}
    (opts : gmap string string)
  : list contextCreateACIHelper.effect -> string -> Prop :=
  | known_from_options :
      contextCreateACIHelper.opt opts "aciSubscriptionID" <> "" ->
      subscription_known opts []
        (contextCreateACIHelper.opt opts "aciSubscriptionID")
  | known_from_account (subs : list azure.Model.t) (tr : list azure.io)
      (subscriptionID : string) :
      contextCreateACIHelper.opt opts "aciSubscriptionID" = "" ->
      contextCreateACIHelper.GetSubscriptionIDs = (subs, None) ->
      azure.chooseSub subs = (tr, azure.Returns (subscriptionID, None)) ->
      subscription_known opts
        (contextCreateACIHelper.Api
           contextCreateACIHelper.Called_GetSubscriptionIDs
           :: map contextCreateACIHelper.Io tr)
        subscriptionID.

(** The location [createGroup] asks for. *)
Definition location_or_eastus (location : string) : string :=
  if String.eqb location "" then "eastus" else location.

(** What [createContextData] may do once the subscription is known: call
    the API for this subscription, prompt for a resource group, print. *)
Definition uses_subscription (subscriptionID : string)
    (e : contextCreateACIHelper.effect) : Prop :=
  match e with
  | contextCreateACIHelper.Io (azure.Prompted message _) =>
      message = "Select a resource group"
  | contextCreateACIHelper.Io (azure.Printed _) => True
  | contextCreateACIHelper.Api contextCreateACIHelper.Called_GetSubscriptionIDs =>
      False
  | contextCreateACIHelper.Api (contextCreateACIHelper.Called_GetGroup s _) =>
      s = subscriptionID
  | contextCreateACIHelper.Api (contextCreateACIHelper.Called_ListGroups s) =>
      s = subscriptionID
  | contextCreateACIHelper.Api (contextCreateACIHelper.Called_CreateOrUpdate s _ _) =>
      s = subscriptionID
  end.

(** ** Definitions for the further properties of the writer *)

(** The last event a trace records under [id]. *)
Fixpoint last_recorded (id : string) (cs : list call) : option Event.t :=
  match cs with
  | [] => None
  | c :: cs' =>
      match last_recorded id cs' with
      | Some e => Some e
      | None =>
          match c with
          | Call_Event _ e => if String.eqb (Event.ID e) id then Some e else None
          | Call_print _ _ => None
          end
      end
  end.

(** The instant at which a trace first records [id]. *)
Fixpoint first_recorded_at (id : string) (cs : list call) : option time.Time :=
  match cs with
  | [] => None
  | Call_Event now e :: cs' =>
      if String.eqb (Event.ID e) id then Some now else first_recorded_at id cs'
  | Call_print _ _ :: cs' => first_recorded_at id cs'
  end.

(** The record calls of a trace, its repaints left out. *)
Definition without_repaints (cs : list call) : list call :=
  List.filter (fun c => match c with
                        | Call_Event _ _ => true
                        | Call_print _ _ => false
                        end) cs.

(** The number of repaints of a trace that happen while an event is known,
    [known] telling whether one is known at the start. *)
Fixpoint painted (known : bool) (cs : list call) : nat :=
  match cs with
  | [] => O
  | Call_Event _ _ :: cs' => painted true cs'
  | Call_print _ _ :: cs' =>
      if known then S (painted true cs') else painted false cs'
  end.

(** The number of lines of each frame a trace writes, from the identifiers
    known before it: a repaint made with an event known writes one line for
    each identifier known then. *)
Fixpoint lines_painted (ids : list string) (cs : list call) : list nat :=
  match cs with
  | [] => []
  | Call_Event _ e :: cs' => lines_painted (seen ids (Event.ID e)) cs'
  | Call_print _ _ :: cs' =>
      match ids with
      | [] => lines_painted ids cs'
      | _ :: _ => length ids :: lines_painted ids cs'
      end
  end.

(** A frame: what one repaint writes. *)
Record frame : Type := mkFrame {
  frame_cursor : string;
  frame_header : string;
  frame_lines : list string
}.

Definition frame_strings (f : frame) : list string :=
  frame_of (frame_cursor f) (frame_header f) (frame_lines f).

Definition frames_strings (fs : list frame) : list string :=
  concat (map frame_strings fs).

(** The cursor movement that opens a frame: up over the header and the
    lines of the previous frame and to the first column; before the first
    frame, one line up, one line down and to the first column. *)
Definition cursor_after (previous : option nat) : string :=
  match previous with
  | None => aec.Column 0 (aec.Down 1 (aec.Up 1 aec.EmptyBuilder))
  | Some n => aec.Column 0 (Nat.iter (S n) (aec.Up 1) aec.EmptyBuilder)
  end.

(** Each frame of a sequence opens with the movement over the one before
    it. *)
Fixpoint chained (previous : option nat) (fs : list frame) : Prop :=
  match fs with
  | [] => True
  | f :: fs' =>
      frame_cursor f = cursor_after previous /\
      chained (Some (length (frame_lines f))) fs'
  end.

(** The writer remembers the previous frame: whether there was one, and
    the number of its lines. *)
Definition tracks (previous : option nat) (w : ttyWriter.t) : Prop :=
  match previous with
  | None => ttyWriter.repeated w = false /\ ttyWriter.numLines w = 0
  | Some n => ttyWriter.repeated w = true /\ ttyWriter.numLines w = Z.of_nat n
  end.

(** A string of ASCII characters only. *)
Definition ascii_only (s : string) : Prop :=
  Forall (fun c => (c < 128)%N) (Go.bytes s).


(** ** An account to run the helper on *)

(** A selector that gives a fixed answer. *)
Definition answering (i : Z) (err : option azure.error) : azure.userSelector :=
  {| azure.userSelect := fun _ _ => (i, err) |}.

Definition sub_one : azure.Model.t :=
  {| azure.Model.DisplayName := Some "Pay-As-You-Go";
     azure.Model.SubscriptionID := Some "sub-1" |}.

Definition sub_two : azure.Model.t :=
  {| azure.Model.DisplayName := Some "Enterprise";
     azure.Model.SubscriptionID := Some "sub-2" |}.

Definition group_one : resources.Group :=
  {| resources.Name := Some "rg1"; resources.Location := Some "westeurope" |}.

Definition group_two : resources.Group :=
  {| resources.Name := Some "rg2"; resources.Location := Some "eastus2" |}.

(** An account with two subscriptions and two resource groups, on which
    only the group [rg1] can be looked up by name, and where a created group
    is named after the identifier it was asked under. *)
Definition account : contextCreateACIHelper.ACIResourceGroupHelper :=
  {| contextCreateACIHelper.GetSubscriptionIDs := ([sub_one; sub_two], None);
     contextCreateACIHelper.GetGroup := fun _ name =>
       if String.eqb name "rg1" then (group_one, None)
       else (resources.zero, Some (azure.Err "not found"));
     contextCreateACIHelper.ListGroups := fun _ => ([group_one; group_two], None);
     contextCreateACIHelper.CreateOrUpdate := fun _ gid g =>
       ({| resources.Name := Some gid;
           resources.Location := resources.Location g |}, None) |}.

(** An account with one subscription. *)
Definition small_account : contextCreateACIHelper.ACIResourceGroupHelper :=
  {| contextCreateACIHelper.GetSubscriptionIDs := ([sub_one], None);
     contextCreateACIHelper.GetGroup := contextCreateACIHelper.GetGroup (ACIResourceGroupHelper := account);
     contextCreateACIHelper.ListGroups := contextCreateACIHelper.ListGroups (ACIResourceGroupHelper := account);
     contextCreateACIHelper.CreateOrUpdate := contextCreateACIHelper.CreateOrUpdate (ACIResourceGroupHelper := account) |}.

(** A fixed identifier, and the quoting of a string without special
    characters: the string between double quotes. *)
Definition library : contextCreateACIHelper.Library :=
  {| contextCreateACIHelper.uuid_New_String := "6ba7b810-9dad-11d1-80b4-00c04fd430c8";
     contextCreateACIHelper.quote := fun s =>
       String (ascii_of_nat 34) s +:+ String (ascii_of_nat 34) "" |}.

(** Options that name the subscription and the resource group. *)
Definition full_options : gmap string string :=
  <["aciSubscriptionID" := "sub-9"]>
    (<["aciResourceGroup" := "rg1"]> (<["description" := "demo"]> ∅)).

(** Options that name a resource group that cannot be found. *)
Definition lost_options : gmap string string :=
  <["aciSubscriptionID" := "sub-9"]> (<["aciResourceGroup" := "rg7"]> ∅).

(** Options that name the resource group only. *)
Definition group_options_only : gmap string string :=
  <["aciResourceGroup" := "rg1"]> ∅.

(** Options that name only a resource group, one that cannot be found. *)
Definition lost_group_only : gmap string string :=
  <["aciResourceGroup" := "rg7"]> ∅.

(** An account on which resource groups can be neither listed nor
    created. *)
Definition closed_account : contextCreateACIHelper.ACIResourceGroupHelper :=
  {| contextCreateACIHelper.GetSubscriptionIDs := ([sub_one; sub_two], None);
     contextCreateACIHelper.GetGroup := fun _ _ =>
       (resources.zero, Some (azure.Err "not found"));
     contextCreateACIHelper.ListGroups := fun _ =>
       ([], Some (azure.Err "forbidden"));
     contextCreateACIHelper.CreateOrUpdate := fun _ _ _ =>
       (resources.zero, Some (azure.Err "forbidden")) |}.


(** * Properties *)

(** ** Strings, padding and [align] *)

Section strings.

Lemma string_app_cons (c : ascii) (a b : string) :
  String c a +:+ b = String c (a +:+ b).
Proof. reflexivity. Qed.

Lemma string_app_nil_r (a : string) : a +:+ "" = a.
Proof.
  induction a as [|c a IH]; [reflexivity|].
  rewrite string_app_cons, IH. reflexivity.
Qed.

Lemma string_app_assoc (a b c : string) : (a +:+ b) +:+ c = a +:+ (b +:+ c).
Proof.
  induction a as [|x a IH]; [reflexivity|].
  rewrite !string_app_cons, IH. reflexivity.
Qed.

Lemma string_length_app (a b : string) :
  String.length (a +:+ b) = (String.length a + String.length b)%nat.
Proof.
  induction a as [|c a IH]; [reflexivity|].
  rewrite string_app_cons. simpl. rewrite IH. reflexivity.
Qed.

Lemma len_app (a b : string) : Go.len (a +:+ b) = Go.len a + Go.len b.
Proof. unfold Go.len. rewrite string_length_app. lia. Qed.

Lemma count_fuel_ascii (s : string) :
  ascii_only s ->
  utf8.count_fuel (String.length s) (Go.bytes s) = String.length s.
Proof.
  unfold ascii_only. induction s as [|c s IH]; intros Hall; [reflexivity|].
  simpl in Hall. apply Forall_cons in Hall as [Hc Hall].
  cbn [String.length Go.bytes utf8.count_fuel]. f_equal.
  unfold utf8.advance, utf8.RuneSelf.
  destruct (N.ltb_spec (N_of_ascii c) 128) as [_|Hge]; [|lia].
  simpl. apply IH. exact Hall.
Qed.

Lemma RuneCountInString_ascii (s : string) :
  ascii_only s -> utf8.RuneCountInString s = Go.len s.
Proof.
  intros Hs. unfold utf8.RuneCountInString, Go.len.
  rewrite (count_fuel_ascii s Hs). reflexivity.
Qed.

Lemma bytes_app (a b : string) : Go.bytes (a +:+ b) = Go.bytes a ++ Go.bytes b.
Proof.
  induction a as [|c a IH]; [reflexivity|].
  rewrite string_app_cons. simpl. rewrite IH. reflexivity.
Qed.

Lemma ascii_only_app (a b : string) :
  ascii_only a -> ascii_only b -> ascii_only (a +:+ b).
Proof.
  unfold ascii_only. intros Ha Hb. rewrite bytes_app.
  apply Forall_app. split; assumption.
Qed.

Lemma ascii_only_replicate_space (n : nat) :
  ascii_only (Go.replicate_string n " ").
Proof.
  induction n as [|n IH]; [constructor|].
  cbn [Go.replicate_string]. apply ascii_only_app; [|exact IH].
  repeat constructor.
Qed.

Lemma len_nonneg (a : string) : 0 <= Go.len a.
Proof. unfold Go.len. lia. Qed.

Lemma len_replicate_space (n : nat) :
  Go.len (Go.replicate_string n " ") = Z.of_nat n.
Proof.
  induction n as [|n IH]; [reflexivity|].
  cbn [Go.replicate_string]. rewrite len_app, IH. unfold Go.len. simpl. lia.
Qed.

Lemma len_Sprintf_s_s (a b : string) :
  Go.len (fmt.Sprintf_s_s a b) = Go.len a + 1 + Go.len b.
Proof.
  unfold fmt.Sprintf_s_s. rewrite !len_app. unfold Go.len at 2. simpl. lia.
Qed.

Lemma wrap_id (z : Z) : Go.is_int z -> Go.wrap z = z.
Proof.
  unfold Go.is_int, Go.int_min, Go.int_max, Go.wrap. intros Hz.
  rewrite Z.mod_small; lia.
Qed.

Lemma wrap_is_int (z : Z) : Go.is_int (Go.wrap z).
Proof.
  unfold Go.is_int, Go.int_min, Go.int_max, Go.wrap.
  pose proof (Z.mod_pos_bound (z + 2 ^ 63) (2 ^ 64)). lia.
Qed.

(** A repeat count that was clamped at zero is accepted by
    [strings.Repeat]. *)
Lemma Repeat_space_clamped (padding : Z) :
  Go.is_int padding ->
  Go.Repeat " " (if padding <? 0 then 0 else padding)
  = Some (Go.replicate_string (Z.to_nat (Z.max 0 padding)) " ").
Proof.
  intros [_ Hmax]. unfold Go.Repeat.
  destruct (Z.ltb_spec padding 0) as [Hneg|Hpos].
  - simpl. replace (Z.max 0 padding) with 0 by lia. reflexivity.
  - destruct (Z.eqb_spec padding 0) as [->|Hnz]; [reflexivity|].
    destruct (Z.ltb_spec padding 0); [lia|].
    replace (Go.len " ") with 1 by reflexivity.
    destruct (Z.ltb_spec Go.int_max (1 * padding)); [lia|].
    replace (Z.max 0 padding) with padding by lia. reflexivity.
Qed.

(** What [align] yields whenever the width operand is accepted by [fmt]:
    [l], padded with spaces to the absolute value of [w - len(r) - 1] code
    points, one space, [r]. *)
Lemma align_accepted (l r : string) (w : Z) :
  -1000000 <= w - Go.len r - 1 <= 1000000 ->
  align l r w
  = (l +:+ fmt.writePadding (Z.abs (w - Go.len r - 1)
                             - utf8.RuneCountInString l))
      +:+ " " +:+ r.
Proof.
  intros Hn. unfold align.
  rewrite wrap_id by (unfold Go.is_int, Go.int_min, Go.int_max; lia).
  set (n := w - Go.len r - 1) in *.
  unfold fmt.Sprintf_minus_star_s, fmt.tooLarge.
  destruct (Z.ltb_spec 1000000 n); [lia|].
  destruct (Z.ltb_spec n (-1000000)); [lia|]. simpl.
  assert (Hrc : 0 <= utf8.RuneCountInString l)
    by (unfold utf8.RuneCountInString; lia).
  unfold fmt.padString_minus.
  destruct (Z.ltb_spec n 0).
  - destruct (Z.eqb_spec (- n) 0); [lia|].
    replace (Z.abs n) with (- n) by lia. reflexivity.
  - replace (Z.abs n) with n by lia.
    destruct (Z.eqb_spec n 0) as [->|]; [|reflexivity].
    unfold fmt.writePadding.
    replace (Z.to_nat (0 - utf8.RuneCountInString l)) with O by lia.
    simpl. rewrite string_app_nil_r. reflexivity.
Qed.

End strings.

(** ** The event store: [ttyWriter.Event] *)

Section ingestion.

Lemma contains_elem_of (ar : list string) (needle : string) :
  contains ar needle = true <-> needle ∈ ar.
Proof.
  induction ar as [|v ar IH]; simpl.
  - split; [discriminate|]. intros H. inversion H.
  - destruct (String.eqb_spec needle v) as [->|Hne].
    + split; [intros _; left|reflexivity].
    + rewrite IH. split; [intros H; right; exact H|].
      intros H. inversion H; subst; [congruence|assumption].
Qed.

Lemma contains_false (ar : list string) (needle : string) :
  contains ar needle = false <-> needle ∉ ar.
Proof.
  rewrite <- contains_elem_of. destruct (contains ar needle); split; congruence.
Qed.

Lemma Event_seen (now : time.Time) (e stored : Event.t) (h : store)
    (w : ttyWriter.t) (l : loc) (s : spinner.t) :
  ttyWriter.events w !! Event.ID e = Some stored ->
  Event.spinner stored = Some l ->
  h !! l = Some s ->
  ttyWriter.Event now e h w
  = Some (if freezes stored e then <[l := spinner.Stop s]> h else h,
          {| ttyWriter.out := ttyWriter.out w;
             ttyWriter.events :=
               <[Event.ID e := updated now stored e]> (ttyWriter.events w);
             ttyWriter.eventIDs := seen (ttyWriter.eventIDs w) (Event.ID e);
             ttyWriter.repeated := ttyWriter.repeated w;
             ttyWriter.numLines := ttyWriter.numLines w |}).
Proof.
  intros Hst Hsp Hl. unfold ttyWriter.Event, updated, seen, freezes.
  rewrite Hst.
  destruct (contains (ttyWriter.eventIDs w) (Event.ID e)); simpl;
    (destruct (bool_decide (Event.Status stored <> Done)
               && bool_decide (Event.Status e = Done)); simpl;
     [unfold Event.stop; rewrite Hsp; simpl; rewrite Hl; simpl; reflexivity
     |reflexivity]).
Qed.

Lemma Event_unseen (now : time.Time) (e : Event.t) (h : store)
    (w : ttyWriter.t) :
  ttyWriter.events w !! Event.ID e = None ->
  ttyWriter.Event now e h w
  = Some (h ++ [spinner.newSpinner],
          {| ttyWriter.out := ttyWriter.out w;
             ttyWriter.events :=
               <[Event.ID e := observed now (length h) e]> (ttyWriter.events w);
             ttyWriter.eventIDs := seen (ttyWriter.eventIDs w) (Event.ID e);
             ttyWriter.repeated := ttyWriter.repeated w;
             ttyWriter.numLines := ttyWriter.numLines w |}).
Proof.
  intros Hst. unfold ttyWriter.Event, observed, seen. rewrite Hst.
  destruct (contains (ttyWriter.eventIDs w) (Event.ID e)); reflexivity.
Qed.

End ingestion.

(** ** The invariant of the writer *)

Section invariant.

Lemma wf_empty : wf [] ttyWriter.empty.
Proof.
  split; simpl.
  - constructor.
  - intros id. rewrite lookup_empty. split.
    + intros H. inversion H.
    + intros [x Hx]. discriminate.
  - intros id e. rewrite lookup_empty. discriminate.
  - intros id e. rewrite lookup_empty. discriminate.
  - intros id1 id2 e1 e2. rewrite lookup_empty. discriminate.
  - reflexivity.
Qed.

Lemma seen_known (ids : list string) (id : string) :
  id ∈ ids -> seen ids id = ids.
Proof. intros H. unfold seen. apply contains_elem_of in H. rewrite H. reflexivity. Qed.

Lemma seen_new (ids : list string) (id : string) :
  id ∉ ids -> seen ids id = ids ++ [id].
Proof. intros H. unfold seen. apply contains_false in H. rewrite H. reflexivity. Qed.

(** [Event] never fails on a well-formed writer, and keeps it well-formed. *)
Lemma wf_Event (now : time.Time) (e : Event.t) (h : store) (w : ttyWriter.t) :
  wf h w ->
  exists h' w',
    ttyWriter.Event now e h w = Some (h', w') /\ wf h' w' /\
    ttyWriter.eventIDs w' = seen (ttyWriter.eventIDs w) (Event.ID e) /\
    ttyWriter.numLines w' = ttyWriter.numLines w /\
    ttyWriter.out w' = ttyWriter.out w /\
    ttyWriter.repeated w' = ttyWriter.repeated w.
Proof.
  intros [Hnd Hdom Hkey Hsp Hinj Hlines].
  destruct (ttyWriter.events w !! Event.ID e) as [stored|] eqn:Hst.
  - destruct (Hsp _ _ Hst) as (l & Hl & Hlt).
    destruct (lookup_lt_is_Some_2 h l Hlt) as [s Hs].
    rewrite (Event_seen now e stored h w l s Hst Hl Hs).
    assert (Hin : Event.ID e ∈ ttyWriter.eventIDs w) by (apply Hdom; eauto).
    eexists _, _. split; [reflexivity|]. simpl.
    rewrite (seen_known _ _ Hin).
    split; [|repeat split; reflexivity].
    assert (Hlen : length (if freezes stored e
                           then <[l:=spinner.Stop s]> h else h) = length h).
    { destruct (freezes stored e); [apply length_insert|reflexivity]. }
    split; simpl.
    + exact Hnd.
    + intros id. rewrite Hdom.
      destruct (decide (Event.ID e = id)) as [<-|Hne].
      * rewrite lookup_insert_eq, Hst. split; eauto.
      * rewrite lookup_insert_ne by exact Hne. reflexivity.
    + intros id e0.
      destruct (decide (Event.ID e = id)) as [<-|Hne].
      * rewrite lookup_insert_eq. intros [= <-]. simpl. eauto.
      * rewrite lookup_insert_ne by exact Hne. eauto.
    + intros id e0. setoid_rewrite Hlen.
      destruct (decide (Event.ID e = id)) as [<-|Hne].
      * rewrite lookup_insert_eq. intros [= <-]. simpl. eauto.
      * rewrite lookup_insert_ne by exact Hne. eauto.
    + intros id1 id2 e1 e2.
      destruct (decide (Event.ID e = id1)) as [<-|Hne1];
        destruct (decide (Event.ID e = id2)) as [<-|Hne2];
        rewrite ?lookup_insert_eq, ?lookup_insert_ne by assumption.
      * reflexivity.
      * intros [= <-] H2. simpl. intros Heq. eapply Hinj; eauto.
      * intros H1 [= <-]. simpl. intros Heq. eapply Hinj; eauto.
      * eauto.
    + exact Hlines.
  - rewrite (Event_unseen now e h w Hst).
    assert (Hnin : Event.ID e ∉ ttyWriter.eventIDs w).
    { rewrite Hdom, Hst. intros [x Hx]. discriminate. }
    eexists _, _. split; [reflexivity|]. simpl.
    rewrite (seen_new _ _ Hnin).
    split; [|repeat split; reflexivity].
    split; simpl.
    + apply NoDup_app. split; [exact Hnd|]. split.
      * intros x Hx Hx'. apply list_elem_of_singleton in Hx'. subst. auto.
      * apply NoDup_singleton.
    + intros id. rewrite elem_of_app, list_elem_of_singleton, Hdom.
      destruct (decide (Event.ID e = id)) as [<-|Hne].
      * rewrite lookup_insert_eq. split; eauto.
      * rewrite lookup_insert_ne by exact Hne. split; [|auto].
        intros [H|H]; [exact H|congruence].
    + intros id e0.
      destruct (decide (Event.ID e = id)) as [<-|Hne].
      * rewrite lookup_insert_eq. intros [= <-]. reflexivity.
      * rewrite lookup_insert_ne by exact Hne. eauto.
    + intros id e0. setoid_rewrite length_app. simpl.
      destruct (decide (Event.ID e = id)) as [<-|Hne].
      * rewrite lookup_insert_eq. intros [= <-]. simpl.
        eexists. split; [reflexivity|lia].
      * rewrite lookup_insert_ne by exact Hne. intros H0.
        destruct (Hsp _ _ H0) as (l & Hl & Hlt). exists l. split; [exact Hl|lia].
    + intros id1 id2 e1 e2.
      destruct (decide (Event.ID e = id1)) as [<-|Hne1];
        destruct (decide (Event.ID e = id2)) as [<-|Hne2];
        rewrite ?lookup_insert_eq, ?lookup_insert_ne by assumption.
      * reflexivity.
      * intros [= <-] H2. simpl. intros Heq.
        destruct (Hsp _ _ H2) as (l & Hl & Hlt). rewrite Hl in Heq.
        injection Heq as Heq. lia.
      * intros H1 [= <-]. simpl. intros Heq.
        destruct (Hsp _ _ H1) as (l & Hl & Hlt). rewrite Hl in Heq.
        injection Heq as Heq. lia.
      * eauto.
    + intros Hnil. destruct (ttyWriter.eventIDs w); discriminate.
Qed.

End invariant.

(** ** One line: [lineText] *)

(** The parts of a line, written after the specification (section 4.4). *)

Section line.
Context `{Presentation}.

Lemma lineText_spec (now : time.Time) (e : Event.t) (W P : Z) (h : store)
    (l : loc) (s : spinner.t) :
  Event.spinner e = Some l ->
  h !! l = Some s ->
  lineText now e W P h
  = Some (line_of now e W P (spinner.String s).1,
          <[l := (spinner.String s).2]> h).
Proof.
  intros Hl Hs. unfold lineText, spinner_String. rewrite Hl. simpl.
  rewrite Hs. simpl. destruct (spinner.String s) as [glyph s'] eqn:Hg. simpl.
  rewrite len_Sprintf_s_s.
  rewrite (Repeat_space_clamped _ (wrap_is_int _)). simpl.
  unfold line_of, timer_of, color_of, padding_of, width.
  destruct (Event.Status e); reflexivity.
Qed.

(** Without an allocated spinner the call panics, whatever the padding. *)
Lemma lineText_nil (now : time.Time) (e : Event.t) (W P : Z) (h : store) :
  Event.spinner e = None -> lineText now e W P h = None.
Proof. intros Hl. unfold lineText, spinner_String. rewrite Hl. reflexivity. Qed.

End line.

(** ** One repaint: [ttyWriter.print] *)

Section repaint.
Context `{Presentation}.

Lemma print_lines_agree (now : time.Time) (events : gmap string Event.t)
    (W P : Z) (h0 : store) (ids : list string) :
  forall h : store,
  NoDup ids ->
  length h = length h0 ->
  (forall id, id ∈ ids ->
     exists e l, events !! id = Some e /\ Event.spinner e = Some l /\
                 (l < length h0)%nat /\ h !! l = h0 !! l) ->
  (forall id1 id2 e1 e2,
     events !! id1 = Some e1 -> events !! id2 = Some e2 ->
     Event.spinner e1 = Event.spinner e2 -> id1 = id2) ->
  exists lines h',
    ttyWriter.print_lines now events W P ids h = Some (lines, h') /\
    length h' = length h0 /\
    Forall2 (renders now W P h0 events) ids lines.
Proof.
  induction ids as [|v ids IH]; intros h Hnd Hlen Hids Hinj.
  - exists [], h. repeat split; [assumption|constructor].
  - apply NoDup_cons in Hnd as [Hv Hnd].
    destruct (Hids v) as (e & l & He & Hl & Hlt & Hagree); [left|].
    destruct (lookup_lt_is_Some_2 h0 l Hlt) as [s Hs].
    assert (Hs' : h !! l = Some s) by (rewrite Hagree; exact Hs).
    cbn [ttyWriter.print_lines]. unfold index_events at 1. rewrite He. simpl.
    rewrite (lineText_spec now e W P h l s Hl Hs'). simpl.
    destruct (IH (<[l:=(spinner.String s).2]> h)) as (lines & h' & Hp & Hlen' & Hall).
    + exact Hnd.
    + rewrite length_insert. exact Hlen.
    + intros id Hid.
      destruct (Hids id) as (e' & l' & He' & Hl' & Hlt' & Hagree'); [right; exact Hid|].
      exists e', l'. repeat split; try assumption.
      rewrite list_lookup_insert_ne; [exact Hagree'|].
      intros ->. apply Hv.
      replace v with id; [exact Hid|].
      eapply Hinj; [exact He'|exact He|congruence].
    + exact Hinj.
    + rewrite Hp. simpl. eexists _, _. split; [reflexivity|].
      split; [exact Hlen'|]. constructor; [|exact Hall].
      exists e, l, s. repeat split; assumption.
Qed.

(** On a well-formed writer the second loop of [print] never panics and
    writes the line of each known event, in the order of [eventIDs]. *)
Lemma print_lines_wf (now : time.Time) (W P : Z) (h : store) (w : ttyWriter.t) :
  wf h w ->
  exists lines h',
    ttyWriter.print_lines now (ttyWriter.events w) W P (ttyWriter.eventIDs w) h
    = Some (lines, h') /\
    length h' = length h /\
    Forall2 (renders now W P h (ttyWriter.events w)) (ttyWriter.eventIDs w) lines.
Proof.
  intros [Hnd Hdom Hkey Hsp Hinj Hlines].
  apply print_lines_agree; try assumption; try reflexivity.
  intros id Hid. apply Hdom in Hid as [e He].
  destruct (Hsp _ _ He) as (l & Hl & Hlt). exists e, l. auto.
Qed.

Lemma print_unknown (now : time.Time) (W : Z) (h : store) (w : ttyWriter.t) :
  ttyWriter.eventIDs w = [] -> ttyWriter.print now W h w = Some (h, w).
Proof. intros Hnil. unfold ttyWriter.print. rewrite Hnil. reflexivity. Qed.

Lemma print_known (now : time.Time) (W : Z) (h h' : store) (w : ttyWriter.t)
    (lines : list string) :
  ttyWriter.eventIDs w <> [] ->
  ttyWriter.print_lines now (ttyWriter.events w) W
    (ttyWriter.statusPadding_of (ttyWriter.events w) (ttyWriter.eventIDs w))
    (ttyWriter.eventIDs w) h = Some (lines, h') ->
  ttyWriter.print now W h w
  = Some (h',
          {| ttyWriter.out :=
               ttyWriter.out w
               ++ frame_of (cursor_of w)
                    (header_of (numDone (ttyWriter.events w))
                               (ttyWriter.numLines w)) lines;
             ttyWriter.events := ttyWriter.events w;
             ttyWriter.eventIDs := ttyWriter.eventIDs w;
             ttyWriter.repeated := true;
             ttyWriter.numLines := Z.of_nat (length lines) |}).
Proof.
  intros Hne Hp. unfold ttyWriter.print.
  destruct (ttyWriter.eventIDs w) as [|v ids] eqn:Hids; [congruence|].
  cbn [length]. destruct (Z.eqb_spec (Z.of_nat (S (length ids))) 0); [lia|].
  rewrite Hp. simpl. unfold frame_of, cursor_of, header_of, header_text.
  rewrite (andb_comm (numDone (ttyWriter.events w) =? ttyWriter.numLines w)).
  reflexivity.
Qed.

End repaint.

(** ** Traces of calls *)

Section traces.
Context `{Presentation}.

(** A repaint never fails on a well-formed writer and keeps it well-formed;
    it leaves the events and their order alone and writes one frame, whose
    lines are those of the known events in the order of [eventIDs]. *)
Lemma wf_print (now : time.Time) (W : Z) (h : store) (w : ttyWriter.t) :
  wf h w ->
  exists h' w' lines,
    ttyWriter.print now W h w = Some (h', w') /\ wf h' w' /\
    ttyWriter.events w' = ttyWriter.events w /\
    ttyWriter.eventIDs w' = ttyWriter.eventIDs w /\
    ttyWriter.numLines w' = Z.of_nat (length lines) /\
    Forall2 (renders now W
               (ttyWriter.statusPadding_of (ttyWriter.events w)
                                           (ttyWriter.eventIDs w))
               h (ttyWriter.events w))
            (ttyWriter.eventIDs w) lines /\
    (ttyWriter.eventIDs w = [] -> h' = h /\ w' = w) /\
    (ttyWriter.eventIDs w <> [] ->
     ttyWriter.out w'
     = ttyWriter.out w
       ++ frame_of (cursor_of w)
            (header_of (numDone (ttyWriter.events w)) (ttyWriter.numLines w))
            lines).
Proof.
  intros Hwf.
  destruct (print_lines_wf now W
              (ttyWriter.statusPadding_of (ttyWriter.events w)
                                          (ttyWriter.eventIDs w)) h w Hwf)
    as (lines & h' & Hp & Hlen & Hall).
  destruct (ttyWriter.eventIDs w) as [|v ids] eqn:Hids.
  - rewrite (print_unknown now W h w Hids).
    inversion Hall; subst. exists h, w, [].
    split; [reflexivity|]. split; [exact Hwf|]. split; [reflexivity|].
    split; [exact Hids|]. split; [apply (wf_lines h w Hwf Hids)|].
    split; [constructor|]. split; [auto|congruence].
  - assert (Hne : ttyWriter.eventIDs w <> []) by (rewrite Hids; discriminate).
    rewrite <- Hids in Hp.
    rewrite (print_known now W h h' w lines Hne Hp).
    eexists _, _, lines. split; [reflexivity|]. simpl.
    split.
    { destruct Hwf as [Hnd Hdom Hkey Hsp Hinj Hlines].
      split; simpl; try assumption.
      - intros id0 e He. setoid_rewrite Hlen. eauto.
      - intros Hnil. congruence. }
    rewrite Hids in Hp.
    split; [reflexivity|]. split; [exact Hids|]. split; [reflexivity|].
    split; [exact Hall|]. split; [discriminate|]. intros _. reflexivity.
Qed.

Lemma wf_do_call (c : call) (h : store) (w : ttyWriter.t) :
  wf h w ->
  exists h' w', do_call c h w = Some (h', w') /\ wf h' w'.
Proof.
  intros Hwf. destruct c as [now e|now W]; simpl.
  - destruct (wf_Event now e h w Hwf) as (h' & w' & He & Hwf' & _). eauto.
  - destruct (wf_print now W h w Hwf) as (h' & w' & lines & Hp & Hwf' & _). eauto.
Qed.

(** Every trace runs to its end from a well-formed writer. *)
Lemma wf_run (cs : list call) :
  forall (h : store) (w : ttyWriter.t),
  wf h w ->
  exists h' w', run cs h w = Some (h', w') /\ wf h' w'.
Proof.
  induction cs as [|c cs IH]; intros h w Hwf.
  - exists h, w. split; [reflexivity|exact Hwf].
  - destruct (wf_do_call c h w Hwf) as (h1 & w1 & Hc & Hwf1).
    destruct (IH h1 w1 Hwf1) as (h' & w' & Hr & Hwf').
    exists h', w'. split; [|exact Hwf']. simpl. rewrite Hc. exact Hr.
Qed.

Lemma run_app (cs1 cs2 : list call) (h : store) (w : ttyWriter.t) :
  run (cs1 ++ cs2) h w
  = match run cs1 h w with
    | Some (h', w') => run cs2 h' w'
    | None => None
    end.
Proof.
  revert h w. induction cs1 as [|c cs1 IH]; intros h w; [reflexivity|].
  simpl. destruct (do_call c h w) as [[h1 w1]|]; [apply IH|reflexivity].
Qed.

(** The list of identifiers after a trace: each recorded identifier was
    added unless present. *)
Lemma run_eventIDs (cs : list call) :
  forall (h h' : store) (w w' : ttyWriter.t),
  wf h w ->
  run cs h w = Some (h', w') ->
  ttyWriter.eventIDs w' = fold_left seen (recorded cs) (ttyWriter.eventIDs w).
Proof.
  induction cs as [|c cs IH]; intros h h' w w' Hwf Hr.
  - injection Hr as <- <-. reflexivity.
  - simpl in Hr. destruct c as [now e|now W].
    + destruct (wf_Event now e h w Hwf) as (h1 & w1 & He & Hwf1 & Hids & _).
      simpl in Hr. rewrite He in Hr. simpl in Hr.
      rewrite (IH _ _ _ _ Hwf1 Hr), Hids. reflexivity.
    + destruct (wf_print now W h w Hwf)
        as (h1 & w1 & lines & Hp & Hwf1 & _ & Hids & _).
      simpl in Hr. rewrite Hp in Hr. simpl in Hr.
      rewrite (IH _ _ _ _ Hwf1 Hr), Hids. reflexivity.
Qed.

Lemma filter_first_seen_absent (acc : list string) (id : string) (l : list string) :
  id ∈ acc ->
  filter (fun x => x ∉ acc) (filter (fun x => x <> id) l)
  = filter (fun x => x ∉ acc) l.
Proof.
  intros Hin. induction l as [|y l IH]; [reflexivity|].
  rewrite !filter_cons.
  destruct (decide (y <> id)) as [Hne|Heq].
  - rewrite filter_cons. destruct (decide (y ∉ acc)); [f_equal|]; exact IH.
  - assert (y = id) by (destruct (decide (y = id)); [assumption|contradiction]).
    subst y. destruct (decide (id ∉ acc)); [contradiction|exact IH].
Qed.

Lemma filter_snoc_absent (acc : list string) (id : string) (l : list string) :
  filter (fun x => x ∉ acc ++ [id]) l
  = filter (fun x => x ∉ acc) (filter (fun x => x <> id) l).
Proof.
  induction l as [|y l IH]; [reflexivity|].
  rewrite !filter_cons.
  destruct (decide (y <> id)) as [Hne|Heq].
  - rewrite filter_cons.
    destruct (decide (y ∉ acc)) as [Hy|Hy].
    + destruct (decide (y ∉ acc ++ [id])) as [Hy'|Hy'].
      * f_equal. exact IH.
      * exfalso. apply Hy'. rewrite elem_of_app, list_elem_of_singleton. tauto.
    + destruct (decide (y ∉ acc ++ [id])) as [Hy'|Hy']; [|exact IH].
      exfalso. apply Hy. intros Hin. apply Hy'.
      rewrite elem_of_app. left. exact Hin.
  - destruct (decide (y ∉ acc ++ [id])) as [Hy'|Hy']; [|exact IH].
    exfalso. apply Hy'. rewrite elem_of_app, list_elem_of_singleton.
    right. destruct (decide (y = id)); [assumption|contradiction].
Qed.

(** The loop of [Event] computes the first-seen order. *)
Lemma fold_seen_first_seen (ids : list string) :
  forall acc : list string,
  fold_left seen ids acc = acc ++ filter (fun x => x ∉ acc) (first_seen ids).
Proof.
  induction ids as [|id ids IH]; intros acc; simpl.
  - rewrite app_nil_r. reflexivity.
  - rewrite IH, filter_cons.
    destruct (decide (id ∈ acc)) as [Hin|Hnin].
    + rewrite (seen_known _ _ Hin).
      destruct (decide (id ∉ acc)); [contradiction|].
      rewrite (filter_first_seen_absent acc id _ Hin). reflexivity.
    + rewrite (seen_new _ _ Hnin).
      destruct (decide (id ∉ acc)); [|contradiction].
      rewrite <- app_assoc. simpl. rewrite filter_snoc_absent. reflexivity.
Qed.

End traces.

(** ** The header of a repaint *)

Section header.
Context `{Presentation}.

(** The loop of [numDone] counts the stored events that are [Done]. *)
Lemma numDone_count (events : gmap string Event.t) :
  numDone events = Z.of_nat (size (done_events events)).
Proof.
  unfold numDone, done_events.
  apply (map_fold_weak_ind
           (fun r m => r = Z.of_nat (size (filter (fun kv : string * Event.t =>
                                             Event.Status kv.2 = Done) m)))).
  - rewrite map_filter_empty, map_size_empty. reflexivity.
  - intros i x m r Hi ->.
    rewrite map_filter_insert. destruct (decide (Event.Status (i, x).2 = Done)) as [Hd|Hd];
      simpl in Hd.
    + rewrite bool_decide_true by exact Hd.
      rewrite map_size_insert_None; [lia|].
      apply map_lookup_filter_None. left. exact Hi.
    + rewrite bool_decide_false by exact Hd.
      rewrite delete_id by exact Hi. reflexivity.
Qed.

Lemma Apply_changes (s color : string) : aec.Apply s color <> s.
Proof.
  intros Heq. apply (f_equal Go.len) in Heq. unfold aec.Apply in Heq.
  rewrite !len_app in Heq. pose proof (len_nonneg color).
  assert (Go.len aec.Reset = 4) by reflexivity. lia.
Qed.

(** The header is in the complete-state colour exactly when every line of
    the previous repaint has its event done, and there was one. *)
Lemma header_of_blue (doneCount totalCount : Z) :
  header_of doneCount totalCount
  = aec.Apply (header_text doneCount totalCount) aec.BlueF
  <-> doneCount = totalCount /\ totalCount <> 0.
Proof.
  unfold header_of.
  destruct (Z.eqb_spec doneCount totalCount) as [Heq|Hne];
    destruct (Z.eqb_spec totalCount 0) as [Hz|Hnz]; simpl.
  - split; [intros Hc; symmetry in Hc; destruct (Apply_changes _ _ Hc)|tauto].
  - tauto.
  - split; [intros Hc; symmetry in Hc; destruct (Apply_changes _ _ Hc)|tauto].
  - split; [intros Hc; symmetry in Hc; destruct (Apply_changes _ _ Hc)|tauto].
Qed.

(** Record calls never fail on a well-formed writer, and touch neither the
    output nor the line count of the last repaint. *)
Lemma run_records (es : list (time.Time * Event.t)) :
  forall (h : store) (w : ttyWriter.t),
  wf h w ->
  exists h' w',
    run (records es) h w = Some (h', w') /\ wf h' w' /\
    ttyWriter.numLines w' = ttyWriter.numLines w /\
    ttyWriter.out w' = ttyWriter.out w.
Proof.
  induction es as [|[now e] es IH]; intros h w Hwf.
  - exists h, w. repeat split; try reflexivity; apply Hwf.
  - destruct (wf_Event now e h w Hwf)
      as (h1 & w1 & He & Hwf1 & _ & Hn1 & Ho1 & _).
    destruct (IH h1 w1 Hwf1) as (h' & w' & Hr & Hwf' & Hn & Ho).
    exists h', w'. simpl. rewrite He. simpl.
    split; [exact Hr|]. split; [exact Hwf'|]. split; congruence.
Qed.

End header.

(** ** The order of the lines *)

Section ordering.
Context `{Presentation}.

Lemma filter_absent_nil (l : list string) :
  filter (fun x => x ∉ @nil string) l = l.
Proof.
  induction l as [|y l IH]; [reflexivity|].
  rewrite filter_cons. destruct (decide (y ∉ [])) as [_|Hy].
  - f_equal. exact IH.
  - exfalso. apply Hy. intros Hin. inversion Hin.
Qed.

Lemma elem_of_first_seen (ids : list string) (x : string) :
  x ∈ first_seen ids <-> x ∈ ids.
Proof.
  induction ids as [|id ids IH]; simpl; [reflexivity|].
  rewrite !elem_of_cons, list_elem_of_filter, IH.
  destruct (decide (x = id)); tauto.
Qed.

(** C2.  Whatever the sequence of calls, the store holds one event per
    identifier, under that identifier; the list of identifiers holds each
    recorded identifier exactly once, in first-seen order; and a repaint
    never fails and writes one line per identifier, the line of the event
    stored under it, in that order. *)
Theorem lines_in_first_seen_order (cs : list call) :
  exists (h : store) (w : ttyWriter.t),
    run cs [] ttyWriter.empty = Some (h, w) /\
    ttyWriter.eventIDs w = first_seen (recorded cs) /\
    NoDup (ttyWriter.eventIDs w) /\
    (forall id, id ∈ ttyWriter.eventIDs w <-> id ∈ recorded cs) /\
    (forall id, id ∈ ttyWriter.eventIDs w
                <-> is_Some (ttyWriter.events w !! id)) /\
    (forall id e, ttyWriter.events w !! id = Some e -> Event.ID e = id) /\
    forall (now : time.Time) (W : Z),
    exists (h' : store) (w' : ttyWriter.t) (lines : list string),
      ttyWriter.print now W h w = Some (h', w') /\
      (ttyWriter.eventIDs w <> [] ->
       exists cursor header,
         ttyWriter.out w' = ttyWriter.out w ++ frame_of cursor header lines) /\
      Forall2 (renders now W
                 (ttyWriter.statusPadding_of (ttyWriter.events w)
                                             (ttyWriter.eventIDs w))
                 h (ttyWriter.events w))
              (first_seen (recorded cs)) lines.
Proof.
  destruct (wf_run cs [] ttyWriter.empty wf_empty) as (h & w & Hr & Hwf).
  exists h, w. split; [exact Hr|].
  assert (Hids : ttyWriter.eventIDs w = first_seen (recorded cs)).
  { rewrite (run_eventIDs cs _ _ _ _ wf_empty Hr). simpl.
    rewrite fold_seen_first_seen. simpl. apply filter_absent_nil. }
  split; [exact Hids|]. split; [apply Hwf|].
  split; [intros id; rewrite Hids; apply elem_of_first_seen|].
  split; [apply Hwf|]. split; [apply Hwf|].
  intros now W.
  destruct (wf_print now W h w Hwf)
    as (h' & w' & lines & Hp & _ & _ & _ & _ & Hall & _ & Hout).
  exists h', w', lines. split; [exact Hp|]. split.
  - intros Hne. eexists _, _. apply Hout. exact Hne.
  - rewrite <- Hids. exact Hall.
Qed.

End ordering.

(** ** The header counts *)

Section counts.
Context `{Presentation}.

(** C3.  Take any state the writer reaches, a repaint in it (which writes
    the lines [lines0], none when no event is known yet), and any record
    calls after it.  The next repaint, if an event is known, writes the
    header ["[+] Running <doneCount>/<totalCount>"] where [doneCount] is the
    number of stored events that are [Done] and [totalCount] the number of
    lines of the previous repaint; the header is in the complete-state colour
    exactly when the two are equal and not zero. *)
Theorem header_counts_done_over_previous_lines (cs : list call) :
  exists (h0 : store) (w0 : ttyWriter.t),
    run cs [] ttyWriter.empty = Some (h0, w0) /\
    forall (now0 : time.Time) (W0 : Z),
    exists (h1 : store) (w1 : ttyWriter.t) (lines0 : list string),
      ttyWriter.print now0 W0 h0 w0 = Some (h1, w1) /\
      (ttyWriter.eventIDs w0 = [] ->
       lines0 = [] /\ ttyWriter.out w1 = ttyWriter.out w0) /\
      (ttyWriter.eventIDs w0 <> [] ->
       exists cursor0 header0,
         ttyWriter.out w1
         = ttyWriter.out w0 ++ frame_of cursor0 header0 lines0) /\
      forall es : list (time.Time * Event.t),
      exists (h : store) (w : ttyWriter.t),
        run (records es) h1 w1 = Some (h, w) /\
        forall (now : time.Time) (W : Z),
        ttyWriter.eventIDs w <> [] ->
        exists (h' : store) (w' : ttyWriter.t) (cursor : string)
               (lines : list string),
          let doneCount := Z.of_nat (size (done_events (ttyWriter.events w))) in
          let totalCount := Z.of_nat (length lines0) in
          ttyWriter.print now W h w = Some (h', w') /\
          ttyWriter.out w'
          = ttyWriter.out w
            ++ frame_of cursor (header_of doneCount totalCount) lines /\
          (header_of doneCount totalCount
           = aec.Apply (header_text doneCount totalCount) aec.BlueF
           <-> doneCount = totalCount /\ totalCount <> 0).
Proof.
  destruct (wf_run cs [] ttyWriter.empty wf_empty) as (h0 & w0 & Hr & Hwf0).
  exists h0, w0. split; [exact Hr|]. intros now0 W0.
  destruct (wf_print now0 W0 h0 w0 Hwf0)
    as (h1 & w1 & lines0 & Hp & Hwf1 & _ & _ & Hn1 & Hall & Hnil & Hout).
  exists h1, w1, lines0. split; [exact Hp|]. split.
  { intros Hk. destruct (Hnil Hk) as [-> ->]. split; [|reflexivity].
    rewrite Hk in Hall. inversion Hall. reflexivity. }
  split.
  { intros Hk. eexists _, _. apply Hout. exact Hk. }
  intros es.
  destruct (run_records es h1 w1 Hwf1) as (h & w & Hrun & Hwf & Hn & _).
  exists h, w. split; [exact Hrun|]. intros now W Hk.
  destruct (wf_print now W h w Hwf)
    as (h' & w' & lines & Hp' & _ & _ & _ & _ & _ & _ & Hout').
  exists h', w', (cursor_of w), lines. simpl.
  split; [exact Hp'|]. split.
  - rewrite (Hout' Hk), numDone_count, Hn, Hn1. reflexivity.
  - apply header_of_blue.
Qed.

End counts.

(** ** The shared padding width *)

Section padding.
Context `{Presentation}.

Lemma width_pos (e : Event.t) : 1 <= width e.
Proof.
  unfold width. pose proof (len_nonneg (Event.ID e)).
  pose proof (len_nonneg (Event.Text e)). lia.
Qed.

Lemma statusPadding_fold (events : gmap string Event.t) (ids : list string) :
  forall acc : Z,
  let P := fold_left (ttyWriter.statusPadding_step events) ids acc in
  acc <= P /\
  (forall v, v ∈ ids -> width (index_events events v) <= P) /\
  (P = acc \/ exists v, v ∈ ids /\ width (index_events events v) = P).
Proof.
  induction ids as [|v ids IH]; intros acc; cbn [fold_left].
  - split; [lia|]. split; [|left; reflexivity].
    intros v Hv. inversion Hv.
  - set (acc' := ttyWriter.statusPadding_step events acc v).
    destruct (IH acc') as (Hle & Hall & Hex).
    assert (Hacc : acc <= acc' /\ width (index_events events v) <= acc'
                   /\ (acc' = acc \/ acc' = width (index_events events v))).
    { unfold acc', ttyWriter.statusPadding_step. cbv zeta.
      rewrite len_Sprintf_s_s. fold (width (index_events events v)).
      destruct (Z.ltb_spec acc (width (index_events events v))); lia. }
    destruct Hacc as (Ha1 & Ha2 & Ha3).
    split; [lia|]. split.
    + intros x Hx. apply elem_of_cons in Hx as [->|Hx]; [lia|auto].
    + destruct Hex as [Hex|(x & Hx & Hw)].
      * destruct Ha3 as [Ha3|Ha3].
        -- left. lia.
        -- right. exists v. split; [left|lia].
      * right. exists x. split; [right; exact Hx|exact Hw].
Qed.

(** The first loop of [print] computes the maximum of the widths of the
    known events. *)
Lemma statusPadding_of_max (h : store) (w : ttyWriter.t) :
  wf h w ->
  let P := ttyWriter.statusPadding_of (ttyWriter.events w) (ttyWriter.eventIDs w) in
  (forall id e, ttyWriter.events w !! id = Some e -> width e <= P) /\
  (ttyWriter.eventIDs w <> [] ->
   exists id e, ttyWriter.events w !! id = Some e /\ width e = P).
Proof.
  intros Hwf P.
  destruct (statusPadding_fold (ttyWriter.events w) (ttyWriter.eventIDs w) 0)
    as (Hle & Hall & Hex).
  fold (ttyWriter.statusPadding_of (ttyWriter.events w) (ttyWriter.eventIDs w))
    in Hle, Hall, Hex. fold P in Hle, Hall, Hex.
  split.
  - intros id e He.
    assert (Hin : id ∈ ttyWriter.eventIDs w) by (apply (wf_dom h w Hwf); eauto).
    specialize (Hall id Hin). unfold index_events in Hall. rewrite He in Hall.
    exact Hall.
  - intros Hne.
    destruct (ttyWriter.eventIDs w) as [|v ids] eqn:Hids; [congruence|].
    assert (Hv : v ∈ ttyWriter.eventIDs w) by (rewrite Hids; left).
    destruct (proj1 (wf_dom h w Hwf v) Hv) as [ev Hev].
    destruct Hex as [Hz|(x & Hx & Hw)].
    + exfalso. assert (Hvv : v ∈ v :: ids) by left.
      specialize (Hall v Hvv).
      unfold index_events in Hall. rewrite Hev in Hall. simpl in Hall.
      pose proof (width_pos ev). lia.
    + rewrite <- Hids in Hx.
      destruct (proj1 (wf_dom h w Hwf x) Hx) as [ex Hex'].
      exists x, ex. split; [exact Hex'|].
      unfold index_events in Hw. rewrite Hex' in Hw. exact Hw.
Qed.

Lemma bounded_empty : bounded ttyWriter.empty.
Proof. intros id e. simpl. rewrite lookup_empty. discriminate. Qed.

Lemma bounded_Event (now : time.Time) (e : Event.t) (h h' : store)
    (w w' : ttyWriter.t) :
  wf h w -> bounded w -> width e <= Go.int_max ->
  ttyWriter.Event now e h w = Some (h', w') ->
  bounded w'.
Proof.
  intros Hwf Hb Hfit Hev.
  destruct (ttyWriter.events w !! Event.ID e) as [stored|] eqn:Hst.
  - destruct (wf_spinner h w Hwf _ _ Hst) as (l & Hl & Hlt).
    destruct (lookup_lt_is_Some_2 h l Hlt) as [s Hs].
    rewrite (Event_seen now e stored h w l s Hst Hl Hs) in Hev.
    injection Hev as <- <-. intros id e0. simpl.
    destruct (decide (Event.ID e = id)) as [<-|Hne].
    + rewrite lookup_insert_eq. intros [= <-].
      unfold width, updated. simpl.
      rewrite (wf_key h w Hwf _ _ Hst). exact Hfit.
    + rewrite lookup_insert_ne by exact Hne. apply Hb.
  - rewrite (Event_unseen now e h w Hst) in Hev.
    injection Hev as <- <-. intros id e0. simpl.
    destruct (decide (Event.ID e = id)) as [<-|Hne].
    + rewrite lookup_insert_eq. intros [= <-]. exact Hfit.
    + rewrite lookup_insert_ne by exact Hne. apply Hb.
Qed.

Lemma run_bounded (cs : list call) :
  forall (h h' : store) (w w' : ttyWriter.t),
  wf h w -> bounded w -> Forall fits cs ->
  run cs h w = Some (h', w') ->
  bounded w'.
Proof.
  induction cs as [|c cs IH]; intros h h' w w' Hwf Hb Hfits Hr.
  - injection Hr as <- <-. exact Hb.
  - apply Forall_cons in Hfits as [Hfit Hfits]. simpl in Hr.
    destruct c as [now e|now W]; simpl in Hr.
    + destruct (wf_Event now e h w Hwf) as (h1 & w1 & He & Hwf1 & _).
      rewrite He in Hr. simpl in Hr.
      apply (IH _ _ _ _ Hwf1 (bounded_Event _ _ _ _ _ _ Hwf Hb Hfit He) Hfits Hr).
    + destruct (wf_print now W h w Hwf)
        as (h1 & w1 & lines & Hp & Hwf1 & Hev & _).
      rewrite Hp in Hr. simpl in Hr.
      apply (IH h1 h' w1 w' Hwf1); [|exact Hfits|exact Hr].
      intros id e. rewrite Hev. apply Hb.
Qed.

(** The spaces of a line bring [ID + " " + Text] to the padding width when
    the event is no wider than it. *)
Lemma padding_of_fills (P : Z) (e : Event.t) :
  width e <= P -> P <= Go.int_max ->
  padding_of P e = Z.to_nat (P - width e) /\
  Go.len (Event.ID e +:+ " " +:+ Event.Text e
            +:+ Go.replicate_string (padding_of P e) " ") = P.
Proof.
  intros Hle Hmax. pose proof (width_pos e) as Hpos.
  assert (Hp : padding_of P e = Z.to_nat (P - width e)).
  { unfold padding_of.
    rewrite wrap_id by (unfold Go.is_int, Go.int_min, Go.int_max in *; lia).
    f_equal. lia. }
  split; [exact Hp|].
  rewrite !len_app, len_replicate_space, Hp. unfold width in *.
  replace (Go.len " ") with 1 by reflexivity. lia.
Qed.

End padding.

Section alignment.
Context `{Presentation}.

(** C6, as the code has it.  On every repaint the shared padding width [P]
    is the maximum over the known events of [len(ID) + 1 + len(Text)], the
    lengths being counted in bytes, and the line of each event is laid out
    from a left part in which [ID + " " + Text] is followed by the spaces
    that bring it to [P] bytes, the glyph of the spinner standing before it
    and not counted, and then by a space and [StatusText].  So [StatusText]
    begins the same number of bytes after the identifier in every line, and
    the same number of columns after it, [P + 1] code points, in the line of
    every event whose [ID] and [Text] are ASCII. *)
Theorem status_text_aligned_in_bytes (cs : list call) :
  Forall fits cs ->
  exists (h : store) (w : ttyWriter.t),
    run cs [] ttyWriter.empty = Some (h, w) /\
    let P := ttyWriter.statusPadding_of (ttyWriter.events w)
                                        (ttyWriter.eventIDs w) in
    (forall id e, ttyWriter.events w !! id = Some e -> width e <= P) /\
    (ttyWriter.eventIDs w <> [] ->
     exists id e, ttyWriter.events w !! id = Some e /\ width e = P) /\
    forall (now : time.Time) (W : Z),
    exists (h' : store) (w' : ttyWriter.t) (lines : list string),
      ttyWriter.print now W h w = Some (h', w') /\
      (ttyWriter.eventIDs w <> [] ->
       exists cursor header,
         ttyWriter.out w' = ttyWriter.out w ++ frame_of cursor header lines) /\
      Forall2
        (fun id line =>
           exists (e : Event.t) (glyph pad : string),
             ttyWriter.events w !! id = Some e /\
             pad = Go.replicate_string (Z.to_nat (P - width e)) " " /\
             Go.len (Event.ID e +:+ " " +:+ Event.Text e +:+ pad) = P /\
             (ascii_only (Event.ID e) -> ascii_only (Event.Text e) ->
              utf8.RuneCountInString
                (Event.ID e +:+ " " +:+ Event.Text e +:+ pad +:+ " ")
              = P + 1) /\
             line = aec.Apply
                      (align (" " +:+ glyph +:+ " " +:+ Event.ID e +:+ " "
                                  +:+ Event.Text e +:+ pad +:+ " "
                                  +:+ Event.StatusText e)
                             (timer_of now e) W)
                      (color_of (Event.Status e)))
        (ttyWriter.eventIDs w) lines.
Proof.
  intros Hfits.
  destruct (wf_run cs [] ttyWriter.empty wf_empty) as (h & w & Hr & Hwf).
  pose proof (run_bounded cs _ _ _ _ wf_empty bounded_empty Hfits Hr) as Hb.
  exists h, w. split; [exact Hr|].
  destruct (statusPadding_of_max h w Hwf) as [Hmax Hatt].
  cbv zeta. split; [exact Hmax|]. split; [exact Hatt|].
  intros now W.
  destruct (wf_print now W h w Hwf)
    as (h' & w' & lines & Hp & _ & _ & _ & _ & Hall & _ & Hout).
  exists h', w', lines. split; [exact Hp|]. split.
  - intros Hne. eexists _, _. apply Hout. exact Hne.
  - eapply Forall2_impl; [exact Hall|].
    intros id line (e & l & s & He & Hl & Hs & ->).
    assert (Hne : ttyWriter.eventIDs w <> []).
    { intros Hnil. assert (Hin : id ∈ ttyWriter.eventIDs w)
        by (apply (wf_dom h w Hwf); eauto).
      rewrite Hnil in Hin. inversion Hin. }
    destruct (Hatt Hne) as (id' & e' & He' & Hw').
    destruct (padding_of_fills
                (ttyWriter.statusPadding_of (ttyWriter.events w)
                                            (ttyWriter.eventIDs w)) e)
      as [Hpad Hlen].
    + apply (Hmax id e He).
    + rewrite <- Hw'. apply (Hb id' e' He').
    + exists e, (spinner.String s).1,
        (Go.replicate_string
           (padding_of (ttyWriter.statusPadding_of (ttyWriter.events w)
                                                   (ttyWriter.eventIDs w)) e) " ").
      split; [exact He|]. split; [rewrite Hpad; reflexivity|].
      split; [exact Hlen|]. split; [|reflexivity].
      intros Hid Htext.
      rewrite RuneCountInString_ascii.
      * rewrite !len_app in Hlen. rewrite !len_app.
        replace (Go.len " ") with 1 in Hlen |- * by reflexivity. lia.
      * repeat apply ascii_only_app; try assumption;
          try apply ascii_only_replicate_space; repeat constructor.
Qed.

End alignment.

(** ** [lineText] and its padding argument *)

Section total.
Context `{Presentation}.

(** C9.  For an event whose spinner is allocated and every value of
    [statusPadding], also one below [len(ID) + 1 + len(Text)], [lineText]
    returns a line: the count of padding spaces is clamped at zero before
    [strings.Repeat] is called, so the call never panics on a negative
    count. *)
Theorem lineText_total_in_statusPadding (now : time.Time) (e : Event.t)
    (W statusPadding : Z) (h : store) (l : loc) (s : spinner.t) :
  Event.spinner e = Some l ->
  h !! l = Some s ->
  exists (line glyph : string) (h' : store),
    lineText now e W statusPadding h = Some (line, h') /\
    let padding := Z.max 0 (Go.wrap (statusPadding - width e)) in
    0 <= padding /\
    Go.Repeat " " padding = Some (Go.replicate_string (Z.to_nat padding) " ") /\
    line = aec.Apply
             (align (lineText_text glyph e
                       (Go.replicate_string (Z.to_nat padding) " "))
                    (timer_of now e) W)
             (color_of (Event.Status e)).
Proof.
  intros Hl Hs.
  exists (line_of now e W statusPadding (spinner.String s).1),
    (spinner.String s).1, (<[l := (spinner.String s).2]> h).
  split; [apply (lineText_spec now e W statusPadding h l s Hl Hs)|].
  cbv zeta. split; [lia|]. split.
  - pose proof (Repeat_space_clamped (Z.max 0 (Go.wrap (statusPadding - width e)))) as Hrep.
    destruct (Z.ltb_spec (Z.max 0 (Go.wrap (statusPadding - width e))) 0) as [Hlt|Hge]; [lia|].
    rewrite Hrep.
    + f_equal. f_equal. lia.
    + pose proof (wrap_is_int (statusPadding - width e)) as Hw.
      unfold Go.is_int, Go.int_min, Go.int_max in *. lia.
  - reflexivity.
Qed.

End total.

(** ** Updates of a known event *)

Section updates.
Context `{Presentation}.

Lemma Stop_stopped (s : spinner.t) :
  spinner.stopped s = true -> spinner.Stop s = s.
Proof. destruct s as [i b]. simpl. intros ->. reflexivity. Qed.

(** An update of a known event, in full. *)
Lemma Event_update (now : time.Time) (e stored : Event.t) (h : store)
    (w : ttyWriter.t) (l : loc) (s : spinner.t) :
  ttyWriter.events w !! Event.ID e = Some stored ->
  Event.spinner stored = Some l ->
  h !! l = Some s ->
  exists (h' : store) (w' : ttyWriter.t),
    ttyWriter.Event now e h w = Some (h', w') /\
    ttyWriter.events w' !! Event.ID e = Some (updated now stored e) /\
    (forall id, id <> Event.ID e ->
                ttyWriter.events w' !! id = ttyWriter.events w !! id) /\
    length h' = length h /\
    h' !! l = Some (if freezes stored e then spinner.Stop s else s) /\
    (forall l', l' <> l -> h' !! l' = h !! l').
Proof.
  intros Hst Hl Hs.
  rewrite (Event_seen now e stored h w l s Hst Hl Hs).
  eexists _, _. split; [reflexivity|]. simpl.
  split; [apply lookup_insert_eq|].
  split; [intros id Hne; apply lookup_insert_ne; congruence|].
  destruct (freezes stored e).
  - split; [apply length_insert|]. split.
    + apply list_lookup_insert_eq. apply (lookup_lt_Some h l s Hs).
    + intros l' Hne. apply list_lookup_insert_ne. congruence.
  - split; [reflexivity|]. split; [exact Hs|reflexivity].
Qed.

(** A record call leaves a stopped spinner as it is: no call restarts
    one. *)
Lemma Event_keeps_stopped (now : time.Time) (e : Event.t) (h h' : store)
    (w w' : ttyWriter.t) (l0 : loc) (s0 : spinner.t) :
  ttyWriter.Event now e h w = Some (h', w') ->
  h !! l0 = Some s0 ->
  spinner.stopped s0 = true ->
  h' !! l0 = Some s0.
Proof.
  intros Hev Hs0 Hstop. unfold ttyWriter.Event in Hev.
  destruct (ttyWriter.events w !! Event.ID e) as [stored|].
  - destruct (bool_decide (Event.Status stored <> Done)
              && bool_decide (Event.Status e = Done)).
    + unfold Event.stop in Hev.
      destruct (Event.spinner stored) as [l|]; [|discriminate]. simpl in Hev.
      destruct (h !! l) as [s|] eqn:Hs; [|discriminate]. simpl in Hev.
      injection Hev as <- <-.
      destruct (decide (l = l0)) as [->|Hne].
      * rewrite list_lookup_insert_eq by (apply (lookup_lt_Some h l0 s Hs)).
        rewrite Hs0 in Hs. injection Hs as <-.
        rewrite (Stop_stopped s0 Hstop). reflexivity.
      * rewrite list_lookup_insert_ne by exact Hne. exact Hs0.
    + simpl in Hev. injection Hev as <- <-. exact Hs0.
  - injection Hev as <- <-. apply lookup_app_l_Some. exact Hs0.
Qed.

(** A record call for another identifier leaves an event and its spinner
    alone. *)
Lemma Event_other (now : time.Time) (e stored : Event.t) (id : string)
    (h : store) (w : ttyWriter.t) (l : loc) (s : spinner.t) :
  wf h w ->
  Event.ID e <> id ->
  ttyWriter.events w !! id = Some stored ->
  Event.spinner stored = Some l ->
  h !! l = Some s ->
  exists (h' : store) (w' : ttyWriter.t),
    ttyWriter.Event now e h w = Some (h', w') /\ wf h' w' /\
    ttyWriter.events w' !! id = Some stored /\
    h' !! l = Some s.
Proof.
  intros Hwf Hne Hst Hl Hs.
  destruct (wf_Event now e h w Hwf) as (h' & w' & Hev & Hwf' & _).
  exists h', w'. split; [exact Hev|]. split; [exact Hwf'|].
  destruct (ttyWriter.events w !! Event.ID e) as [other|] eqn:Hother.
  - destruct (wf_spinner h w Hwf _ _ Hother) as (l2 & Hl2 & Hlt2).
    destruct (lookup_lt_is_Some_2 h l2 Hlt2) as [s2 Hs2].
    rewrite (Event_seen now e other h w l2 s2 Hother Hl2 Hs2) in Hev.
    injection Hev as <- <-. simpl.
    split; [rewrite lookup_insert_ne by exact Hne; exact Hst|].
    destruct (freezes other e); [|exact Hs].
    rewrite list_lookup_insert_ne; [exact Hs|].
    intros ->. apply Hne.
    apply (wf_inj h w Hwf _ _ _ _ Hother Hst). congruence.
  - rewrite (Event_unseen now e h w Hother) in Hev.
    injection Hev as <- <-. simpl.
    split; [rewrite lookup_insert_ne by exact Hne; exact Hst|].
    apply lookup_app_l_Some. exact Hs.
Qed.

End updates.

Section frame.
Context `{Presentation}.

(** C7, as the code has it.  A record call for a known identifier takes
    [Status], [Text] and [StatusText] from the incoming event and nothing
    else from it: the stored event keeps its identifier, its [startTime] and
    its reference to its spinner, and no spinner is allocated.  When the
    stored status is not [Done] and the incoming one is, the call also sets
    [endTime] to the current instant and stops the spinner, which keeps its
    frame; otherwise [endTime] and the spinner are as they were.  The other
    events and spinners are untouched. *)
Theorem update_overwrites_status_text_statusText (now : time.Time)
    (e stored : Event.t) (h : store) (w : ttyWriter.t) (l : loc)
    (s : spinner.t) :
  ttyWriter.events w !! Event.ID e = Some stored ->
  Event.spinner stored = Some l ->
  h !! l = Some s ->
  exists (h' : store) (w' : ttyWriter.t) (stored' : Event.t),
    ttyWriter.Event now e h w = Some (h', w') /\
    ttyWriter.events w' !! Event.ID e = Some stored' /\
    Event.Status stored' = Event.Status e /\
    Event.Text stored' = Event.Text e /\
    Event.StatusText stored' = Event.StatusText e /\
    Event.ID stored' = Event.ID stored /\
    Event.startTime stored' = Event.startTime stored /\
    Event.spinner stored' = Event.spinner stored /\
    Event.endTime stored'
    = (if freezes stored e then now else Event.endTime stored) /\
    length h' = length h /\
    h' !! l = Some {| spinner.index := spinner.index s;
                      spinner.stopped := spinner.stopped s || freezes stored e |} /\
    (forall l', l' <> l -> h' !! l' = h !! l') /\
    (forall id, id <> Event.ID e ->
                ttyWriter.events w' !! id = ttyWriter.events w !! id).
Proof.
  intros Hst Hl Hs.
  destruct (Event_update now e stored h w l s Hst Hl Hs)
    as (h' & w' & Hev & Hnew & Hothers & Hlen & Hcell & Hcells).
  exists h', w', (updated now stored e).
  split; [exact Hev|]. split; [exact Hnew|].
  do 7 (split; [reflexivity|]).
  split; [exact Hlen|]. split; [|split; assumption].
  rewrite Hcell. f_equal. destruct s as [i b], (freezes stored e); simpl.
  - rewrite orb_true_r. reflexivity.
  - rewrite orb_false_r. reflexivity.
Qed.

(** C1, as the code has it.  For a known event: a record call that brings
    it from [Working] to [Done] sets [endTime] to the current instant and
    stops its spinner; a record call on an event stored as [Done], whatever
    status it carries, changes neither [endTime] nor the spinner; no record
    call restarts a stopped spinner; and through any sequence of record
    calls in which those for this identifier carry [Done], an event stored
    as [Done] keeps its [endTime] and its spinner as they are. *)
Theorem endTime_frozen_while_done (h : store) (w : ttyWriter.t) (id : string)
    (stored : Event.t) (l : loc) (s : spinner.t) :
  wf h w ->
  ttyWriter.events w !! id = Some stored ->
  Event.spinner stored = Some l ->
  h !! l = Some s ->
  (forall now e,
     Event.ID e = id -> Event.Status stored = Working -> Event.Status e = Done ->
     exists h' w' stored',
       ttyWriter.Event now e h w = Some (h', w') /\
       ttyWriter.events w' !! id = Some stored' /\
       Event.Status stored' = Done /\
       Event.endTime stored' = now /\
       h' !! l = Some (spinner.Stop s)) /\
  (forall now e,
     Event.ID e = id -> Event.Status stored = Done ->
     exists w' stored',
       ttyWriter.Event now e h w = Some (h, w') /\
       ttyWriter.events w' !! id = Some stored' /\
       Event.endTime stored' = Event.endTime stored /\
       Event.spinner stored' = Some l) /\
  (forall now e,
     exists h' w',
       ttyWriter.Event now e h w = Some (h', w') /\
       forall l0 s0,
         h !! l0 = Some s0 -> spinner.stopped s0 = true -> h' !! l0 = Some s0) /\
  (Event.Status stored = Done ->
   forall es : list (time.Time * Event.t),
     Forall (fun p => Event.ID p.2 = id -> Event.Status p.2 = Done) es ->
     exists h' w' stored',
       run (records es) h w = Some (h', w') /\
       ttyWriter.events w' !! id = Some stored' /\
       Event.Status stored' = Done /\
       Event.endTime stored' = Event.endTime stored /\
       Event.spinner stored' = Some l /\
       h' !! l = Some s).
Proof.
  intros Hwf Hst Hl Hs. split; [|split; [|split]].
  - intros now e <- Hworking Hdone.
    destruct (Event_update now e stored h w l s Hst Hl Hs)
      as (h' & w' & Hev & Hnew & _ & _ & Hcell & _).
    assert (Hfr : freezes stored e = true).
    { unfold freezes. rewrite Hworking, Hdone. reflexivity. }
    rewrite Hfr in Hcell.
    exists h', w', (updated now stored e).
    split; [exact Hev|]. split; [exact Hnew|]. split; [exact Hdone|].
    split; [|exact Hcell]. unfold updated. simpl. rewrite Hfr. reflexivity.
  - intros now e <- Hdone.
    assert (Hfr : freezes stored e = false).
    { unfold freezes. rewrite Hdone. reflexivity. }
    rewrite (Event_seen now e stored h w l s Hst Hl Hs), Hfr.
    eexists _, (updated now stored e). split; [reflexivity|]. simpl.
    split; [apply lookup_insert_eq|].
    unfold updated. simpl. rewrite Hfr. split; [reflexivity|exact Hl].
  - intros now e.
    destruct (wf_Event now e h w Hwf) as (h' & w' & Hev & _).
    exists h', w'. split; [exact Hev|].
    intros l0 s0. apply (Event_keeps_stopped now e h h' w w' l0 s0 Hev).
  - intros Hdone es. revert h w stored Hwf Hst Hl Hs Hdone.
    induction es as [|[now e] es IH]; intros h w stored Hwf Hst Hl Hs Hdone Hall.
    + exists h, w, stored. repeat split; assumption.
    + apply Forall_cons in Hall as [Hhead Hall]. simpl in Hhead.
      simpl. destruct (decide (Event.ID e = id)) as [Heq|Hne].
      * subst id. specialize (Hhead eq_refl).
        assert (Hfr : freezes stored e = false).
        { unfold freezes. rewrite Hdone. reflexivity. }
        destruct (wf_Event now e h w Hwf) as (h1 & w1 & Hev & Hwf1 & _).
        rewrite Hev. simpl.
        rewrite (Event_seen now e stored h w l s Hst Hl Hs), Hfr in Hev.
        injection Hev as <- <-.
        destruct (IH h _ (updated now stored e) Hwf1) as (h' & w' & st' & Hr & Hst' & Hd' & He' & Hl' & Hs');
          try assumption.
        -- simpl. apply lookup_insert_eq.
        -- exists h', w', st'. split; [exact Hr|]. split; [exact Hst'|].
           split; [exact Hd'|]. split; [|split; assumption].
           rewrite He'. unfold updated. simpl. rewrite Hfr. reflexivity.
      * destruct (Event_other now e stored id h w l s Hwf Hne Hst Hl Hs)
          as (h1 & w1 & Hev & Hwf1 & Hst1 & Hs1).
        rewrite Hev. simpl.
        apply (IH h1 w1 stored Hwf1 Hst1 Hl Hs1 Hdone Hall).
Qed.

End frame.

(** ** The repaint loop: [ttyWriter.Start] *)

Section scheduler.
Context `{Presentation}.

(** While only ticks and record calls happen, [Start] stays in its loop and
    does what the trace does. *)
Lemma Start_run (ctxErr : ttyWriter.error) (cs : list call)
    (rest : list ttyWriter.step) :
  forall (h : store) (w : ttyWriter.t),
  ttyWriter.Start ctxErr (schedule_of cs ++ rest) h w
  = match run cs h w with
    | Some (h', w') => ttyWriter.Start ctxErr rest h' w'
    | None => ttyWriter.Panicked
    end.
Proof.
  induction cs as [|c cs IH]; intros h w; [reflexivity|].
  destruct c as [now e|now W]; simpl.
  - destruct (ttyWriter.Event now e h w) as [[h1 w1]|]; [apply IH|reflexivity].
  - destruct (ttyWriter.print now W h w) as [[h1 w1]|]; [apply IH|reflexivity].
Qed.

(** C8.  Whatever record calls and ticks happened, [Start] has not
    returned: it waits in its [select].  When the stop signal is received,
    [Start] repaints once, from the state the loop was in, and returns nil;
    when the context is done it repaints once in the same way and returns
    [ctx.Err()].  Whatever is scheduled after the signal is not looked
    at. *)
Theorem Start_returns_after_one_final_repaint (ctxErr : ttyWriter.error)
    (cs : list call) :
  exists (h : store) (w : ttyWriter.t),
    run cs [] ttyWriter.empty = Some (h, w) /\
    ttyWriter.Start ctxErr (schedule_of cs) [] ttyWriter.empty
    = ttyWriter.Blocked h w /\
    forall (now : time.Time) (W : Z) (rest : list ttyWriter.step),
    exists (h' : store) (w' : ttyWriter.t) (lines : list string),
      ttyWriter.print now W h w = Some (h', w') /\
      (ttyWriter.eventIDs w = [] -> ttyWriter.out w' = ttyWriter.out w) /\
      (ttyWriter.eventIDs w <> [] ->
       exists cursor header,
         ttyWriter.out w' = ttyWriter.out w ++ frame_of cursor header lines) /\
      ttyWriter.Start ctxErr
        (schedule_of cs ++ ttyWriter.Wake ttyWriter.w_done now W :: rest)
        [] ttyWriter.empty
      = ttyWriter.Returned None h' w' /\
      ttyWriter.Start ctxErr
        (schedule_of cs ++ ttyWriter.Wake ttyWriter.ctx_Done now W :: rest)
        [] ttyWriter.empty
      = ttyWriter.Returned (Some ctxErr) h' w'.
Proof.
  destruct (wf_run cs [] ttyWriter.empty wf_empty) as (h & w & Hr & Hwf).
  exists h, w. split; [exact Hr|]. split.
  - rewrite <- (app_nil_r (schedule_of cs)), Start_run, Hr. reflexivity.
  - intros now W rest.
    destruct (wf_print now W h w Hwf)
      as (h' & w' & lines & Hp & _ & _ & _ & _ & _ & Hnil & Hout).
    exists h', w', lines. split; [exact Hp|]. split.
    { intros Hk. destruct (Hnil Hk) as [_ ->]. reflexivity. }
    split.
    { intros Hk. eexists _, _. apply Hout. exact Hk. }
    rewrite !Start_run, Hr. simpl. rewrite Hp. split; reflexivity.
Qed.

End scheduler.

(** ** The layout of a line at a given width *)

Section layout.
Context `{Presentation}.

Lemma writePadding_spaces (n : Z) :
  fmt.writePadding n = Go.replicate_string (Z.to_nat (Z.max 0 n)) " ".
Proof. unfold fmt.writePadding. f_equal. lia. Qed.

Lemma Sprintf_minus_star_s_shape (wid : Z) (l : string) :
  exists (pre : string) (k : nat),
    fmt.Sprintf_minus_star_s wid l = pre +:+ l +:+ Go.replicate_string k " " /\
    (pre = "" \/ pre = fmt.badWidthString).
Proof.
  unfold fmt.Sprintf_minus_star_s.
  destruct (fmt.tooLarge wid).
  - exists fmt.badWidthString, O. split; [|right; reflexivity].
    simpl. rewrite string_app_nil_r. reflexivity.
  - unfold fmt.padString_minus.
    destruct (_ =? 0).
    + exists "", O. split; [|left; reflexivity].
      simpl. rewrite string_app_nil_r. reflexivity.
    + eexists "", _. split; [|left; reflexivity]. reflexivity.
Qed.

(** [align] in every case: the two segments in full, spaces between them,
    and the mark of [fmt] before them when it refuses the width. *)
Lemma align_shape (l r : string) (W : Z) :
  exists (pre : string) (k : nat),
    align l r W = pre +:+ l +:+ Go.replicate_string k " " +:+ " " +:+ r /\
    (pre = "" \/ pre = fmt.badWidthString) /\
    (-1000000 <= W - Go.len r - 1 <= 1000000 ->
     pre = "" /\
     Z.of_nat k = Z.max 0 (Z.abs (W - Go.len r - 1) - utf8.RuneCountInString l)).
Proof.
  destruct (decide (-1000000 <= W - Go.len r - 1 <= 1000000)) as [Hin|Hout].
  - exists "", (Z.to_nat (Z.max 0 (Z.abs (W - Go.len r - 1)
                                   - utf8.RuneCountInString l))).
    split; [|split; [left; reflexivity|intros _; split; [reflexivity|lia]]].
    rewrite align_accepted by lia. rewrite writePadding_spaces.
    rewrite string_app_assoc. reflexivity.
  - destruct (Sprintf_minus_star_s_shape (Go.wrap (W - Go.len r - 1)) l)
      as (pre & k & Hshape & Hpre).
    exists pre, k. split; [|split; [exact Hpre|intros; contradiction]].
    unfold align. rewrite Hshape, !string_app_assoc. reflexivity.
Qed.

End layout.

Section widths.
Context `{Presentation}.

(** C5, as the code has it.  For all segments [l] and [r] and every width
    [W], the line is [l], spaces, one more space and [r]: nothing of [l] or
    [r] is cut ([fmt] puts its mark before [l] when it refuses the width).
    When [0 <= W - len(r) - 1 <= 10^6] the spaces bring [l] to
    [W - len(r) - 1] code points, so that [r] ends at width [W]; and if [l]
    has that many code points or more there is none, the line being [l], one
    space, [r]. *)
Theorem align_right_aligns_without_truncation (l r : string) (W : Z) :
  exists (pre : string) (k : nat),
    align l r W = pre +:+ l +:+ Go.replicate_string k " " +:+ " " +:+ r /\
    (pre = "" \/ pre = fmt.badWidthString) /\
    (0 <= W - Go.len r - 1 <= 1000000 ->
     pre = "" /\
     (utf8.RuneCountInString l <= W - Go.len r - 1 ->
      utf8.RuneCountInString l + Z.of_nat k + 1 + Go.len r = W) /\
     (W - Go.len r - 1 <= utf8.RuneCountInString l ->
      k = O /\ align l r W = l +:+ " " +:+ r)).
Proof.
  destruct (align_shape l r W) as (pre & k & Hal & Hpre & Hin).
  exists pre, k. split; [exact Hal|]. split; [exact Hpre|]. intros Hn.
  destruct Hin as [-> Hk]; [lia|].
  split; [reflexivity|]. split.
  - intros Hfit. lia.
  - intros Hover. assert (k = O) as -> by lia.
    split; [reflexivity|]. rewrite Hal. reflexivity.
Qed.

(** C4, as the code has it.  No floor is applied to the width: a repaint
    never fails, whatever the width, and lays out each line with [align] at
    the very width it was given.  There a width too small for the line
    ([0 <= W - len(r) - 1] and [l] that long or longer) gives [l], one space,
    [r]; and a width with [W - len(r) - 1] negative, down to [-10^6], has [l]
    padded to the absolute value of [W - len(r) - 1] code points. *)
Theorem width_reaches_align_unclamped (cs : list call) :
  exists (h : store) (w : ttyWriter.t),
    run cs [] ttyWriter.empty = Some (h, w) /\
    forall (now : time.Time) (W : Z),
    (exists (h' : store) (w' : ttyWriter.t) (lines : list string),
       ttyWriter.print now W h w = Some (h', w') /\
       Forall2 (fun id line =>
                  exists (e : Event.t) (text : string),
                    ttyWriter.events w !! id = Some e /\
                    line = aec.Apply (align text (timer_of now e) W)
                                     (color_of (Event.Status e)))
               (ttyWriter.eventIDs w) lines) /\
    forall l r : string,
      (0 <= W - Go.len r - 1 <= 1000000 ->
       W - Go.len r - 1 <= utf8.RuneCountInString l ->
       align l r W = l +:+ " " +:+ r) /\
      (-1000000 <= W - Go.len r - 1 < 0 ->
       exists k : nat,
         align l r W = l +:+ Go.replicate_string k " " +:+ " " +:+ r /\
         Z.of_nat k = Z.max 0 (- (W - Go.len r - 1) - utf8.RuneCountInString l)).
Proof.
  destruct (wf_run cs [] ttyWriter.empty wf_empty) as (h & w & Hr & Hwf).
  exists h, w. split; [exact Hr|]. intros now W. split.
  - destruct (wf_print now W h w Hwf)
      as (h' & w' & lines & Hp & _ & _ & _ & _ & Hall & _).
    exists h', w', lines. split; [exact Hp|].
    eapply Forall2_impl; [exact Hall|].
    intros id line (e & l & s & He & Hl & Hs & ->).
    eexists e, _. split; [exact He|reflexivity].
  - intros l r. split.
    + intros Hn Hover.
      destruct (align_shape l r W) as (pre & k & Hal & _ & Hin).
      destruct Hin as [-> Hk]; [lia|].
      assert (k = O) as -> by lia. rewrite Hal. reflexivity.
    + intros Hn.
      destruct (align_shape l r W) as (pre & k & Hal & _ & Hin).
      destruct Hin as [-> Hk]; [lia|].
      exists k. split; [rewrite Hal; reflexivity|lia].
Qed.

End widths.

(** ** [chooseSub] *)

Section subscriptions.
Context `{azure.userSelector}.

Lemma chooseSub_options_named (subs : list azure.Model.t) :
  forall acc : list string,
  Forall named subs ->
  exists options,
    azure.chooseSub_options subs acc = ([], azure.Returns (acc ++ options)) /\
    length options = length subs.
Proof.
  induction subs as [|sub subs IH]; intros acc Hall.
  - exists []. rewrite app_nil_r. split; reflexivity.
  - apply Forall_cons in Hall as [[[name Hn] [id Hi]] Hall].
    destruct (IH (acc ++ [option_of name id]) Hall) as (options & Hopt & Hlen).
    exists (option_of name id :: options).
    split; [|simpl; rewrite Hlen; reflexivity].
    cbn [azure.chooseSub_options]. rewrite Hn, Hi. simpl.
    unfold option_of in Hopt. rewrite Hopt. simpl.
    rewrite <- app_assoc. reflexivity.
Qed.

End subscriptions.

Section sole_subscription.
Context `{azure.userSelector}.

(** C10, as the code has it.  For a list of one subscription whose name and
    identifier are set, [chooseSub] prints which subscription it uses and
    returns its identifier with a nil error, the selector not being
    consulted.  The selector is consulted only when the length of the list
    is not one, and it is then, once, with one option per subscription, when
    the fields of the subscriptions are set: for two subscriptions or more,
    and for none. *)
Theorem chooseSub_sole_subscription :
  (forall (sub : azure.Model.t) (name id : string),
     azure.Model.DisplayName sub = Some name ->
     azure.Model.SubscriptionID sub = Some id ->
     azure.chooseSub [sub]
     = ([azure.Printed ("Using only available subscription : "
                          +:+ name +:+ "(" +:+ id +:+ ")")],
        azure.Returns (id, None)) /\
     azure.prompts (azure.chooseSub [sub]) = []) /\
  (forall subs : list azure.Model.t,
     azure.prompts (azure.chooseSub subs) <> [] -> length subs <> 1%nat) /\
  (forall subs : list azure.Model.t,
     length subs <> 1%nat ->
     Forall named subs ->
     exists options : list string,
       azure.prompts (azure.chooseSub subs)
       = [azure.Prompted "Select a subscription ID" options] /\
       length options = length subs).
Proof.
  split; [|split].
  - intros sub name id Hn Hi. unfold azure.prompts, azure.chooseSub. simpl.
    rewrite Hn, Hi. simpl. split; reflexivity.
  - intros subs Hp Hlen. apply Hp.
    destruct subs as [|sub [|sub' subs]]; try discriminate.
    unfold azure.prompts, azure.chooseSub. simpl.
    destruct (azure.Model.DisplayName sub); [|reflexivity]. simpl.
    destruct (azure.Model.SubscriptionID sub); reflexivity.
  - intros subs Hlen Hall.
    destruct (chooseSub_options_named subs [] Hall) as (options & Hopt & Hl).
    exists options. split; [|exact Hl].
    unfold azure.prompts, azure.chooseSub.
    destruct (Z.eqb_spec (Z.of_nat (length subs)) 1) as [Heq|_]; [lia|].
    rewrite Hopt. simpl.
    destruct (azure.userSelect "Select a subscription ID" options)
      as [selected [e|]].
    + destruct (bool_decide (e = azure.InterruptErr)); reflexivity.
    + unfold azure.index. destruct (selected <? 0); [reflexivity|].
      destruct (subs !! Z.to_nat selected) as [sub|]; [|reflexivity]. simpl.
      destruct (azure.Model.SubscriptionID sub); reflexivity.
Qed.

End sole_subscription.

(** * Further properties of the code *)

(** ** The event store over a trace *)

Section store_over_traces.
Context `{Presentation}.

(** X1.  [contains] tells whether the string occurs in the slice. *)
Theorem contains_true_iff_In (ar : list string) (needle : string) :
  contains ar needle = true <-> In needle ar.
Proof.
  induction ar as [|v ar IH]; simpl.
  - split; [discriminate|tauto].
  - destruct (String.eqb_spec needle v) as [->|Hne].
    + split; [intros _; left; reflexivity|reflexivity].
    + rewrite IH. split; [intros Hin; right; exact Hin|].
      intros [Heq|Hin]; [congruence|exact Hin].
Qed.

(** What one record call does to the map: the event stored under its
    identifier carries its status and texts, and keeps what was fixed at the
    first observation; the other entries stay. *)
Lemma Event_stores (now : time.Time) (e : Event.t) (h h' : store)
    (w w' : ttyWriter.t) :
  wf h w ->
  ttyWriter.Event now e h w = Some (h', w') ->
  (exists st,
     ttyWriter.events w' !! Event.ID e = Some st /\
     Event.Status st = Event.Status e /\
     Event.Text st = Event.Text e /\
     Event.StatusText st = Event.StatusText e /\
     (ttyWriter.events w !! Event.ID e = None -> Event.startTime st = now) /\
     (forall st0, ttyWriter.events w !! Event.ID e = Some st0 ->
                  Event.startTime st = Event.startTime st0 /\
                  Event.spinner st = Event.spinner st0)) /\
  (forall id, id <> Event.ID e ->
              ttyWriter.events w' !! id = ttyWriter.events w !! id).
Proof.
  intros Hwf Hev.
  destruct (ttyWriter.events w !! Event.ID e) as [stored|] eqn:Hst.
  - destruct (wf_spinner h w Hwf _ _ Hst) as (l & Hl & Hlt).
    destruct (lookup_lt_is_Some_2 h l Hlt) as [s Hs].
    rewrite (Event_seen now e stored h w l s Hst Hl Hs) in Hev.
    injection Hev as <- <-. simpl. split.
    + exists (updated now stored e). rewrite lookup_insert_eq.
      split; [reflexivity|]. do 3 (split; [reflexivity|]).
      split; [discriminate|]. intros st0 [= <-]. split; reflexivity.
    + intros id Hne. apply lookup_insert_ne. congruence.
  - rewrite (Event_unseen now e h w Hst) in Hev.
    injection Hev as <- <-. simpl. split.
    + exists (observed now (length h) e). rewrite lookup_insert_eq.
      split; [reflexivity|]. do 3 (split; [reflexivity|]).
      split; [reflexivity|]. discriminate.
    + intros id Hne. apply lookup_insert_ne. congruence.
Qed.

Lemma run_last_recorded (cs : list call) :
  forall (h h' : store) (w w' : ttyWriter.t),
  wf h w ->
  run cs h w = Some (h', w') ->
  forall id,
    match last_recorded id cs with
    | Some e =>
        exists st,
          ttyWriter.events w' !! id = Some st /\
          Event.Status st = Event.Status e /\
          Event.Text st = Event.Text e /\
          Event.StatusText st = Event.StatusText e
    | None => ttyWriter.events w' !! id = ttyWriter.events w !! id
    end.
Proof.
  induction cs as [|c cs IH]; intros h h' w w' Hwf Hr id.
  - injection Hr as <- <-. reflexivity.
  - simpl in Hr.
    destruct (wf_do_call c h w Hwf) as (h1 & w1 & Hc & Hwf1).
    rewrite Hc in Hr. simpl in Hr.
    specialize (IH h1 h' w1 w' Hwf1 Hr id). cbn [last_recorded].
    destruct (last_recorded id cs) as [e|]; [exact IH|].
    rewrite IH. destruct c as [now e|now W]; simpl in Hc.
    + destruct (Event_stores now e h h1 w w1 Hwf Hc) as [Hown Hother].
      destruct (String.eqb_spec (Event.ID e) id) as [<-|Hne].
      * destruct Hown as (st & Hst & Hs & Ht & Hst' & _).
        exists st. auto.
      * apply Hother. congruence.
    + destruct (wf_print now W h w Hwf) as (h2 & w2 & lines & Hp & _ & Hev & _).
      rewrite Hp in Hc. injection Hc as <- <-. rewrite Hev. reflexivity.
Qed.

(** X2.  The last record call for an identifier wins: after any trace,
    the event stored under an identifier has the status, the text and the
    status text of the last call that recorded it, and an identifier that
    was never recorded is not in the map. *)
Theorem last_record_wins (cs : list call) :
  exists (h : store) (w : ttyWriter.t),
    run cs [] ttyWriter.empty = Some (h, w) /\
    forall id,
      match last_recorded id cs with
      | Some e =>
          exists st,
            ttyWriter.events w !! id = Some st /\
            Event.Status st = Event.Status e /\
            Event.Text st = Event.Text e /\
            Event.StatusText st = Event.StatusText e
      | None => ttyWriter.events w !! id = None
      end.
Proof.
  destruct (wf_run cs [] ttyWriter.empty wf_empty) as (h & w & Hr & Hwf).
  exists h, w. split; [exact Hr|]. intros id.
  pose proof (run_last_recorded cs _ _ _ _ wf_empty Hr id) as Hlast.
  destruct (last_recorded id cs); [exact Hlast|].
  rewrite Hlast. apply lookup_empty.
Qed.

(** What the first observation fixes is kept by every later call. *)
Lemma run_keeps_first_observation (cs : list call) :
  forall (h h' : store) (w w' : ttyWriter.t) (id : string) (st0 : Event.t),
  wf h w ->
  ttyWriter.events w !! id = Some st0 ->
  run cs h w = Some (h', w') ->
  exists st,
    ttyWriter.events w' !! id = Some st /\
    Event.startTime st = Event.startTime st0 /\
    Event.spinner st = Event.spinner st0.
Proof.
  induction cs as [|c cs IH]; intros h h' w w' id st0 Hwf Hst Hr.
  - injection Hr as <- <-. exists st0. auto.
  - simpl in Hr.
    destruct (wf_do_call c h w Hwf) as (h1 & w1 & Hc & Hwf1).
    rewrite Hc in Hr. simpl in Hr.
    assert (Hst1 : exists st1,
               ttyWriter.events w1 !! id = Some st1 /\
               Event.startTime st1 = Event.startTime st0 /\
               Event.spinner st1 = Event.spinner st0).
    { destruct c as [now e|now W]; simpl in Hc.
      - destruct (Event_stores now e h h1 w w1 Hwf Hc) as [Hown Hother].
        destruct (decide (id = Event.ID e)) as [->|Hne].
        + destruct Hown as (st & Hst' & _ & _ & _ & _ & Hkeep).
          destruct (Hkeep st0 Hst) as [Hs1 Hs2]. exists st. auto.
        + exists st0. rewrite (Hother id Hne). auto.
      - destruct (wf_print now W h w Hwf) as (h2 & w2 & lines & Hp & _ & Hev & _).
        rewrite Hp in Hc. injection Hc as <- <-. rewrite Hev.
        exists st0. auto. }
    destruct Hst1 as (st1 & Hst1 & Hstart & Hspin).
    destruct (IH h1 h' w1 w' id st1 Hwf1 Hst1 Hr) as (st & Hs & Hs1 & Hs2).
    exists st. split; [exact Hs|]. split; congruence.
Qed.

Lemma run_first_recorded_at (cs : list call) :
  forall (h h' : store) (w w' : ttyWriter.t) (id : string),
  wf h w ->
  ttyWriter.events w !! id = None ->
  run cs h w = Some (h', w') ->
  match first_recorded_at id cs with
  | Some t =>
      exists st, ttyWriter.events w' !! id = Some st /\ Event.startTime st = t
  | None => ttyWriter.events w' !! id = None
  end.
Proof.
  induction cs as [|c cs IH]; intros h h' w w' id Hwf Hnone Hr.
  - injection Hr as <- <-. exact Hnone.
  - simpl in Hr.
    destruct (wf_do_call c h w Hwf) as (h1 & w1 & Hc & Hwf1).
    rewrite Hc in Hr. simpl in Hr.
    destruct c as [now e|now W]; simpl in Hc; cbn [first_recorded_at].
    + destruct (Event_stores now e h h1 w w1 Hwf Hc) as [Hown Hother].
      destruct (String.eqb_spec (Event.ID e) id) as [<-|Hne].
      * destruct Hown as (st1 & Hst1 & _ & _ & _ & Hnew & _).
        destruct (run_keeps_first_observation cs h1 h' w1 w' _ st1 Hwf1 Hst1 Hr)
          as (st & Hs & Hstart & _).
        exists st. split; [exact Hs|]. rewrite Hstart. apply Hnew. exact Hnone.
      * apply (IH h1 h' w1 w' id Hwf1); [|exact Hr].
        rewrite Hother by congruence. exact Hnone.
    + destruct (wf_print now W h w Hwf) as (h2 & w2 & lines & Hp & _ & Hev & _).
      rewrite Hp in Hc. injection Hc as <- <-.
      apply (IH h2 h' w2 w' id Hwf1); [|exact Hr]. rewrite Hev. exact Hnone.
Qed.

(** X3.  [startTime] is set once: after any trace, the event stored under
    an identifier has as [startTime] the instant of the first call that
    recorded this identifier, whatever was recorded after it. *)
Theorem startTime_is_first_observation (cs : list call) :
  exists (h : store) (w : ttyWriter.t),
    run cs [] ttyWriter.empty = Some (h, w) /\
    forall id,
      match first_recorded_at id cs with
      | Some t =>
          exists st,
            ttyWriter.events w !! id = Some st /\ Event.startTime st = t
      | None => ttyWriter.events w !! id = None
      end.
Proof.
  destruct (wf_run cs [] ttyWriter.empty wf_empty) as (h & w & Hr & Hwf).
  exists h, w. split; [exact Hr|]. intros id.
  apply (run_first_recorded_at cs [] h ttyWriter.empty w id wf_empty);
    [apply lookup_empty|exact Hr].
Qed.

End store_over_traces.


Section spinners_and_repaints.
Context `{Presentation}.

(** A repaint allocates no spinner. *)
Lemma print_store_length (now : time.Time) (W : Z) (h h' : store)
    (w w' : ttyWriter.t) :
  wf h w ->
  ttyWriter.print now W h w = Some (h', w') ->
  length h' = length h.
Proof.
  intros Hwf Hp.
  destruct (ttyWriter.eventIDs w) as [|v ids] eqn:Hk.
  - rewrite (print_unknown now W h w Hk) in Hp. injection Hp as <- _.
    reflexivity.
  - destruct (print_lines_wf now W
                (ttyWriter.statusPadding_of (ttyWriter.events w)
                                            (ttyWriter.eventIDs w)) h w Hwf)
      as (lines & h'' & Hpl & Hlen & _).
    assert (Hne : ttyWriter.eventIDs w <> []) by (rewrite Hk; discriminate).
    rewrite (print_known now W h h'' w lines Hne Hpl) in Hp.
    injection Hp as <- _. exact Hlen.
Qed.

(** The store of spinners and the list of identifiers grow together. *)
Lemma run_spinner_per_event (cs : list call) :
  forall (h h' : store) (w w' : ttyWriter.t),
  wf h w ->
  length h = length (ttyWriter.eventIDs w) ->
  (forall k id,
     ttyWriter.eventIDs w !! k = Some id ->
     exists e, ttyWriter.events w !! id = Some e /\ Event.spinner e = Some k) ->
  run cs h w = Some (h', w') ->
  length h' = length (ttyWriter.eventIDs w') /\
  (forall k id,
     ttyWriter.eventIDs w' !! k = Some id ->
     exists e, ttyWriter.events w' !! id = Some e /\ Event.spinner e = Some k).
Proof.
  induction cs as [|c cs IH]; intros h h' w w' Hwf Hlen Hidx Hr.
  - injection Hr as <- <-. auto.
  - simpl in Hr.
    destruct (wf_do_call c h w Hwf) as (h1 & w1 & Hc & Hwf1).
    rewrite Hc in Hr. simpl in Hr.
    apply (IH h1 h' w1 w' Hwf1); [| |exact Hr];
      destruct c as [now e|now W]; simpl in Hc.
    + destruct (ttyWriter.events w !! Event.ID e) as [stored|] eqn:Hst.
      * destruct (wf_spinner h w Hwf _ _ Hst) as (l & Hl & Hlt).
        destruct (lookup_lt_is_Some_2 h l Hlt) as [s Hs].
        rewrite (Event_seen now e stored h w l s Hst Hl Hs) in Hc.
        injection Hc as <- <-. simpl.
        rewrite seen_known by (apply (wf_dom h w Hwf); eauto).
        destruct (freezes stored e); [rewrite length_insert|]; exact Hlen.
      * rewrite (Event_unseen now e h w Hst) in Hc.
        injection Hc as <- <-. simpl.
        rewrite seen_new.
        -- rewrite !length_app. simpl. lia.
        -- rewrite (wf_dom h w Hwf), Hst. intros [x Hx]. discriminate.
    + destruct (wf_print now W h w Hwf)
        as (h2 & w2 & lines & Hp & Hwf2 & _ & Hids & _).
      rewrite Hp in Hc. injection Hc as <- <-. rewrite Hids.
      rewrite (print_store_length now W h h2 w w2 Hwf Hp). exact Hlen.
    + destruct (ttyWriter.events w !! Event.ID e) as [stored|] eqn:Hst.
      * destruct (wf_spinner h w Hwf _ _ Hst) as (l & Hl & Hlt).
        destruct (lookup_lt_is_Some_2 h l Hlt) as [s Hs].
        rewrite (Event_seen now e stored h w l s Hst Hl Hs) in Hc.
        injection Hc as <- <-. simpl.
        rewrite seen_known by (apply (wf_dom h w Hwf); eauto).
        intros k id Hk. destruct (Hidx k id Hk) as (e0 & He0 & Hsp).
        destruct (decide (Event.ID e = id)) as [<-|Hne].
        -- rewrite lookup_insert_eq. exists (updated now stored e).
           split; [reflexivity|]. simpl. congruence.
        -- rewrite lookup_insert_ne by exact Hne. eauto.
      * rewrite (Event_unseen now e h w Hst) in Hc.
        injection Hc as <- <-. simpl.
        assert (Hnin : Event.ID e ∉ ttyWriter.eventIDs w).
        { rewrite (wf_dom h w Hwf), Hst. intros [x Hx]. discriminate. }
        rewrite (seen_new _ _ Hnin).
        intros k id Hk.
        destruct (decide (k < length (ttyWriter.eventIDs w))%nat) as [Hlt|Hge].
        -- rewrite lookup_app_l in Hk by exact Hlt.
           destruct (Hidx k id Hk) as (e0 & He0 & Hsp).
           assert (Hne : Event.ID e <> id).
           { intros <-. apply Hnin. apply list_elem_of_lookup. eauto. }
           rewrite lookup_insert_ne by exact Hne. eauto.
        -- rewrite lookup_app_r in Hk by lia.
           destruct (k - length (ttyWriter.eventIDs w))%nat as [|n] eqn:Hd;
             [|destruct n; discriminate].
           injection Hk as <-. rewrite lookup_insert_eq.
           exists (observed now (length h) e). split; [reflexivity|].
           simpl. f_equal. lia.
    + destruct (wf_print now W h w Hwf)
        as (h2 & w2 & lines & Hp & Hwf2 & Hev & Hids & _).
      rewrite Hp in Hc. injection Hc as <- <-. rewrite Hids, Hev. exact Hidx.
Qed.

(** X4.  One spinner per event, for life: after any trace there are as
    many spinners as known events, and the event first seen in position [k]
    holds the spinner allocated in position [k]. *)
Theorem one_spinner_per_event (cs : list call) :
  exists (h : store) (w : ttyWriter.t),
    run cs [] ttyWriter.empty = Some (h, w) /\
    length h = length (ttyWriter.eventIDs w) /\
    forall k id,
      ttyWriter.eventIDs w !! k = Some id ->
      exists e s,
        ttyWriter.events w !! id = Some e /\
        Event.spinner e = Some k /\
        h !! k = Some s.
Proof.
  destruct (wf_run cs [] ttyWriter.empty wf_empty) as (h & w & Hr & Hwf).
  exists h, w. split; [exact Hr|].
  destruct (run_spinner_per_event cs [] h ttyWriter.empty w wf_empty) as [Hlen Hidx];
    [reflexivity| |exact Hr|].
  { intros k id Hk. simpl in Hk. rewrite lookup_nil in Hk. discriminate. }
  split; [exact Hlen|]. intros k id Hk.
  destruct (Hidx k id Hk) as (e & He & Hsp).
  destruct (lookup_lt_is_Some_2 h k) as [s Hs].
  { rewrite Hlen. apply (lookup_lt_Some _ _ _ Hk). }
  exists e, s. auto.
Qed.

(** Two writers with the same events in the same order, and as many
    spinners, stay so under the same record call. *)
Lemma Event_same_events (now : time.Time) (e : Event.t) (h1 h2 h1' h2' : store)
    (w1 w2 w1' w2' : ttyWriter.t) :
  wf h1 w1 -> wf h2 w2 ->
  ttyWriter.events w1 = ttyWriter.events w2 ->
  ttyWriter.eventIDs w1 = ttyWriter.eventIDs w2 ->
  length h1 = length h2 ->
  ttyWriter.Event now e h1 w1 = Some (h1', w1') ->
  ttyWriter.Event now e h2 w2 = Some (h2', w2') ->
  ttyWriter.events w1' = ttyWriter.events w2' /\
  ttyWriter.eventIDs w1' = ttyWriter.eventIDs w2' /\
  length h1' = length h2'.
Proof.
  intros Hwf1 Hwf2 Hev Hids Hlen H1 H2.
  destruct (ttyWriter.events w1 !! Event.ID e) as [stored|] eqn:Hst.
  - assert (Hst2 : ttyWriter.events w2 !! Event.ID e = Some stored)
      by (rewrite <- Hev; exact Hst).
    destruct (wf_spinner h1 w1 Hwf1 _ _ Hst) as (l1 & Hl1 & Hlt1).
    destruct (lookup_lt_is_Some_2 h1 l1 Hlt1) as [s1 Hs1].
    destruct (wf_spinner h2 w2 Hwf2 _ _ Hst2) as (l2 & Hl2 & Hlt2).
    destruct (lookup_lt_is_Some_2 h2 l2 Hlt2) as [s2 Hs2].
    rewrite (Event_seen now e stored h1 w1 l1 s1 Hst Hl1 Hs1) in H1.
    rewrite (Event_seen now e stored h2 w2 l2 s2 Hst2 Hl2 Hs2) in H2.
    injection H1 as <- <-. injection H2 as <- <-. simpl.
    rewrite Hev, Hids. split; [reflexivity|]. split; [reflexivity|].
    destruct (freezes stored e); rewrite ?length_insert; exact Hlen.
  - assert (Hst2 : ttyWriter.events w2 !! Event.ID e = None)
      by (rewrite <- Hev; exact Hst).
    rewrite (Event_unseen now e h1 w1 Hst) in H1.
    rewrite (Event_unseen now e h2 w2 Hst2) in H2.
    injection H1 as <- <-. injection H2 as <- <-. simpl.
    rewrite Hev, Hids, Hlen, !length_app. auto.
Qed.

Lemma run_without_repaints (cs : list call) :
  forall (h1 h2 h1' h2' : store) (w1 w2 w1' w2' : ttyWriter.t),
  wf h1 w1 -> wf h2 w2 ->
  ttyWriter.events w1 = ttyWriter.events w2 ->
  ttyWriter.eventIDs w1 = ttyWriter.eventIDs w2 ->
  length h1 = length h2 ->
  run cs h1 w1 = Some (h1', w1') ->
  run (without_repaints cs) h2 w2 = Some (h2', w2') ->
  ttyWriter.events w1' = ttyWriter.events w2' /\
  ttyWriter.eventIDs w1' = ttyWriter.eventIDs w2'.
Proof.
  induction cs as [|c cs IH];
    intros h1 h2 h1' h2' w1 w2 w1' w2' Hwf1 Hwf2 Hev Hids Hlen H1 H2.
  - injection H1 as <- <-. injection H2 as <- <-. auto.
  - simpl in H1. destruct c as [now e|now W]; simpl in H1, H2.
    + destruct (wf_Event now e h1 w1 Hwf1) as (ha & wa & Ha & Hwfa & _).
      destruct (wf_Event now e h2 w2 Hwf2) as (hb & wb & Hb & Hwfb & _).
      rewrite Ha in H1. rewrite Hb in H2. simpl in H1, H2.
      destruct (Event_same_events now e h1 h2 ha hb w1 w2 wa wb
                  Hwf1 Hwf2 Hev Hids Hlen Ha Hb) as (Hev' & Hids' & Hlen').
      apply (IH ha hb h1' h2' wa wb w1' w2' Hwfa Hwfb Hev' Hids' Hlen' H1 H2).
    + destruct (wf_print now W h1 w1 Hwf1)
        as (ha & wa & lines & Hp & Hwfa & Hev' & Hids' & _).
      rewrite Hp in H1. simpl in H1.
      apply (IH ha h2 h1' h2' wa w2 w1' w2' Hwfa Hwf2); try assumption.
      * congruence.
      * congruence.
      * rewrite (print_store_length now W h1 ha w1 wa Hwf1 Hp). exact Hlen.
Qed.

End spinners_and_repaints.


Section frames.
Context `{Presentation}.

(** X5.  Repaints do not interfere with the event store: the events and
    their order after a trace are those after its record calls alone. *)
Theorem repaints_leave_events_alone (cs : list call) :
  exists (h h0 : store) (w w0 : ttyWriter.t),
    run cs [] ttyWriter.empty = Some (h, w) /\
    run (without_repaints cs) [] ttyWriter.empty = Some (h0, w0) /\
    ttyWriter.events w = ttyWriter.events w0 /\
    ttyWriter.eventIDs w = ttyWriter.eventIDs w0.
Proof.
  destruct (wf_run cs [] ttyWriter.empty wf_empty) as (h & w & Hr & _).
  destruct (wf_run (without_repaints cs) [] ttyWriter.empty wf_empty)
    as (h0 & w0 & Hr0 & _).
  exists h, h0, w, w0. split; [exact Hr|]. split; [exact Hr0|].
  apply (run_without_repaints cs [] [] h h0 ttyWriter.empty ttyWriter.empty w w0
           wf_empty wf_empty eq_refl eq_refl eq_refl Hr Hr0).
Qed.

Lemma seen_not_nil (ids : list string) (id : string) : seen ids id <> [].
Proof.
  unfold seen. destruct (contains ids id) eqn:Hc.
  - apply contains_elem_of in Hc. intros ->. inversion Hc.
  - destruct ids; discriminate.
Qed.

Lemma cursor_of_tracks (previous : option nat) (w : ttyWriter.t) :
  tracks previous w -> cursor_of w = cursor_after previous.
Proof.
  unfold tracks, cursor_of, cursor_after.
  destruct previous as [n|]; intros [-> ->]; simpl.
  - replace (Z.to_nat (Z.of_nat n + 1)) with (S n) by lia. reflexivity.
  - reflexivity.
Qed.

(** What a trace writes, from a state that remembers the previous frame:
    a sequence of frames, one per repaint made with an event known, each
    opening with the cursor movement over the one before. *)
Lemma run_frames (cs : list call) :
  forall (h : store) (w : ttyWriter.t) (previous : option nat),
  wf h w ->
  tracks previous w ->
  exists (h' : store) (w' : ttyWriter.t) (fs : list frame),
    run cs h w = Some (h', w') /\
    ttyWriter.out w' = ttyWriter.out w ++ frames_strings fs /\
    length fs = painted (bool_decide (ttyWriter.eventIDs w <> [])) cs /\
    chained previous fs /\
    Forall (fun f => frame_lines f <> []) fs /\
    map (fun f => length (frame_lines f)) fs
    = lines_painted (ttyWriter.eventIDs w) cs.
Proof.
  induction cs as [|c cs IH]; intros h w previous Hwf Htr.
  - exists h, w, []. simpl. rewrite app_nil_r. repeat split; constructor.
  - destruct c as [now e|now W].
    + destruct (wf_Event now e h w Hwf)
        as (h1 & w1 & He & Hwf1 & Hids & Hn & Ho & Hrep).
      assert (Htr1 : tracks previous w1).
      { unfold tracks in *. rewrite Hn, Hrep. exact Htr. }
      destruct (IH h1 w1 previous Hwf1 Htr1)
        as (h' & w' & fs & Hr & Hout & Hlen & Hch & Hne & Hcount).
      exists h', w', fs. simpl. rewrite He. simpl.
      split; [exact Hr|]. split; [rewrite Hout, Ho; reflexivity|].
      split; [|split; [exact Hch|split; [exact Hne|]]].
      * rewrite Hlen, Hids. rewrite bool_decide_true by apply seen_not_nil.
        reflexivity.
      * rewrite Hcount, Hids. reflexivity.
    + destruct (wf_print now W h w Hwf)
        as (h1 & w1 & lines & Hp & Hwf1 & Hev & Hids & Hn & Hall & Hnil & Hpaint).
      destruct (ttyWriter.eventIDs w) as [|v ids] eqn:Hk.
      * destruct (Hnil eq_refl) as [-> ->].
        destruct (IH h w previous Hwf Htr)
          as (h' & w' & fs & Hr & Hout & Hlen & Hch & Hne & Hcount).
        exists h', w', fs. simpl. rewrite Hp. simpl.
        split; [exact Hr|]. split; [exact Hout|].
        split; [|split; [exact Hch|split; [exact Hne|]]].
        { rewrite Hlen, Hk.
          rewrite bool_decide_false by (intros Hx; apply Hx; reflexivity).
          reflexivity. }
        rewrite Hcount, Hk. reflexivity.
      * assert (Hknown : v :: ids <> []) by discriminate.
        specialize (Hpaint Hknown).
        assert (Hrep1 : ttyWriter.repeated w1 = true).
        { destruct (print_lines_wf now W
                      (ttyWriter.statusPadding_of (ttyWriter.events w)
                                                  (ttyWriter.eventIDs w)) h w Hwf)
            as (lines' & h'' & Hpl & _ & _).
          assert (Hne : ttyWriter.eventIDs w <> []) by (rewrite Hk; discriminate).
          rewrite (print_known now W h h'' w lines' Hne Hpl) in Hp.
          injection Hp as _ <-. reflexivity. }
        assert (Htr1 : tracks (Some (length lines)) w1).
        { unfold tracks. split; [exact Hrep1|exact Hn]. }
        destruct (IH h1 w1 (Some (length lines)) Hwf1 Htr1)
          as (h' & w' & fs & Hr & Hout & Hlen & Hch & Hne & Hcount).
        exists h', w',
          ({| frame_cursor := cursor_of w;
              frame_header := header_of (numDone (ttyWriter.events w))
                                        (ttyWriter.numLines w);
              frame_lines := lines |} :: fs).
        simpl. rewrite Hp. simpl.
        split; [exact Hr|]. split.
        { rewrite Hout, Hpaint. unfold frames_strings. simpl.
          unfold frame_strings at 1. simpl. rewrite <- app_assoc. reflexivity. }
        split.
        { rewrite Hlen, Hids.
          rewrite !bool_decide_true by (try rewrite Hk; discriminate).
          reflexivity. }
        split.
        { split; [apply cursor_of_tracks; exact Htr|exact Hch]. }
        split.
        { constructor; [|exact Hne]. simpl.
          apply Forall2_length in Hall. intros ->. discriminate Hall. }
        simpl. rewrite Hcount, Hids.
        apply Forall2_length in Hall. rewrite <- Hall. reflexivity.
Qed.

(** X6.  The output is a sequence of frames, one for each repaint made
    while an event is known and none before: each frame is the cursor
    movement, the hiding of the cursor, the header, at least one line, and
    the showing of the cursor; nothing else is ever written, by a repaint or
    by a record call. *)
Theorem output_is_one_frame_per_repaint (cs : list call) :
  exists (h : store) (w : ttyWriter.t) (fs : list frame),
    run cs [] ttyWriter.empty = Some (h, w) /\
    ttyWriter.out w = frames_strings fs /\
    length fs = painted false cs /\
    Forall (fun f => frame_lines f <> []) fs.
Proof.
  destruct (run_frames cs [] ttyWriter.empty None wf_empty)
    as (h & w & fs & Hr & Hout & Hlen & _ & Hne & _).
  { split; reflexivity. }
  exists h, w, fs. split; [exact Hr|]. split; [exact Hout|].
  split; [exact Hlen|exact Hne].
Qed.

(** X7.  Each repaint moves the cursor over what the previous one wrote.
    The output of a trace is the sequence of its frames, one for each
    repaint made with an event known, the frame of a repaint having one line
    for each identifier known at that repaint; the first frame opens with
    one line up, one line down and the first column, and every later frame
    with as many lines up as the previous frame has lines, plus one for the
    header, and the first column. *)
Theorem cursor_moves_over_previous_frame (cs : list call) :
  exists (h : store) (w : ttyWriter.t) (fs : list frame),
    run cs [] ttyWriter.empty = Some (h, w) /\
    ttyWriter.out w = frames_strings fs /\
    length fs = painted false cs /\
    map (fun f => length (frame_lines f)) fs = lines_painted [] cs /\
    Forall (fun f => frame_lines f <> []) fs /\
    chained None fs.
Proof.
  destruct (run_frames cs [] ttyWriter.empty None wf_empty)
    as (h & w & fs & Hr & Hout & Hlen & Hch & Hne & Hcount).
  { split; reflexivity. }
  exists h, w, fs. split; [exact Hr|]. split; [exact Hout|].
  split; [exact Hlen|]. split; [exact Hcount|]. split; [exact Hne|exact Hch].
Qed.

End frames.


Section lines_and_header.
Context `{Presentation}.

(** The map has one entry per identifier of the list. *)
Lemma wf_size (h : store) (w : ttyWriter.t) :
  wf h w -> size (ttyWriter.events w) = length (ttyWriter.eventIDs w).
Proof.
  intros Hwf.
  rewrite <- (size_dom (D := gset string) (ttyWriter.events w)).
  rewrite <- (size_list_to_set (C := gset string) (ttyWriter.eventIDs w))
    by apply (wf_nodup h w Hwf).
  f_equal. apply set_eq. intros id.
  rewrite elem_of_dom, elem_of_list_to_set. symmetry. apply (wf_dom h w Hwf).
Qed.

(** X8.  A repaint writes one line per known event: after any trace, the
    number of lines a repaint writes, which the writer keeps in [numLines],
    is the number of events in the map, that is the number of distinct
    identifiers recorded so far. *)
Theorem repaint_writes_one_line_per_event (cs : list call)
    (now : time.Time) (W : Z) :
  exists (h h' : store) (w w' : ttyWriter.t) (lines : list string),
    run cs [] ttyWriter.empty = Some (h, w) /\
    ttyWriter.print now W h w = Some (h', w') /\
    (ttyWriter.eventIDs w <> [] ->
     exists cursor header,
       ttyWriter.out w' = ttyWriter.out w ++ frame_of cursor header lines) /\
    length lines = size (ttyWriter.events w) /\
    length lines = length (first_seen (recorded cs)) /\
    ttyWriter.numLines w' = Z.of_nat (size (ttyWriter.events w)).
Proof.
  destruct (wf_run cs [] ttyWriter.empty wf_empty) as (h & w & Hr & Hwf).
  destruct (wf_print now W h w Hwf)
    as (h' & w' & lines & Hp & _ & _ & _ & Hn & Hall & _ & Hout).
  exists h, h', w, w', lines. split; [exact Hr|]. split; [exact Hp|].
  split; [intros Hne; eexists _, _; apply (Hout Hne)|].
  apply Forall2_length in Hall.
  assert (Hsize : length lines = size (ttyWriter.events w)).
  { rewrite (wf_size h w Hwf). symmetry. exact Hall. }
  split; [exact Hsize|]. split; [|rewrite Hn, Hsize; reflexivity].
  rewrite <- Hall, (run_eventIDs cs _ _ _ _ wf_empty Hr). simpl.
  rewrite fold_seen_first_seen. simpl. rewrite filter_absent_nil. reflexivity.
Qed.

Lemma header_text_not_coloured (a b : Z) (s : string) :
  header_text a b <> aec.Apply s aec.BlueF.
Proof. unfold header_text, aec.Apply, aec.BlueF, aec.esc. discriminate. Qed.

(** Every stored event is done exactly when the done events are as many as
    the events. *)
Lemma all_done_iff_count (events : gmap string Event.t) :
  size (done_events events) = size events <->
  forall id e, events !! id = Some e -> Event.Status e = Done.
Proof.
  unfold done_events. split.
  - intros Hsize id e He.
    assert (Heq : filter (fun kv : string * Event.t => Event.Status kv.2 = Done)
                         events = events).
    { apply map_subseteq_size_eq; [apply map_filter_subseteq|lia]. }
    rewrite <- Heq in He. apply map_lookup_filter_Some in He as [_ Hd].
    exact Hd.
  - intros Hall. rewrite map_filter_id; [reflexivity|].
    intros id e He. simpl. apply (Hall id e He).
Qed.

(** X9.  From the second of two repaints in a row on, the header tells
    whether everything is done: with an event known and no record call since
    the previous repaint, the header is ["[+] Running n/n"] in the
    complete-state colour, [n] being the number of events, exactly when
    every stored event is [Done]. *)
Theorem header_complete_iff_all_done (cs : list call) (now0 : time.Time)
    (W0 : Z) :
  exists (h : store) (w : ttyWriter.t),
    run (cs ++ [Call_print now0 W0]) [] ttyWriter.empty = Some (h, w) /\
    forall (now : time.Time) (W : Z),
    ttyWriter.eventIDs w <> [] ->
    exists (h' : store) (w' : ttyWriter.t) (cursor header : string)
           (lines : list string),
      let n := Z.of_nat (size (ttyWriter.events w)) in
      ttyWriter.print now W h w = Some (h', w') /\
      ttyWriter.out w' = ttyWriter.out w ++ frame_of cursor header lines /\
      (header = aec.Apply (header_text n n) aec.BlueF <->
       forall id e, ttyWriter.events w !! id = Some e -> Event.Status e = Done).
Proof.
  destruct (wf_run cs [] ttyWriter.empty wf_empty) as (h0 & w0 & Hr0 & Hwf0).
  destruct (wf_print now0 W0 h0 w0 Hwf0)
    as (h & w & lines0 & Hp0 & Hwf & Hev0 & Hids0 & Hn0 & Hall0 & _).
  exists h, w. split.
  { rewrite run_app, Hr0. simpl. rewrite Hp0. reflexivity. }
  intros now W Hknown.
  destruct (wf_print now W h w Hwf)
    as (h' & w' & lines & Hp & _ & _ & _ & _ & _ & _ & Hout).
  exists h', w', (cursor_of w),
    (header_of (numDone (ttyWriter.events w)) (ttyWriter.numLines w)), lines.
  cbv zeta. split; [exact Hp|]. split; [apply (Hout Hknown)|].
  assert (Hlines : ttyWriter.numLines w = Z.of_nat (size (ttyWriter.events w))).
  { rewrite Hn0, (wf_size h w Hwf), Hids0.
    apply Forall2_length in Hall0. rewrite Hall0. reflexivity. }
  assert (Hpos : size (ttyWriter.events w) <> O).
  { rewrite (wf_size h w Hwf).
    destruct (ttyWriter.eventIDs w); [congruence|discriminate]. }
  rewrite Hlines, numDone_count, <- all_done_iff_count.
  split.
  - intros Hblue.
    destruct (decide (size (done_events (ttyWriter.events w))
                      = size (ttyWriter.events w))) as [Heq|Hne]; [exact Heq|].
    exfalso. unfold header_of in Hblue.
    destruct (Z.eqb_spec (Z.of_nat (size (done_events (ttyWriter.events w))))
                         (Z.of_nat (size (ttyWriter.events w)))) as [Heq|_];
      [lia|].
    simpl in Hblue. apply (header_text_not_coloured _ _ _ Hblue).
  - intros Heq. rewrite Heq. apply header_of_blue. split; [reflexivity|lia].
Qed.

(** X10.  The line of an event that is no longer working and whose spinner
    was stopped is stable: whatever the instant of the repaint, [lineText]
    gives the same line, with the same elapsed time, and leaves the spinner
    as it is. *)
Theorem frozen_line_is_stable (e : Event.t) (W P : Z) (h : store) (l : loc)
    (s : spinner.t) (now1 now2 : time.Time) :
  Event.Status e <> Working ->
  Event.spinner e = Some l ->
  h !! l = Some s ->
  spinner.stopped s = true ->
  exists line : string,
    lineText now1 e W P h = Some (line, h) /\
    lineText now2 e W P h = Some (line, h).
Proof.
  intros Hst Hl Hs Hstop.
  rewrite !(lineText_spec _ e W P h l s Hl Hs).
  unfold spinner.String. rewrite Hstop. simpl.
  rewrite (list_insert_id h l s Hs).
  exists (line_of now1 e W P (frame_at (spinner.index s))).
  split; [reflexivity|]. unfold line_of, timer_of.
  destruct (Event.Status e); [contradiction|reflexivity|reflexivity].
Qed.

(** X11.  Every line is in the colour of the status of its event (white
    while working, blue when done, red on error) and ends with a space, the
    elapsed time with its unit, a line feed, and the reset of the colour;
    the elapsed time runs to the current instant for a working event and to
    [endTime] otherwise. *)
Theorem line_is_coloured_and_timed (now : time.Time) (e : Event.t) (W P : Z)
    (h : store) (l : loc) (s : spinner.t) :
  Event.spinner e = Some l ->
  h !! l = Some s ->
  exists (body : string) (h' : store),
    lineText now e W P h
    = Some (color_of (Event.Status e) +:+ body +:+ " "
              +:+ format_f1 (time.Sub (if bool_decide (Event.Status e = Working)
                                       then now else Event.endTime e)
                                      (Event.startTime e))
              +:+ "s" +:+ Go.nl +:+ aec.Reset,
            h').
Proof.
  intros Hl Hs. rewrite (lineText_spec now e W P h l s Hl Hs).
  unfold line_of.
  destruct (align_shape
              (lineText_text (spinner.String s).1 e
                 (Go.replicate_string (padding_of P e) " "))
              (timer_of now e) W) as (pre & k & Hal & _).
  rewrite Hal.
  exists (pre +:+ lineText_text (spinner.String s).1 e
                    (Go.replicate_string (padding_of P e) " ")
              +:+ Go.replicate_string k " "),
    (<[l := (spinner.String s).2]> h).
  f_equal. f_equal. unfold aec.Apply, timer_of.
  rewrite !string_app_assoc.
  destruct (Event.Status e); reflexivity.
Qed.

End lines_and_header.

(** ** The length of an aligned line *)

Section align_length.

(** X12.  [align] right-aligns in bytes when the left part is ASCII: for
    [0 <= W - len(r) - 1 <= 10^6] and an ASCII [l] of at most
    [W - len(r) - 1] bytes, the line is exactly [W] bytes long; and when [l]
    has [W - len(r) - 1] code points or more, the line is [l], one space and
    [r] and so [len(l) + 1 + len(r)] bytes long. *)
Theorem align_length (l r : string) (W : Z) :
  0 <= W - Go.len r - 1 <= 1000000 ->
  (ascii_only l -> Go.len l <= W - Go.len r - 1 -> Go.len (align l r W) = W) /\
  (W - Go.len r - 1 <= utf8.RuneCountInString l ->
   Go.len (align l r W) = Go.len l + 1 + Go.len r).
Proof.
  intros Hn. rewrite align_accepted by lia.
  rewrite !len_app. unfold fmt.writePadding. rewrite len_replicate_space.
  replace (Go.len " ") with 1 by reflexivity.
  replace (Z.abs (W - Go.len r - 1)) with (W - Go.len r - 1) by lia.
  split.
  - intros Hascii Hfit.
    assert (Hrc : utf8.RuneCountInString l = Go.len l).
    { unfold utf8.RuneCountInString, Go.len.
      rewrite (count_fuel_ascii l Hascii). reflexivity. }
    rewrite Hrc. lia.
  - intros Hover. lia.
Qed.

End align_length.


Section start_output.
Context `{Presentation}.

(** X13.  All that [Start] writes is frames: when the stop signal is
    received after any record calls and ticks, [Start] returns nil and the
    output is a sequence of frames, one per tick made while an event was
    known and one for the final repaint if an event is known then, each
    opening with the cursor movement over the one before. *)
Theorem Start_writes_frames (ctxErr : ttyWriter.error) (cs : list call)
    (now : time.Time) (W : Z) :
  exists (h : store) (w : ttyWriter.t) (fs : list frame),
    ttyWriter.Start ctxErr
      (schedule_of cs ++ [ttyWriter.Wake ttyWriter.w_done now W])
      [] ttyWriter.empty
    = ttyWriter.Returned None h w /\
    ttyWriter.out w = frames_strings fs /\
    length fs = painted false (cs ++ [Call_print now W]) /\
    chained None fs.
Proof.
  destruct (run_frames (cs ++ [Call_print now W]) [] ttyWriter.empty None wf_empty)
    as (h & w & fs & Hr & Hout & Hlen & Hch & _).
  { split; reflexivity. }
  exists h, w, fs. split; [|split; [exact Hout|split; [exact Hlen|exact Hch]]].
  rewrite Start_run. rewrite run_app in Hr.
  destruct (run cs [] ttyWriter.empty) as [[h0 w0]|]; [|discriminate].
  simpl in Hr. simpl.
  destruct (ttyWriter.print now W h0 w0) as [[h1 w1]|]; [|discriminate].
  simpl in Hr. injection Hr as <- <-. reflexivity.
Qed.

End start_output.


(** ** The ACI context helper *)

Section helper.
Context `{azure.userSelector}
        `{contextCreateACIHelper.ACIResourceGroupHelper}
        `{contextCreateACIHelper.Library}.

Import contextCreateACIHelper.

Lemma chooseSub_options_labels (subs : list azure.Model.t) :
  forall acc : list string,
  Forall named subs ->
  azure.chooseSub_options subs acc
  = ([], azure.Returns (acc ++ map sub_label subs)).
Proof.
  induction subs as [|sub subs IH]; intros acc Hall.
  - simpl. rewrite app_nil_r. reflexivity.
  - apply Forall_cons in Hall as [[[name Hn] [id Hi]] Hall].
    cbn [azure.chooseSub_options]. rewrite Hn, Hi. simpl.
    rewrite (IH _ Hall). simpl. rewrite <- app_assoc. simpl.
    unfold sub_label. rewrite Hn, Hi. reflexivity.
Qed.

Lemma chooseGroup_names_labels (groups : list resources.Group) :
  forall acc : list string,
  Forall named_group groups ->
  chooseGroup_names groups acc = ([], azure.Returns (acc ++ map group_label groups)).
Proof.
  induction groups as [|g groups IH]; intros acc Hall.
  - simpl. rewrite app_nil_r. reflexivity.
  - apply Forall_cons in Hall as [[[name Hn] [loc Hl]] Hall].
    cbn [chooseGroup_names]. rewrite Hn, Hl. simpl.
    rewrite (IH _ Hall). simpl. rewrite <- app_assoc. simpl.
    unfold group_label. rewrite Hn, Hl. reflexivity.
Qed.

(** The loop of [chooseGroup] has no effect: it returns names or panics on
    a nil field. *)
Lemma chooseGroup_names_silent (groups : list resources.Group) :
  forall acc : list string, fst (chooseGroup_names groups acc) = [].
Proof.
  induction groups as [|g groups IH]; intros acc; [reflexivity|].
  cbn [chooseGroup_names].
  destruct (resources.Name g) as [name|]; [|reflexivity].
  destruct (resources.Location g) as [loc|]; [|reflexivity]. simpl.
  specialize (IH (acc ++ [name +:+ " (" +:+ loc +:+ ")"])).
  destruct (chooseGroup_names groups _) as [tr r]. simpl in *. subst tr.
  destruct r; reflexivity.
Qed.

End helper.


Section selection.
Context `{azure.userSelector}
        `{contextCreateACIHelper.ACIResourceGroupHelper}
        `{contextCreateACIHelper.Library}.

Import contextCreateACIHelper.

(** X14.  With two subscriptions or more (or none), all with their fields
    set, [chooseSub] prompts once, with one option [name(id)] per
    subscription in order, and returns the identifier of the subscription at
    the selected index, with a nil error. *)
Theorem chooseSub_returns_selected (subs : list azure.Model.t) (i : Z)
    (sub : azure.Model.t) (id : string) :
  length subs <> 1%nat ->
  Forall named subs ->
  azure.userSelect "Select a subscription ID" (map sub_label subs) = (i, None) ->
  0 <= i ->
  subs !! Z.to_nat i = Some sub ->
  azure.Model.SubscriptionID sub = Some id ->
  azure.chooseSub subs
  = ([azure.Prompted "Select a subscription ID" (map sub_label subs)],
     azure.Returns (id, None)).
Proof.
  intros Hlen Hall Hsel Hi Hsub Hid. unfold azure.chooseSub.
  destruct (Z.eqb_spec (Z.of_nat (length subs)) 1) as [Heq|_]; [lia|].
  rewrite (chooseSub_options_labels subs [] Hall). simpl.
  rewrite Hsel. unfold azure.index.
  destruct (Z.ltb_spec i 0); [lia|]. rewrite Hsub. simpl. rewrite Hid.
  reflexivity.
Qed.

(** X15.  How [chooseSub] fails once it prompts: an interrupt ends the
    process with status 0; another error of the selector is returned with an
    empty identifier; an index outside the list makes it panic.  Nothing is
    printed in any of these cases. *)
Theorem chooseSub_failures (subs : list azure.Model.t) (i : Z)
    (err : option azure.error) :
  length subs <> 1%nat ->
  Forall named subs ->
  azure.userSelect "Select a subscription ID" (map sub_label subs) = (i, err) ->
  let prompted :=
    [azure.Prompted "Select a subscription ID" (map sub_label subs)] in
  (err = Some azure.InterruptErr ->
   azure.chooseSub subs = (prompted, azure.Exits 0)) /\
  (forall e, err = Some e -> e <> azure.InterruptErr ->
   azure.chooseSub subs = (prompted, azure.Returns ("", Some e))) /\
  (err = None -> i < 0 \/ Z.of_nat (length subs) <= i ->
   azure.chooseSub subs = (prompted, azure.Panics)).
Proof.
  intros Hlen Hall Hsel prompted. unfold prompted, azure.chooseSub.
  destruct (Z.eqb_spec (Z.of_nat (length subs)) 1) as [Heq|_]; [lia|].
  rewrite (chooseSub_options_labels subs [] Hall). simpl.
  rewrite Hsel. split; [|split].
  - intros ->. reflexivity.
  - intros e -> Hne. rewrite bool_decide_false by exact Hne. reflexivity.
  - intros -> Hout. unfold azure.index.
    destruct (Z.ltb_spec i 0) as [Hneg|Hpos]; [reflexivity|].
    rewrite (proj2 (lookup_ge_None subs (Z.to_nat i))) by lia. reflexivity.
Qed.

(** X16.  With every group named, [chooseGroup] prompts once, with the
    option to create a group followed by one option [name (location)] per
    group in order; selecting the option [i >= 1] returns the group listed
    there, [groups[i-1]], with a nil error, and calls no API. *)
Theorem chooseGroup_returns_listed_group (subscriptionID : string)
    (opts : gmap string string) (groups : list resources.Group) (i : Z)
    (g : resources.Group) :
  Forall named_group groups ->
  azure.userSelect "Select a resource group" (group_options groups) = (i, None) ->
  1 <= i <= Go.int_max ->
  groups !! Z.to_nat (i - 1) = Some g ->
  chooseGroup subscriptionID opts groups
  = ([Io (azure.Prompted "Select a resource group" (group_options groups))],
     azure.Returns (g, None)).
Proof.
  intros Hall Hsel Hi Hg. unfold chooseGroup.
  rewrite (chooseGroup_names_labels groups _ Hall). simpl.
  fold (group_options groups). rewrite Hsel. simpl.
  destruct (Z.eqb_spec i 0); [lia|].
  rewrite wrap_id by (unfold Go.is_int, Go.int_min, Go.int_max in *; lia).
  unfold index. destruct (Z.ltb_spec (i - 1) 0); [lia|].
  rewrite Hg. reflexivity.
Qed.

(** X17.  Selecting the first option of [chooseGroup] creates a group: one
    call of [CreateOrUpdate], for the subscription, under the identifier
    drawn by [uuid.New()], at the location [opts["aciLocation"]] or, when
    this is empty, ["eastus"]; the group the call returns is reported on the
    output and returned.  When the call fails its error is returned with the
    zero group and nothing is printed. *)
Theorem chooseGroup_creates_group (subscriptionID : string)
    (opts : gmap string string) (groups : list resources.Group)
    (g : resources.Group) (err : option azure.error) :
  Forall named_group groups ->
  azure.userSelect "Select a resource group" (group_options groups) = (0, None) ->
  let request :=
    {| resources.Name := None;
       resources.Location := Some (location_or_eastus (opt opts "aciLocation")) |} in
  CreateOrUpdate subscriptionID uuid_New_String request = (g, err) ->
  let prompted :=
    Io (azure.Prompted "Select a resource group" (group_options groups)) in
  let called := Api (Called_CreateOrUpdate subscriptionID uuid_New_String request) in
  (forall name loc,
     err = None -> resources.Name g = Some name ->
     resources.Location g = Some loc ->
     chooseGroup subscriptionID opts groups
     = ([prompted; called;
         Io (azure.Printed ("Resource group " +:+ quote name +:+ " (" +:+ loc
                              +:+ ") created"))],
        azure.Returns (g, None))) /\
  (forall e,
     err = Some e ->
     chooseGroup subscriptionID opts groups
     = ([prompted; called], azure.Returns (resources.zero, Some (Plain e)))).
Proof.
  intros Hall Hsel request Hcreate prompted called.
  unfold prompted, called, request in *. unfold chooseGroup.
  rewrite (chooseGroup_names_labels groups _ Hall). simpl.
  fold (group_options groups). rewrite Hsel. simpl.
  unfold createGroup, call_CreateOrUpdate. fold (location_or_eastus (opt opts "aciLocation")).
  simpl. rewrite Hcreate. split.
  - intros name loc -> Hn Hl. rewrite Hn, Hl. reflexivity.
  - intros e ->. reflexivity.
Qed.

(** X18.  How [chooseGroup] fails: a group with a nil name or location makes
    it panic before it prompts; once it prompted, an interrupt ends the
    process with status 0, another error of the selector is returned with the
    zero group, and an index outside the options makes it panic.  In none of
    these cases is an API called. *)
Theorem chooseGroup_failures (subscriptionID : string)
    (opts : gmap string string) (groups : list resources.Group) :
  Z.of_nat (length groups) <= Go.int_max ->
  (~ Forall named_group groups ->
   chooseGroup subscriptionID opts groups = ([], azure.Panics)) /\
  (Forall named_group groups ->
   forall (i : Z) (err : option azure.error),
   azure.userSelect "Select a resource group" (group_options groups) = (i, err) ->
   let prompted :=
     [Io (azure.Prompted "Select a resource group" (group_options groups))] in
   (err = Some azure.InterruptErr ->
    chooseGroup subscriptionID opts groups = (prompted, azure.Exits 0)) /\
   (forall e, err = Some e -> e <> azure.InterruptErr ->
    chooseGroup subscriptionID opts groups
    = (prompted, azure.Returns (resources.zero, Some (Plain e)))) /\
   (err = None -> Go.is_int i -> i < 0 \/ Z.of_nat (length groups) < i ->
    chooseGroup subscriptionID opts groups = (prompted, azure.Panics))).
Proof.
  intros Hbound. split.
  - intros Hnot. unfold chooseGroup.
    assert (Hpanic : forall acc, chooseGroup_names groups acc = ([], azure.Panics)).
    { induction groups as [|g groups IH]; intros acc.
      - exfalso. apply Hnot. constructor.
      - cbn [chooseGroup_names].
        destruct (resources.Name g) as [name|] eqn:Hn; [|reflexivity].
        destruct (resources.Location g) as [loc|] eqn:Hl; [|reflexivity].
        simpl. rewrite IH; [reflexivity| |].
        + simpl in Hbound. lia.
        + intros Hall. apply Hnot. constructor; [|exact Hall].
          split; [rewrite Hn|rewrite Hl]; eauto. }
    rewrite Hpanic. reflexivity.
  - intros Hall i err Hsel prompted. unfold prompted, chooseGroup.
    rewrite (chooseGroup_names_labels groups _ Hall). simpl.
    fold (group_options groups). rewrite Hsel. simpl.
    split; [|split].
    + intros ->. reflexivity.
    + intros e -> Hne. rewrite bool_decide_false by exact Hne. reflexivity.
    + intros -> Hint Hout.
      destruct (Z.eqb_spec i 0) as [->|Hnz]; [lia|].
      unfold index.
      destruct (Z.ltb_spec (Go.wrap (i - 1)) 0) as [Hneg|Hpos]; [reflexivity|].
      rewrite (proj2 (lookup_ge_None groups (Z.to_nat (Go.wrap (i - 1))))); [reflexivity|].
      unfold Go.is_int, Go.int_min, Go.int_max in *.
      destruct (Z.eq_dec i (- 2 ^ 63)) as [->|Hmin].
      * assert (Hw : Go.wrap (- 2 ^ 63 - 1) = 2 ^ 63 - 1) by reflexivity.
        rewrite Hw. lia.
      * rewrite wrap_id in * by (unfold Go.is_int, Go.int_min, Go.int_max; lia).
        lia.
Qed.

End selection.


Section context_data.
Context `{azure.userSelector}
        `{contextCreateACIHelper.ACIResourceGroupHelper}
        `{contextCreateACIHelper.Library}.

Import contextCreateACIHelper.

(** The end of [createContextData] has no effect; when it returns, it
    returns a context for the subscription, without error. *)
Lemma createContextData_finish_result (opts : gmap string string)
    (subscriptionID : string) (group : resources.Group) :
  fst (createContextData_finish opts subscriptionID group) = [] /\
  forall data desc err,
    snd (createContextData_finish opts subscriptionID group)
    = azure.Returns (data, desc, err) ->
    err = None /\
    exists name loc,
      resources.Name group = Some name /\
      (if String.eqb (opt opts "aciLocation") ""
       then resources.Location group = Some loc
       else opt opts "aciLocation" = loc) /\
      data = Some {| AciContext.SubscriptionID := subscriptionID;
                     AciContext.Location := loc;
                     AciContext.ResourceGroup := name |} /\
      desc = description_of opts name loc.
Proof.
  unfold createContextData_finish, description_of.
  destruct (String.eqb (opt opts "aciLocation") "") eqn:Hloc.
  - destruct (resources.Location group) as [loc|]; simpl; [|split; [reflexivity|discriminate]].
    destruct (resources.Name group) as [name|]; simpl; [|split; [reflexivity|discriminate]].
    split; [reflexivity|]. intros data desc err [= <- <- <-].
    split; [reflexivity|]. exists name, loc.
    split; [reflexivity|]. split; [assumption || reflexivity|].
    split; [reflexivity|].
    destruct (String.eqb (opt opts "description") ""); reflexivity.
  - simpl.
    destruct (resources.Name group) as [name|]; simpl; [|split; [reflexivity|discriminate]].
    split; [reflexivity|]. intros data desc err [= <- <- <-].
    split; [reflexivity|]. exists name, (opt opts "aciLocation").
    split; [reflexivity|]. split; [assumption || reflexivity|].
    split; [reflexivity|].
    destruct (String.eqb (opt opts "description") ""); reflexivity.
Qed.

Lemma createContextData_finish_named (opts : gmap string string)
    (subscriptionID : string) (group : resources.Group) (name loc : string) :
  resources.Name group = Some name ->
  (if String.eqb (opt opts "aciLocation") ""
   then resources.Location group = Some loc
   else opt opts "aciLocation" = loc) ->
  createContextData_finish opts subscriptionID group
  = ([], azure.Returns
           (Some {| AciContext.SubscriptionID := subscriptionID;
                    AciContext.Location := loc;
                    AciContext.ResourceGroup := name |},
            description_of opts name loc, None)).
Proof.
  intros Hn Hl. unfold createContextData_finish, description_of.
  destruct (String.eqb (opt opts "aciLocation") "").
  - rewrite Hl, Hn. simpl.
    destruct (String.eqb (opt opts "description") ""); reflexivity.
  - rewrite Hn, Hl. simpl.
    destruct (String.eqb (opt opts "description") ""); reflexivity.
Qed.

(** What [createGroup] and [chooseGroup] do is done for the subscription
    they are given. *)
Lemma chooseGroup_uses_subscription (subscriptionID : string)
    (opts : gmap string string) (groups : list resources.Group) :
  Forall (uses_subscription subscriptionID)
         (fst (chooseGroup subscriptionID opts groups)).
Proof.
  unfold chooseGroup.
  pose proof (chooseGroup_names_silent groups ["create a new resource group"]) as Hs.
  destruct (chooseGroup_names groups ["create a new resource group"]) as [tr [names|code|]];
    simpl in Hs; subst tr; simpl; try constructor.
  destruct (azure.userSelect "Select a resource group" names) as [i [e|]]; simpl.
  - destruct (bool_decide (e = azure.InterruptErr)); simpl;
      repeat constructor.
  - destruct (Z.eqb_spec i 0) as [->|Hnz].
    + unfold createGroup, call_CreateOrUpdate. simpl.
      destruct (CreateOrUpdate _ _ _) as [g [e|]]; simpl; [repeat constructor|].
      destruct (resources.Name g); simpl; [|repeat constructor].
      destruct (resources.Location g); simpl; repeat constructor.
    + unfold index. destruct (Go.wrap (i - 1) <? 0); simpl; [repeat constructor|].
      destruct (groups !! Z.to_nat (Go.wrap (i - 1))); simpl; repeat constructor.
Qed.

End context_data.


Section createContextData_properties.
Context `{azure.userSelector}
        `{contextCreateACIHelper.ACIResourceGroupHelper}
        `{contextCreateACIHelper.Library}.

Import contextCreateACIHelper.

(** X19.  When the options name the subscription and the resource group and
    the group is found, [createContextData] asks nothing and calls the API
    once, to get the group.  The context has the subscription of the
    options, the name of the group found and the location of the options or,
    when they give none, that of the group; the description is
    [name@location], put in parentheses after [opts["description"]] when
    this is not empty. *)
Theorem createContextData_from_options (opts : gmap string string)
    (g : resources.Group) (name loc : string) :
  let subscriptionID := opt opts "aciSubscriptionID" in
  let groupName := opt opts "aciResourceGroup" in
  subscriptionID <> "" ->
  groupName <> "" ->
  GetGroup subscriptionID groupName = (g, None) ->
  resources.Name g = Some name ->
  (if String.eqb (opt opts "aciLocation") ""
   then resources.Location g = Some loc
   else opt opts "aciLocation" = loc) ->
  createContextData opts
  = ([Api (Called_GetGroup subscriptionID groupName)],
     azure.Returns
       (Some {| AciContext.SubscriptionID := subscriptionID;
                AciContext.Location := loc;
                AciContext.ResourceGroup := name |},
        description_of opts name loc, None)).
Proof.
  intros subscriptionID groupName Hsub Hrg Hget Hn Hl.
  unfold createContextData, createContextData_group.
  fold subscriptionID. fold groupName.
  apply String.eqb_neq in Hsub. apply String.eqb_neq in Hrg.
  rewrite Hsub, Hrg. simpl. unfold call_GetGroup. simpl. rewrite Hget.
  rewrite (createContextData_finish_named opts subscriptionID g name loc Hn Hl).
  reflexivity.
Qed.

(** Once the subscription is known, [createContextData] goes on with the
    resource group for it. *)
Lemma createContextData_known (opts : gmap string string)
    (tr : list effect) (subscriptionID : string) :
  subscription_known opts tr subscriptionID ->
  createContextData opts
  = (tr ++ fst (createContextData_group opts subscriptionID),
     snd (createContextData_group opts subscriptionID)).
Proof.
  intros [Hsub|subs tr' id Hsub Hsubs Hchoose]; unfold createContextData.
  - apply String.eqb_neq in Hsub. rewrite Hsub. simpl.
    destruct (createContextData_group _ _); reflexivity.
  - rewrite Hsub. simpl. unfold call_GetSubscriptionIDs. simpl.
    rewrite Hsubs. unfold lift. rewrite Hchoose. simpl.
    destruct (createContextData_group opts id); reflexivity.
Qed.

(** X20.  A failure of the API ends [createContextData] at once, with a nil
    context and an empty description, however the subscription was come by,
    from the options or from the account: the error of [GetSubscriptionIDs],
    of [ListGroups] and of [CreateOrUpdate] is returned as it is, that of
    [GetGroup] under the message that the resource group could not be found.
    The failing call is the last effect: nothing is asked and no other API
    is called after the failure. *)
Theorem createContextData_api_failures (opts : gmap string string)
    (e : azure.error) :
  let groupName := opt opts "aciResourceGroup" in
  (forall subs,
     opt opts "aciSubscriptionID" = "" ->
     GetSubscriptionIDs = (subs, Some e) ->
     createContextData opts
     = ([Api Called_GetSubscriptionIDs],
        azure.Returns (None, "", Some (Plain e)))) /\
  (forall tr subscriptionID g,
     subscription_known opts tr subscriptionID ->
     groupName <> "" ->
     GetGroup subscriptionID groupName = (g, Some e) ->
     createContextData opts
     = (tr ++ [Api (Called_GetGroup subscriptionID groupName)],
        azure.Returns
          (None, "",
           Some (WithMessage ("Could not find resource group "
                                +:+ quote groupName) (Plain e))))) /\
  (forall tr subscriptionID groups,
     subscription_known opts tr subscriptionID ->
     groupName = "" ->
     ListGroups subscriptionID = (groups, Some e) ->
     createContextData opts
     = (tr ++ [Api (Called_ListGroups subscriptionID)],
        azure.Returns (None, "", Some (Plain e)))) /\
  (forall tr subscriptionID groups g,
     subscription_known opts tr subscriptionID ->
     groupName = "" ->
     ListGroups subscriptionID = (groups, None) ->
     Forall named_group groups ->
     azure.userSelect "Select a resource group" (group_options groups)
     = (0, None) ->
     let request :=
       {| resources.Name := None;
          resources.Location :=
            Some (location_or_eastus (opt opts "aciLocation")) |} in
     CreateOrUpdate subscriptionID uuid_New_String request = (g, Some e) ->
     createContextData opts
     = (tr ++ [Api (Called_ListGroups subscriptionID);
               Io (azure.Prompted "Select a resource group"
                                  (group_options groups));
               Api (Called_CreateOrUpdate subscriptionID uuid_New_String
                                          request)],
        azure.Returns (None, "", Some (Plain e)))).
Proof.
  intros groupName. split; [|split; [|split]].
  - intros subs Hsub Hget. unfold createContextData. rewrite Hsub. simpl.
    unfold call_GetSubscriptionIDs. simpl. rewrite Hget. reflexivity.
  - intros tr subscriptionID g Hknown Hrg Hget.
    rewrite (createContextData_known opts tr subscriptionID Hknown).
    unfold createContextData_group. fold groupName.
    apply String.eqb_neq in Hrg. rewrite Hrg. simpl.
    unfold call_GetGroup. simpl. rewrite Hget. reflexivity.
  - intros tr subscriptionID groups Hknown Hrg Hlist.
    rewrite (createContextData_known opts tr subscriptionID Hknown).
    unfold createContextData_group. fold groupName. rewrite Hrg. simpl.
    unfold call_ListGroups. simpl. rewrite Hlist. reflexivity.
  - intros tr subscriptionID groups g Hknown Hrg Hlist Hall Hsel request
      Hcreate.
    rewrite (createContextData_known opts tr subscriptionID Hknown).
    unfold createContextData_group. fold groupName. rewrite Hrg. simpl.
    unfold call_ListGroups. simpl. rewrite Hlist. unfold chooseGroup.
    rewrite (chooseGroup_names_labels groups _ Hall). simpl.
    fold (group_options groups). rewrite Hsel. simpl.
    unfold createGroup, call_CreateOrUpdate.
    fold (location_or_eastus (opt opts "aciLocation")). fold request.
    simpl. rewrite Hcreate. reflexivity.
Qed.

(** Once the subscription is known, everything is done for it. *)
Lemma createContextData_group_uses_subscription (opts : gmap string string)
    (subscriptionID : string) :
  Forall (uses_subscription subscriptionID)
         (fst (createContextData_group opts subscriptionID)).
Proof.
  unfold createContextData_group.
  destruct (negb (String.eqb (opt opts "aciResourceGroup") "")).
  - unfold call_GetGroup. simpl.
    destruct (GetGroup _ _) as [g [e|]]; simpl; [repeat constructor|].
    destruct (createContextData_finish_result opts subscriptionID g) as [Htr _].
    destruct (createContextData_finish opts subscriptionID g) as [tr r].
    simpl in Htr. subst tr. repeat constructor.
  - unfold call_ListGroups. simpl.
    destruct (ListGroups subscriptionID) as [groups [e|]]; simpl;
      [repeat constructor|].
    pose proof (chooseGroup_uses_subscription subscriptionID opts groups) as Hc.
    destruct (chooseGroup subscriptionID opts groups) as [tr [[g [e|]]|code|]];
      simpl in Hc |- *.
    + constructor; [reflexivity|]. rewrite app_nil_r. exact Hc.
    + destruct (createContextData_finish_result opts subscriptionID g) as [Htr _].
      destruct (createContextData_finish opts subscriptionID g) as [tr' r].
      simpl in Htr. subst tr'. simpl.
      constructor; [reflexivity|]. rewrite app_nil_r. exact Hc.
    + constructor; [reflexivity|exact Hc].
    + constructor; [reflexivity|exact Hc].
Qed.

(** X21.  When the options name the subscription, [createContextData]
    neither lists the subscriptions nor asks for one: whatever the API and
    the user answer, every call of the API is made for the subscription of
    the options, and the only prompt there can be is the one for a resource
    group. *)
Theorem createContextData_keeps_given_subscription (opts : gmap string string) :
  opt opts "aciSubscriptionID" <> "" ->
  Forall (uses_subscription (opt opts "aciSubscriptionID"))
         (fst (createContextData opts)).
Proof.
  intros Hsub. unfold createContextData.
  apply String.eqb_neq in Hsub. rewrite Hsub. simpl.
  apply createContextData_group_uses_subscription.
Qed.

Lemma createContextData_group_result (opts : gmap string string)
    (subscriptionID : string) (data : option AciContext.t) (desc : string)
    (err : option error) :
  snd (createContextData_group opts subscriptionID)
  = azure.Returns (data, desc, err) ->
  match err with
  | Some _ => data = None /\ desc = ""
  | None =>
      exists c,
        data = Some c /\
        AciContext.SubscriptionID c = subscriptionID /\
        (opt opts "aciLocation" <> "" ->
         AciContext.Location c = opt opts "aciLocation") /\
        desc = description_of opts (AciContext.ResourceGroup c)
                              (AciContext.Location c)
  end.
Proof.
  assert (Hfinish : forall g,
             snd (createContextData_finish opts subscriptionID g)
             = azure.Returns (data, desc, err) ->
             match err with
             | Some _ => data = None /\ desc = ""
             | None =>
                 exists c,
                   data = Some c /\
                   AciContext.SubscriptionID c = subscriptionID /\
                   (opt opts "aciLocation" <> "" ->
                    AciContext.Location c = opt opts "aciLocation") /\
                   desc = description_of opts (AciContext.ResourceGroup c)
                                         (AciContext.Location c)
             end).
  { intros g Hr.
    destruct (createContextData_finish_result opts subscriptionID g) as [_ Hres].
    destruct (Hres data desc err Hr) as (-> & name & loc & Hn & Hl & -> & ->).
    eexists. split; [reflexivity|]. simpl. split; [reflexivity|].
    split; [|reflexivity]. intros Hne. apply String.eqb_neq in Hne.
    rewrite Hne in Hl. symmetry. exact Hl. }
  unfold createContextData_group.
  destruct (negb (String.eqb (opt opts "aciResourceGroup") "")).
  - unfold call_GetGroup. simpl.
    destruct (GetGroup _ _) as [g [e|]]; simpl.
    + intros [= <- <- <-]. split; reflexivity.
    + destruct (createContextData_finish opts subscriptionID g) as [tr r] eqn:Hf.
      simpl. intros ->. apply (Hfinish g). rewrite Hf. reflexivity.
  - unfold call_ListGroups. simpl.
    destruct (ListGroups subscriptionID) as [groups [e|]]; simpl.
    + intros [= <- <- <-]. split; reflexivity.
    + destruct (chooseGroup subscriptionID opts groups) as [tr [[g [e|]]|code|]];
        simpl; try discriminate.
      * intros [= <- <- <-]. split; reflexivity.
      * destruct (createContextData_finish opts subscriptionID g) as [tr' r] eqn:Hf.
        simpl. intros ->. apply (Hfinish g). rewrite Hf. reflexivity.
Qed.

(** X22.  Whenever [createContextData] returns: with an error, the context
    is nil and the description empty; without one, there is a context, it
    has the subscription and the location of the options where these give
    one, and the description is built from the name and the location of the
    context. *)
Theorem createContextData_result (opts : gmap string string)
    (tr : list effect) (data : option AciContext.t) (desc : string)
    (err : option error) :
  createContextData opts = (tr, azure.Returns (data, desc, err)) ->
  match err with
  | Some _ => data = None /\ desc = ""
  | None =>
      exists c,
        data = Some c /\
        (opt opts "aciSubscriptionID" <> "" ->
         AciContext.SubscriptionID c = opt opts "aciSubscriptionID") /\
        (opt opts "aciLocation" <> "" ->
         AciContext.Location c = opt opts "aciLocation") /\
        desc = description_of opts (AciContext.ResourceGroup c)
                              (AciContext.Location c)
  end.
Proof.
  intros Hr. apply (f_equal snd) in Hr. simpl in Hr.
  assert (Hgroup : forall subscriptionID,
             (opt opts "aciSubscriptionID" <> "" ->
              subscriptionID = opt opts "aciSubscriptionID") ->
             snd (createContextData_group opts subscriptionID)
             = azure.Returns (data, desc, err) ->
             match err with
             | Some _ => data = None /\ desc = ""
             | None =>
                 exists c,
                   data = Some c /\
                   (opt opts "aciSubscriptionID" <> "" ->
                    AciContext.SubscriptionID c = opt opts "aciSubscriptionID") /\
                   (opt opts "aciLocation" <> "" ->
                    AciContext.Location c = opt opts "aciLocation") /\
                   desc = description_of opts (AciContext.ResourceGroup c)
                                         (AciContext.Location c)
             end).
  { intros subscriptionID Hsame Hg.
    pose proof (createContextData_group_result opts subscriptionID data desc err Hg) as Hres.
    destruct err; [exact Hres|].
    destruct Hres as (c & -> & Hs & Hl & ->).
    exists c. split; [reflexivity|]. split; [|split; [exact Hl|reflexivity]].
    intros Hne. rewrite Hs. apply Hsame. exact Hne. }
  unfold createContextData in Hr.
  destruct (String.eqb (opt opts "aciSubscriptionID") "") eqn:Hsub; simpl in Hr.
  - apply String.eqb_eq in Hsub.
    unfold call_GetSubscriptionIDs in Hr. simpl in Hr.
    destruct GetSubscriptionIDs as [subs [e|]]; simpl in Hr.
    + injection Hr as <- <- <-. split; reflexivity.
    + unfold lift in Hr.
      destruct (azure.chooseSub subs) as [tr' [[id [e|]]|code|]];
        simpl in Hr; try discriminate.
      * injection Hr as <- <- <-. split; reflexivity.
      * destruct (createContextData_group opts id) as [tr'' r] eqn:Hg.
        simpl in Hr. subst r. apply (Hgroup id).
        -- intros Hne. contradiction.
        -- rewrite Hg. reflexivity.
  - apply (Hgroup (opt opts "aciSubscriptionID")); [reflexivity|].
    destruct (createContextData_group opts (opt opts "aciSubscriptionID"))
      as [tr'' r]. exact Hr.
Qed.

(** X23.  With no subscription in the options, a single subscription on
    the account and the resource group named in the options,
    [createContextData] asks nothing: it lists the subscriptions, says which
    one it uses, gets the group for it, and returns the context of that
    subscription. *)
Theorem createContextData_sole_subscription (opts : gmap string string)
    (sub : azure.Model.t) (display id : string) (g : resources.Group)
    (name loc : string) :
  opt opts "aciSubscriptionID" = "" ->
  opt opts "aciResourceGroup" <> "" ->
  GetSubscriptionIDs = ([sub], None) ->
  azure.Model.DisplayName sub = Some display ->
  azure.Model.SubscriptionID sub = Some id ->
  GetGroup id (opt opts "aciResourceGroup") = (g, None) ->
  resources.Name g = Some name ->
  (if String.eqb (opt opts "aciLocation") ""
   then resources.Location g = Some loc
   else opt opts "aciLocation" = loc) ->
  createContextData opts
  = ([Api Called_GetSubscriptionIDs;
      Io (azure.Printed ("Using only available subscription : " +:+ display
                           +:+ "(" +:+ id +:+ ")"));
      Api (Called_GetGroup id (opt opts "aciResourceGroup"))],
     azure.Returns
       (Some {| AciContext.SubscriptionID := id;
                AciContext.Location := loc;
                AciContext.ResourceGroup := name |},
        description_of opts name loc, None)).
Proof.
  intros Hsub Hrg Hsubs Hd Hi Hget Hn Hl.
  unfold createContextData, createContextData_group.
  rewrite Hsub. simpl. unfold call_GetSubscriptionIDs. simpl. rewrite Hsubs.
  unfold lift, azure.chooseSub. simpl. rewrite Hd, Hi. simpl.
  apply String.eqb_neq in Hrg. rewrite Hrg. simpl.
  unfold call_GetGroup. simpl. rewrite Hget.
  rewrite (createContextData_finish_named opts id g name loc Hn Hl).
  reflexivity.
Qed.

End createContextData_properties.


(** * The properties at work on concrete runs *)

(** ** The formatting primitives *)

Example itoa_examples :
  (Go.itoa 0, Go.itoa 7, Go.itoa 10, Go.itoa 1234, Go.itoa (-305))
  = ("0", "7", "10", "1234", "-305").
Proof. reflexivity. Qed.

(** A braille glyph is three bytes and one code point. *)
Example braille_glyph_is_one_code_point :
  Go.len " ⠋ a" = 6 /\ utf8.RuneCountInString " ⠋ a" = 4.
Proof. split; reflexivity. Qed.

(** [strings.Repeat] panics on a negative count: what the clamp in
    [lineText] avoids. *)
Example Repeat_examples :
  Go.Repeat " " (-1) = None /\ Go.Repeat " " 3 = Some "   " /\
  Go.Repeat "ab" 0 = Some "".
Proof. repeat split; reflexivity. Qed.

Example align_examples :
  align "x" "0.0s" 20 = "x               0.0s" /\
  align "xxxxxxxxxxxxxxxxxx" "0.0s" 20 = "xxxxxxxxxxxxxxxxxx 0.0s" /\
  align "x" "0.0s" 0 = "x     0.0s" /\
  align "x" "0.0s" 2000000 = "%!(BADWIDTH)x 0.0s".
Proof. repeat split; vm_compute; reflexivity. Qed.

(** ** The scenario of the specification (section 8)

    One event is recorded as working and a tick passes: the header counts
    over the lines of the previous repaint, of which there is none yet.  The
    event is then recorded as done: the next headers read 1/1, in the
    complete-state colour, and the timer no longer grows. *)

Example scenario_first_tick :
  ttyWriter.out (after scenario_start).2
  = [aec.Column 0 (aec.Down 1 (aec.Up 1 aec.EmptyBuilder));
     aec.Hide;
     "[+] Running 0/0" +:+ Go.nl;
     aec.Apply (align " ⠙ svc1 starting " ("1.0s" +:+ Go.nl) 40) aec.WhiteF;
     aec.Show].
Proof. vm_compute. reflexivity. Qed.

Example scenario_after_done :
  drop 5 (ttyWriter.out (after scenario_done).2)
  = [aec.Column 0 (aec.Up 1 (aec.Up 1 aec.EmptyBuilder));
     aec.Hide;
     aec.Apply "[+] Running 1/1" aec.BlueF +:+ Go.nl;
     aec.Apply (align " ⠙ svc1 starting done" ("2.0s" +:+ Go.nl) 40) aec.BlueF;
     aec.Show;
     aec.Column 0 (aec.Up 1 (aec.Up 1 aec.EmptyBuilder));
     aec.Hide;
     aec.Apply "[+] Running 1/1" aec.BlueF +:+ Go.nl;
     aec.Apply (align " ⠙ svc1 starting done" ("2.0s" +:+ Go.nl) 40) aec.BlueF;
     aec.Show].
Proof. vm_compute. reflexivity. Qed.

(** An event recorded as in error is not frozen: [Event] calls [stop] on a
    transition into [Done] only, so [endTime] keeps its zero value, which
    [lineText] then subtracts [startTime] from. *)
Example Error_leaves_endTime_unset :
  ttyWriter.events
    (after [Call_Event 1 (incoming "a" "build" Working "");
            Call_Event 2 (incoming "a" "build" Error "failed")]).2 !! "a"
  = Some {| Event.ID := "a"; Event.Text := "build"; Event.Status := Error;
            Event.StatusText := "failed"; Event.startTime := 1;
            Event.endTime := time.zero; Event.spinner := Some 0%nat |}.
Proof. vm_compute. reflexivity. Qed.

(** ** Counterexamples and instances *)

Lemma wf_after (cs : list call) : wf (after cs).1 (after cs).2.
Proof.
  unfold after.
  destruct (@wf_run braille cs [] ttyWriter.empty wf_empty) as (h & w & Hr & Hwf).
  rewrite Hr. exact Hwf.
Qed.

(** The claim C1 fails on [Working, Done, Working, Done] for one
    identifier: the event is frozen at instant 2 by the second call, and its
    [endTime] is set again, to 4, by the fourth. *)
Lemma endTime_set_again_after_working :
  exists (h h' : store) (w w' : ttyWriter.t) (stored stored' : Event.t),
    @run braille [Call_Event 1 (incoming "a" "build" Working "");
                  Call_Event 2 (incoming "a" "build" Done "built")]
         [] ttyWriter.empty = Some (h, w) /\
    ttyWriter.events w !! "a" = Some stored /\
    Event.Status stored = Done /\ Event.endTime stored = 2 /\
    @run braille [Call_Event 3 (incoming "a" "build" Working "");
                  Call_Event 4 (incoming "a" "build" Done "built")]
         h w = Some (h', w') /\
    ttyWriter.events w' !! "a" = Some stored' /\
    Event.endTime stored' = 4 /\
    Event.endTime stored' <> Event.endTime stored.
Proof.
  eexists _, _, _, _, _, _.
  split; [vm_compute; reflexivity|].
  split; [vm_compute; reflexivity|].
  split; [reflexivity|]. split; [reflexivity|].
  split; [vm_compute; reflexivity|].
  split; [vm_compute; reflexivity|].
  split; [reflexivity|]. simpl. discriminate.
Qed.

Lemma endTime_frozen_while_done_witness :
  let e0 := incoming "a" "build" Working "" in
  let h := (after [Call_Event 1 e0]).1 in
  let w := (after [Call_Event 1 e0]).2 in
  wf h w /\
  ttyWriter.events w !! "a" = Some (observed 1 0 e0) /\
  h !! 0%nat = Some spinner.newSpinner /\
  exists h' w' stored',
    ttyWriter.Event 5 (incoming "a" "build" Done "built") h w = Some (h', w') /\
    ttyWriter.events w' !! "a" = Some stored' /\
    Event.Status stored' = Done /\
    Event.endTime stored' = 5 /\
    h' !! 0%nat = Some (spinner.Stop spinner.newSpinner).
Proof.
  intros e0 h w.
  assert (Hst : ttyWriter.events w !! "a" = Some (observed 1 0 e0))
    by (vm_compute; reflexivity).
  assert (Hs : h !! 0%nat = Some spinner.newSpinner) by (vm_compute; reflexivity).
  split; [apply wf_after|]. split; [exact Hst|]. split; [exact Hs|].
  destruct (@endTime_frozen_while_done braille h w "a" (observed 1 0 e0) 0%nat
              spinner.newSpinner (wf_after _) Hst eq_refl Hs) as [Hfreeze _].
  apply (Hfreeze 5 (incoming "a" "build" Done "built")); reflexivity.
Defined.

(** The claim C4 fails: were a malformed width clamped to a usable floor
    [F], every width up to [F] would be laid out as [F] is; but the widths 0
    and -50 are laid out differently. *)
Lemma no_width_floor :
  ~ exists F : Z,
      0 < F /\
      forall W : Z,
        W <= F ->
        align "x" ("0.0s" +:+ Go.nl) W = align "x" ("0.0s" +:+ Go.nl) F.
Proof.
  intros (F & HF & Hfloor).
  assert (H0 := Hfloor 0). assert (H50 := Hfloor (-50)).
  specialize (H0 ltac:(lia)). specialize (H50 ltac:(lia)).
  rewrite <- H50 in H0. vm_compute in H0. discriminate H0.
Qed.

Lemma width_reaches_align_unclamped_witness :
  -1000000 <= -1 - Go.len ("0.0s" +:+ Go.nl) - 1 < 0 /\
  exists k : nat,
    align "x" ("0.0s" +:+ Go.nl) (-1)
    = "x" +:+ Go.replicate_string k " " +:+ " " +:+ "0.0s" +:+ Go.nl /\
    Z.of_nat k = 6.
Proof.
  split; [by_evaluation|].
  destruct (@width_reaches_align_unclamped braille []) as (h & w & _ & Hw).
  destruct (Hw 0 (-1)) as [_ Hal].
  destruct (Hal "x" ("0.0s" +:+ Go.nl)) as [_ Hneg].
  destruct Hneg as (k & Hk & Hn); [by_evaluation|].
  exists k. split; [exact Hk|]. rewrite Hn. reflexivity.
Defined.

(** The claim C5 fails at the width -1 that the terminal library reports
    when it cannot tell: ["x"] is longer than [W - len(r) - 1 = -7], yet it
    is not followed by one space but padded to seven code points. *)
Lemma align_pads_at_negative_width :
  -1 - Go.len ("0.0s" +:+ Go.nl) - 1 <= utf8.RuneCountInString "x" /\
  align "x" ("0.0s" +:+ Go.nl) (-1) <> "x" +:+ " " +:+ "0.0s" +:+ Go.nl /\
  align "x" ("0.0s" +:+ Go.nl) (-1) = "x      " +:+ " " +:+ "0.0s" +:+ Go.nl.
Proof.
  split; [vm_compute; discriminate|].
  split; [vm_compute; discriminate|vm_compute; reflexivity].
Qed.

Lemma align_right_aligns_without_truncation_witness :
  0 <= 12 - Go.len ("0.0s" +:+ Go.nl) - 1 <= 1000000 /\
  utf8.RuneCountInString " ⠋ a" <= 12 - Go.len ("0.0s" +:+ Go.nl) - 1 /\
  exists k : nat,
    align " ⠋ a" ("0.0s" +:+ Go.nl) 12
    = "" +:+ " ⠋ a" +:+ Go.replicate_string k " " +:+ " " +:+ "0.0s" +:+ Go.nl /\
    utf8.RuneCountInString " ⠋ a" + Z.of_nat k + 1 + Go.len ("0.0s" +:+ Go.nl) = 12.
Proof.
  assert (Hn : 0 <= 12 - Go.len ("0.0s" +:+ Go.nl) - 1 <= 1000000)
    by by_evaluation.
  assert (Hfit : utf8.RuneCountInString " ⠋ a" <= 12 - Go.len ("0.0s" +:+ Go.nl) - 1)
    by (vm_compute; discriminate).
  split; [exact Hn|]. split; [exact Hfit|].
  destruct (@align_right_aligns_without_truncation
              " ⠋ a" ("0.0s" +:+ Go.nl) 12) as (pre & k & Hal & _ & Hin).
  destruct (Hin Hn) as (-> & Hright & _).
  exists k. split; [exact Hal|exact (Hright Hfit)].
Defined.

(** The claim C6 fails on an identifier that is not ASCII.  With the
    identifiers of two bytes and one code point and of four bytes, both lines
    are padded to 7 bytes before [StatusText], which stands 10 code points
    into the first line and 11 into the second. *)
Lemma status_text_columns_differ_off_ascii :
  let e1 := incoming "é" "up" Working "pulling" in
  let e2 := incoming "abcd" "up" Working "pulling" in
  let cs := [Call_Event 1 e1; Call_Event 2 e2] in
  let glyph := @frame_at braille 1%nat in
  let left1 := "é" +:+ " " +:+ "up" +:+ "  " in
  let left2 := "abcd" +:+ " " +:+ "up" in
  Forall fits cs /\
  exists (h h' : store) (w w' : ttyWriter.t),
    @run braille cs [] ttyWriter.empty = Some (h, w) /\
    ttyWriter.statusPadding_of (ttyWriter.events w) (ttyWriter.eventIDs w) = 7 /\
    @ttyWriter.print braille 3 80 h w = Some (h', w') /\
    ttyWriter.out w'
    = frame_of (cursor_after None) (header_of 0 0)
        [aec.Apply
           (align (" " +:+ glyph +:+ " " +:+ left1 +:+ " " +:+ "pulling")
                  (@timer_of braille 3 (observed 1 0 e1)) 80)
           aec.WhiteF;
         aec.Apply
           (align (" " +:+ glyph +:+ " " +:+ left2 +:+ " " +:+ "pulling")
                  (@timer_of braille 3 (observed 2 1 e2)) 80)
           aec.WhiteF] /\
    Go.len left1 = 7 /\
    Go.len left2 = 7 /\
    utf8.RuneCountInString (left1 +:+ " ") = 7 /\
    utf8.RuneCountInString (left2 +:+ " ") = 8 /\
    utf8.RuneCountInString (" " +:+ glyph +:+ " " +:+ left1 +:+ " ") = 10 /\
    utf8.RuneCountInString (" " +:+ glyph +:+ " " +:+ left2 +:+ " ") = 11.
Proof.
  intros e1 e2 cs glyph left1 left2.
  split; [repeat constructor; vm_compute; discriminate|].
  eexists _, _, _, _.
  split; [vm_compute; reflexivity|].
  split; [vm_compute; reflexivity|].
  split; [vm_compute; reflexivity|].
  split; [vm_compute; reflexivity|].
  repeat split; vm_compute; reflexivity.
Qed.

Lemma status_text_aligned_in_bytes_witness :
  let cs := [Call_Event 1 (incoming "web" "starting" Working "");
             Call_Event 2 (incoming "database" "starting" Working "pulling")] in
  Forall fits cs /\
  exists (h : store) (w : ttyWriter.t),
    @run braille cs [] ttyWriter.empty = Some (h, w) /\
    (forall id e,
       ttyWriter.events w !! id = Some e ->
       width e <= ttyWriter.statusPadding_of (ttyWriter.events w)
                                             (ttyWriter.eventIDs w)) /\
    exists (h' : store) (w' : ttyWriter.t) (lines : list string),
      @ttyWriter.print braille 3 80 h w = Some (h', w') /\
      Forall2
        (fun id line =>
           exists (e : Event.t) (glyph pad : string),
             ttyWriter.events w !! id = Some e /\
             (ascii_only (Event.ID e) -> ascii_only (Event.Text e) ->
              utf8.RuneCountInString
                (Event.ID e +:+ " " +:+ Event.Text e +:+ pad +:+ " ")
              = ttyWriter.statusPadding_of (ttyWriter.events w)
                                           (ttyWriter.eventIDs w) + 1) /\
             line = aec.Apply
                      (align (" " +:+ glyph +:+ " " +:+ Event.ID e +:+ " "
                                  +:+ Event.Text e +:+ pad +:+ " "
                                  +:+ Event.StatusText e)
                             (@timer_of braille 3 e) 80)
                      (color_of (Event.Status e)))
        (ttyWriter.eventIDs w) lines.
Proof.
  intros cs.
  assert (Hfits : Forall fits cs)
    by (repeat constructor; vm_compute; discriminate).
  split; [exact Hfits|].
  destruct (@status_text_aligned_in_bytes braille cs Hfits)
    as (h & w & Hr & Hmax & _ & Hprint).
  exists h, w. split; [exact Hr|]. split; [exact Hmax|].
  destruct (Hprint 3 80) as (h' & w' & lines & Hp & _ & Hall).
  exists h', w', lines. split; [exact Hp|].
  eapply Forall2_impl; [exact Hall|].
  intros id line (e & glyph & pad & He & _ & _ & Hcol & Hline).
  exists e, glyph, pad. split; [exact He|]. split; [exact Hcol|exact Hline].
Defined.

(** The claim C7 fails on the update from [Working] to [Done]: beside
    [Status], [Text] and [StatusText], the record call writes [endTime], 5
    for the zero instant stored, and stops the spinner of the event. *)
Lemma update_to_done_sets_endTime_and_stops_spinner :
  exists (h h' : store) (w w' : ttyWriter.t) (stored stored' : Event.t)
         (s s' : spinner.t),
    @run braille [Call_Event 1 (incoming "a" "build" Working "")]
         [] ttyWriter.empty = Some (h, w) /\
    ttyWriter.events w !! "a" = Some stored /\
    Event.spinner stored = Some 0%nat /\
    h !! 0%nat = Some s /\
    ttyWriter.Event 5 (incoming "a" "build" Done "built") h w = Some (h', w') /\
    ttyWriter.events w' !! "a" = Some stored' /\
    Event.spinner stored' = Some 0%nat /\
    h' !! 0%nat = Some s' /\
    Event.endTime stored = time.zero /\
    Event.endTime stored' = 5 /\
    Event.endTime stored' <> Event.endTime stored /\
    spinner.stopped s = false /\
    spinner.stopped s' = true /\
    s' <> s.
Proof.
  eexists _, _, _, _, _, _, _, _.
  split; [vm_compute; reflexivity|].
  split; [vm_compute; reflexivity|].
  split; [reflexivity|].
  split; [reflexivity|].
  split; [vm_compute; reflexivity|].
  split; [vm_compute; reflexivity|].
  split; [reflexivity|].
  split; [reflexivity|].
  split; [reflexivity|].
  split; [reflexivity|].
  split; [simpl; discriminate|].
  split; [reflexivity|].
  split; [reflexivity|].
  discriminate.
Qed.

Lemma update_overwrites_status_text_statusText_witness :
  let e0 := incoming "a" "build" Working "" in
  let h := (after [Call_Event 1 e0]).1 in
  let w := (after [Call_Event 1 e0]).2 in
  let e := incoming "a" "ready" Done "built" in
  ttyWriter.events w !! Event.ID e = Some (observed 1 0 e0) /\
  h !! 0%nat = Some spinner.newSpinner /\
  exists h' w' stored',
    ttyWriter.Event 5 e h w = Some (h', w') /\
    ttyWriter.events w' !! "a" = Some stored' /\
    Event.Status stored' = Done /\
    Event.Text stored' = "ready" /\
    Event.StatusText stored' = "built" /\
    Event.startTime stored' = 1 /\
    Event.spinner stored' = Some 0%nat /\
    Event.endTime stored' = 5 /\
    length h' = 1%nat /\
    h' !! 0%nat = Some (spinner.Stop spinner.newSpinner).
Proof.
  intros e0 h w e.
  assert (Hst : ttyWriter.events w !! Event.ID e = Some (observed 1 0 e0))
    by (vm_compute; reflexivity).
  assert (Hs : h !! 0%nat = Some spinner.newSpinner) by (vm_compute; reflexivity).
  split; [exact Hst|]. split; [exact Hs|].
  destruct (update_overwrites_status_text_statusText 5 e (observed 1 0 e0) h w
              0%nat spinner.newSpinner Hst eq_refl Hs)
    as (h' & w' & stored' & Hev & Hnew & Hstatus & Htext & Hstext & _ & Hstart
        & Hsp & Hend & Hlen & Hcell & _).
  exists h', w', stored'. split; [exact Hev|]. split; [exact Hnew|].
  split; [exact Hstatus|]. split; [exact Htext|]. split; [exact Hstext|].
  split; [exact Hstart|]. split; [exact Hsp|]. split; [exact Hend|].
  split; [exact Hlen|]. exact Hcell.
Defined.

Lemma lineText_total_in_statusPadding_witness :
  let e := observed 1 0 (incoming "database" "starting" Working "pulling") in
  Event.spinner e = Some 0%nat /\
  [spinner.newSpinner] !! 0%nat = Some spinner.newSpinner /\
  exists (line : string) (h' : store),
    @lineText braille 3 e 40 (-5) [spinner.newSpinner] = Some (line, h').
Proof.
  intros e. split; [reflexivity|]. split; [reflexivity|].
  destruct (@lineText_total_in_statusPadding braille 3 e 40 (-5)
              [spinner.newSpinner] 0%nat spinner.newSpinner eq_refl eq_refl)
    as (line & glyph & h' & Hline & _).
  exists line, h'. exact Hline.
Defined.

(** The claim C10 fails on the empty list: no subscription exists, and the
    selector is consulted, with no option to choose from. *)
Lemma chooseSub_prompts_on_empty_list :
  (length (@nil azure.Model.t) < 2)%nat /\
  azure.prompts (@azure.chooseSub first_option [])
  = [azure.Prompted "Select a subscription ID" []].
Proof. split; [repeat constructor|reflexivity]. Qed.

Lemma chooseSub_sole_subscription_witness :
  let sub := {| azure.Model.DisplayName := Some "Pay-As-You-Go";
                azure.Model.SubscriptionID := Some "sub-1" |} in
  azure.Model.DisplayName sub = Some "Pay-As-You-Go" /\
  azure.Model.SubscriptionID sub = Some "sub-1" /\
  @azure.chooseSub first_option [sub]
  = ([azure.Printed "Using only available subscription : Pay-As-You-Go(sub-1)"],
     azure.Returns ("sub-1", None)).
Proof.
  intros sub. split; [reflexivity|]. split; [reflexivity|].
  destruct (@chooseSub_sole_subscription first_option) as [Hsole _].
  destruct (Hsole sub "Pay-As-You-Go" "sub-1" eq_refl eq_refl) as [Hret _].
  exact Hret.
Defined.

(** ** Instances of the further properties *)

Lemma frozen_line_is_stable_witness :
  let e := updated 4 (observed 1 0 (incoming "db" "pull" Working ""))
                   (incoming "db" "pull" Done "pulled") in
  let h := [spinner.Stop spinner.newSpinner] in
  Event.Status e <> Working /\
  Event.spinner e = Some 0%nat /\
  h !! 0%nat = Some (spinner.Stop spinner.newSpinner) /\
  spinner.stopped (spinner.Stop spinner.newSpinner) = true /\
  exists line : string,
    @lineText braille 5 e 40 10 h = Some (line, h) /\
    @lineText braille 9 e 40 10 h = Some (line, h).
Proof.
  intros e h.
  assert (Hst : Event.Status e <> Working) by discriminate.
  split; [exact Hst|]. do 3 (split; [reflexivity|]).
  apply (@frozen_line_is_stable braille e 40 10 h 0%nat
           (spinner.Stop spinner.newSpinner) 5 9 Hst eq_refl eq_refl eq_refl).
Defined.

Lemma line_is_coloured_and_timed_witness :
  let e := observed 1 0 (incoming "db" "pull" Working "") in
  Event.spinner e = Some 0%nat /\
  [spinner.newSpinner] !! 0%nat = Some spinner.newSpinner /\
  exists (body : string) (h' : store),
    @lineText braille 3 e 40 10 [spinner.newSpinner]
    = Some (aec.WhiteF +:+ body +:+ " "
              +:+ @format_f1 braille (time.Sub 3 1)
              +:+ "s" +:+ Go.nl +:+ aec.Reset, h').
Proof.
  intros e. do 2 (split; [reflexivity|]).
  apply (@line_is_coloured_and_timed braille 3 e 40 10 [spinner.newSpinner]
           0%nat spinner.newSpinner eq_refl eq_refl).
Defined.

Lemma align_length_witness :
  0 <= 12 - Go.len ("0.0s" +:+ Go.nl) - 1 <= 1000000 /\
  ascii_only "ab" /\
  Go.len "ab" <= 12 - Go.len ("0.0s" +:+ Go.nl) - 1 /\
  Go.len (align "ab" ("0.0s" +:+ Go.nl) 12) = 12.
Proof.
  assert (Hn : 0 <= 12 - Go.len ("0.0s" +:+ Go.nl) - 1 <= 1000000)
    by by_evaluation.
  assert (Hascii : ascii_only "ab") by (repeat constructor).
  assert (Hfit : Go.len "ab" <= 12 - Go.len ("0.0s" +:+ Go.nl) - 1)
    by by_evaluation.
  split; [exact Hn|]. split; [exact Hascii|]. split; [exact Hfit|].
  destruct (align_length "ab" ("0.0s" +:+ Go.nl) 12 Hn) as [Hright _].
  apply (Hright Hascii Hfit).
Defined.

Lemma chooseSub_returns_selected_witness :
  let subs := [sub_one; sub_two] in
  length subs <> 1%nat /\
  Forall named subs /\
  @azure.chooseSub (answering 1 None) subs
  = ([azure.Prompted "Select a subscription ID"
        ["Pay-As-You-Go(sub-1)"; "Enterprise(sub-2)"]],
     azure.Returns ("sub-2", None)).
Proof.
  intros subs.
  assert (Hlen : length subs <> 1%nat) by discriminate.
  assert (Hall : Forall named subs)
    by (repeat constructor; eexists; reflexivity).
  split; [exact Hlen|]. split; [exact Hall|].
  apply (@chooseSub_returns_selected (answering 1 None) subs 1 sub_two "sub-2"
           Hlen Hall eq_refl ltac:(discriminate) eq_refl eq_refl).
Defined.

Lemma chooseSub_failures_witness :
  let subs := [sub_one; sub_two] in
  length subs <> 1%nat /\
  Forall named subs /\
  @azure.chooseSub (answering 0 (Some azure.InterruptErr)) subs
  = ([azure.Prompted "Select a subscription ID" (map sub_label subs)],
     azure.Exits 0).
Proof.
  intros subs.
  assert (Hlen : length subs <> 1%nat) by discriminate.
  assert (Hall : Forall named subs)
    by (repeat constructor; eexists; reflexivity).
  split; [exact Hlen|]. split; [exact Hall|].
  destruct (@chooseSub_failures (answering 0 (Some azure.InterruptErr)) subs 0
              (Some azure.InterruptErr) Hlen Hall eq_refl) as [Hint _].
  apply Hint. reflexivity.
Defined.

Lemma chooseGroup_returns_listed_group_witness :
  let groups := [group_one; group_two] in
  Forall named_group groups /\
  1 <= 2 <= Go.int_max /\
  @contextCreateACIHelper.chooseGroup (answering 2 None) account library
     "sub-1" ∅ groups
  = ([contextCreateACIHelper.Io
        (azure.Prompted "Select a resource group"
           ["create a new resource group"; "rg1 (westeurope)"; "rg2 (eastus2)"])],
     azure.Returns (group_two, None)).
Proof.
  intros groups.
  assert (Hall : Forall named_group groups)
    by (repeat constructor; eexists; reflexivity).
  assert (Hi : 1 <= 2 <= Go.int_max) by by_evaluation.
  split; [exact Hall|]. split; [exact Hi|].
  apply (@chooseGroup_returns_listed_group (answering 2 None) account library
           "sub-1" ∅ groups 2 group_two Hall eq_refl Hi eq_refl).
Defined.

Lemma chooseGroup_creates_group_witness :
  let groups := [group_one; group_two] in
  let request := {| resources.Name := None; resources.Location := Some "eastus" |} in
  let created :=
    {| resources.Name := Some "6ba7b810-9dad-11d1-80b4-00c04fd430c8";
       resources.Location := Some "eastus" |} in
  Forall named_group groups /\
  @contextCreateACIHelper.chooseGroup (answering 0 None) account library
     "sub-1" ∅ groups
  = ([contextCreateACIHelper.Io
        (azure.Prompted "Select a resource group" (group_options groups));
      contextCreateACIHelper.Api
        (contextCreateACIHelper.Called_CreateOrUpdate
           "sub-1" "6ba7b810-9dad-11d1-80b4-00c04fd430c8" request);
      contextCreateACIHelper.Io
        (azure.Printed
           ("Resource group "
              +:+ @contextCreateACIHelper.quote library
                    "6ba7b810-9dad-11d1-80b4-00c04fd430c8"
              +:+ " (" +:+ "eastus" +:+ ") created"))],
     azure.Returns (created, None)).
Proof.
  intros groups request created.
  assert (Hall : Forall named_group groups)
    by (repeat constructor; eexists; reflexivity).
  split; [exact Hall|].
  assert (Hcreate :
            @contextCreateACIHelper.CreateOrUpdate account "sub-1"
              (@contextCreateACIHelper.uuid_New_String library)
              {| resources.Name := None;
                 resources.Location :=
                   Some (location_or_eastus
                           (contextCreateACIHelper.opt ∅ "aciLocation")) |}
            = (created, None)) by (vm_compute; reflexivity).
  destruct (@chooseGroup_creates_group (answering 0 None) account library
              "sub-1" ∅ groups created None Hall eq_refl Hcreate)
    as [Hcreated _].
  apply (Hcreated "6ba7b810-9dad-11d1-80b4-00c04fd430c8" "eastus");
    reflexivity.
Defined.

Lemma chooseGroup_failures_witness :
  let groups := [group_one; group_two] in
  Z.of_nat (length groups) <= Go.int_max /\
  Forall named_group groups /\
  @contextCreateACIHelper.chooseGroup (answering 7 None) account library
     "sub-1" ∅ groups
  = ([contextCreateACIHelper.Io
        (azure.Prompted "Select a resource group" (group_options groups))],
     azure.Panics).
Proof.
  intros groups.
  assert (Hbound : Z.of_nat (length groups) <= Go.int_max) by by_evaluation.
  assert (Hall : Forall named_group groups)
    by (repeat constructor; eexists; reflexivity).
  split; [exact Hbound|]. split; [exact Hall|].
  destruct (@chooseGroup_failures (answering 7 None) account library
              "sub-1" ∅ groups Hbound) as [_ Hprompted].
  destruct (Hprompted Hall 7 None eq_refl) as (_ & _ & Hpanic).
  apply Hpanic; [reflexivity|by_evaluation|right; by_evaluation].
Defined.

Lemma createContextData_from_options_witness :
  contextCreateACIHelper.opt full_options "aciSubscriptionID" <> "" /\
  contextCreateACIHelper.opt full_options "aciResourceGroup" <> "" /\
  @contextCreateACIHelper.createContextData first_option account library
     full_options
  = ([contextCreateACIHelper.Api
        (contextCreateACIHelper.Called_GetGroup "sub-9" "rg1")],
     azure.Returns
       (Some {| AciContext.SubscriptionID := "sub-9";
                AciContext.Location := "westeurope";
                AciContext.ResourceGroup := "rg1" |},
        "demo (rg1@westeurope)", None)).
Proof.
  assert (Hsub : contextCreateACIHelper.opt full_options "aciSubscriptionID" <> "")
    by (vm_compute; discriminate).
  assert (Hrg : contextCreateACIHelper.opt full_options "aciResourceGroup" <> "")
    by (vm_compute; discriminate).
  split; [exact Hsub|]. split; [exact Hrg|].
  apply (@createContextData_from_options first_option account library
           full_options group_one "rg1" "westeurope" Hsub Hrg eq_refl eq_refl
           eq_refl).
Defined.

Lemma createContextData_api_failures_witness :
  let chosen :=
    [contextCreateACIHelper.Api contextCreateACIHelper.Called_GetSubscriptionIDs;
     contextCreateACIHelper.Io
       (azure.Prompted "Select a subscription ID"
                       ["Pay-As-You-Go(sub-1)"; "Enterprise(sub-2)"])] in
  @subscription_known first_option closed_account lost_group_only chosen "sub-1" /\
  contextCreateACIHelper.opt lost_group_only "aciResourceGroup" <> "" /\
  @contextCreateACIHelper.createContextData first_option closed_account library
     lost_group_only
  = (chosen ++ [contextCreateACIHelper.Api
                  (contextCreateACIHelper.Called_GetGroup "sub-1" "rg7")],
     azure.Returns
       (None, "",
        Some (contextCreateACIHelper.WithMessage
                ("Could not find resource group "
                   +:+ @contextCreateACIHelper.quote library "rg7")
                (contextCreateACIHelper.Plain (azure.Err "not found"))))) /\
  @subscription_known first_option closed_account ∅ chosen "sub-1" /\
  @contextCreateACIHelper.createContextData first_option closed_account library ∅
  = (chosen ++ [contextCreateACIHelper.Api
                  (contextCreateACIHelper.Called_ListGroups "sub-1")],
     azure.Returns
       (None, "", Some (contextCreateACIHelper.Plain (azure.Err "forbidden")))).
Proof.
  intros chosen.
  assert (Hknown : forall opts,
             contextCreateACIHelper.opt opts "aciSubscriptionID" = "" ->
             @subscription_known first_option closed_account opts chosen "sub-1").
  { intros opts Hsub.
    apply (@known_from_account first_option closed_account opts
             [sub_one; sub_two]
             [azure.Prompted "Select a subscription ID"
                             ["Pay-As-You-Go(sub-1)"; "Enterprise(sub-2)"]]
             "sub-1" Hsub); reflexivity. }
  assert (Hrg : contextCreateACIHelper.opt lost_group_only "aciResourceGroup" <> "")
    by (vm_compute; discriminate).
  assert (Hlost : @subscription_known first_option closed_account
                    lost_group_only chosen "sub-1")
    by (apply Hknown; vm_compute; reflexivity).
  assert (Hnone : @subscription_known first_option closed_account ∅ chosen
                    "sub-1")
    by (apply Hknown; vm_compute; reflexivity).
  split; [exact Hlost|]. split; [exact Hrg|].
  split; [|split; [exact Hnone|]].
  - destruct (@createContextData_api_failures first_option closed_account
                library lost_group_only (azure.Err "not found"))
      as (_ & Hget & _).
    apply (Hget chosen "sub-1" resources.zero Hlost Hrg).
    reflexivity.
  - destruct (@createContextData_api_failures first_option closed_account
                library ∅ (azure.Err "forbidden"))
      as (_ & _ & Hlist & _).
    apply (Hlist chosen "sub-1" [] Hnone); vm_compute; reflexivity.
Defined.

Lemma createContextData_keeps_given_subscription_witness :
  contextCreateACIHelper.opt full_options "aciSubscriptionID" <> "" /\
  Forall (uses_subscription "sub-9")
         (fst (@contextCreateACIHelper.createContextData first_option account
                 library full_options)).
Proof.
  assert (Hsub : contextCreateACIHelper.opt full_options "aciSubscriptionID" <> "")
    by (vm_compute; discriminate).
  split; [exact Hsub|].
  apply (@createContextData_keeps_given_subscription first_option account
           library full_options Hsub).
Defined.

Lemma createContextData_result_witness :
  let tr := [contextCreateACIHelper.Api
               (contextCreateACIHelper.Called_GetGroup "sub-9" "rg7")] in
  let err :=
    contextCreateACIHelper.WithMessage
      ("Could not find resource group "
         +:+ @contextCreateACIHelper.quote library "rg7")
      (contextCreateACIHelper.Plain (azure.Err "not found")) in
  @contextCreateACIHelper.createContextData first_option account library
     lost_options = (tr, azure.Returns (None, "", Some err)) /\
  (@None AciContext.t = None /\ "" = "").
Proof.
  intros tr err.
  assert (Hrun : @contextCreateACIHelper.createContextData first_option account
                   library lost_options
                 = (tr, azure.Returns (None, "", Some err)))
    by (vm_compute; reflexivity).
  split; [exact Hrun|].
  apply (@createContextData_result first_option account library lost_options
           tr None "" (Some err) Hrun).
Defined.

Lemma createContextData_sole_subscription_witness :
  contextCreateACIHelper.opt group_options_only "aciSubscriptionID" = "" /\
  contextCreateACIHelper.opt group_options_only "aciResourceGroup" <> "" /\
  @contextCreateACIHelper.createContextData first_option small_account library
     group_options_only
  = ([contextCreateACIHelper.Api contextCreateACIHelper.Called_GetSubscriptionIDs;
      contextCreateACIHelper.Io
        (azure.Printed "Using only available subscription : Pay-As-You-Go(sub-1)");
      contextCreateACIHelper.Api
        (contextCreateACIHelper.Called_GetGroup "sub-1" "rg1")],
     azure.Returns
       (Some {| AciContext.SubscriptionID := "sub-1";
                AciContext.Location := "westeurope";
                AciContext.ResourceGroup := "rg1" |},
        "rg1@westeurope", None)).
Proof.
  assert (Hsub : contextCreateACIHelper.opt group_options_only "aciSubscriptionID" = "")
    by (vm_compute; reflexivity).
  assert (Hrg : contextCreateACIHelper.opt group_options_only "aciResourceGroup" <> "")
    by (vm_compute; discriminate).
  split; [exact Hsub|]. split; [exact Hrg|].
  apply (@createContextData_sole_subscription first_option small_account library
           group_options_only sub_one "Pay-As-You-Go" "sub-1" group_one
           "rg1" "westeurope" Hsub Hrg eq_refl eq_refl eq_refl eq_refl eq_refl
           eq_refl).
Defined.
